(** * zsys: the dataset-state model of [internal/zfs/helpers.go]

    A shallow embedding of the in-memory dataset model of zsys and the
    properties its specification states about it:
    - [getUserPropertyFromSys] and [RefreshProperties] (property codec and
      resolver), with the log lines they write;
    - [splitSnapshotName] and [checkSnapshotHierarchyIntegrity];
    - [stringToProp], [getPropertyFromName] and [setProperty] with its
      cascade to the inheriting descendants;
    - [inverseOrigin], on a store of dataset objects;
    - [newDatasetTree], over the tree of native datasets of a scan, and
      [checkNoClone]. *)

From Stdlib Require Import ZArith Lia Bool Ascii String DecimalString DecimalZ.
From stdpp Require Import base option list gmap strings.

Local Open Scope Z_scope.

(** ** Go library functions used by the package

    [strings.LastIndex], [strings.TrimPrefix], slicing, [strconv.Atoi],
    [strconv.Itoa] and [filepath.Join] belong to the Go standard library;
    they are modelled from their documented behaviour on byte strings. *)

Module strings.

Definition HasPrefix (s prefix : string) : bool := String.prefix prefix s.

(** [s[i:]] and [s[:i]] for an index within the string. *)
Fixpoint sliceFrom (s : string) (i : nat) : string :=
  match i, s with
  | O, _ => s
  | S i', String _ s' => sliceFrom s' i'
  | S _, EmptyString => EmptyString
  end.

Fixpoint sliceTo (s : string) (i : nat) : string :=
  match i, s with
  | O, _ => EmptyString
  | S i', String c s' => String c (sliceTo s' i')
  | S _, EmptyString => EmptyString
  end.

(** Index of the last instance of [substr] in [s], or -1. *)
Fixpoint LastIndexFrom (i : Z) (s substr : string) : Z :=
  match s with
  | EmptyString => if String.prefix substr EmptyString then i else -1
  | String _ s' =>
      let r := LastIndexFrom (i + 1) s' substr in
      if 0 <=? r then r
      else if String.prefix substr s then i else -1
  end.

Definition LastIndex (s substr : string) : Z := LastIndexFrom 0 s substr.

(** Does the byte [c] occur in [s]? *)
Fixpoint ContainsRune (s : string) (c : ascii) : bool :=
  match s with
  | EmptyString => false
  | String a s' => Ascii.eqb a c || ContainsRune s' c
  end.

Definition TrimPrefix (s prefix : string) : string :=
  if HasPrefix s prefix then sliceFrom s (String.length prefix) else s.

(** [strings.Split(s, sep)] for a one-byte separator. *)
Fixpoint SplitByte (sep : ascii) (s : string) : list string :=
  match s with
  | EmptyString => [EmptyString]
  | String c s' =>
      if Ascii.eqb c sep then EmptyString :: SplitByte sep s'
      else match SplitByte sep s' with
           | [] => [String c EmptyString]
           | w :: ws => String c w :: ws
           end
  end.

Fixpoint Join (elems : list string) (sep : string) : string :=
  match elems with
  | [] => EmptyString
  | [e] => e
  | e :: es => e +:+ sep +:+ Join es sep
  end.

End strings.

Module strconv.

(** Go's [int] on the 64-bit platforms zsys targets. *)
Definition minInt : Z := - 2 ^ 63.
Definition maxInt : Z := 2 ^ 63 - 1.

Definition inRange (n : Z) : bool := (minInt <=? n) && (n <=? maxInt).

Definition parseDigits (s : string) : option Z :=
  match NilZero.uint_of_string s with
  | Some d => Some (Z.of_uint d)
  | None => None
  end.

(** [strconv.Atoi]: an optional sign, then one or more decimal digits;
    [None] stands for the syntax or range error. *)
Definition Atoi (s : string) : option Z :=
  let r :=
    match s with
    | String "+"%char s' => parseDigits s'
    | String "-"%char s' => option_map Z.opp (parseDigits s')
    | _ => parseDigits s
    end in
  match r with
  | Some n => if inRange n then Some n else None
  | None => None
  end.

Definition Itoa (n : Z) : string := NilZero.string_of_int (Z.to_int n).

End strconv.

Module filepath.

(** One step of [Clean] over the path elements seen so far (kept in
    reverse): empty and [.] elements vanish, [..] removes the element
    before it, stays at the front of a relative path and vanishes at the
    root. *)
Definition cleanStep (rooted : bool) (stack : list string) (elem : string)
  : list string :=
  if String.eqb elem "" then stack
  else if String.eqb elem "." then stack
  else if String.eqb elem ".." then
    match stack with
    | top :: rest =>
        if String.eqb top ".." then elem :: stack else rest
    | [] => if rooted then [] else [elem]
    end
  else elem :: stack.

Definition Clean (path : string) : string :=
  let rooted := strings.HasPrefix path "/" in
  let elems := rev (fold_left (cleanStep rooted) (strings.SplitByte "/" path) []) in
  match elems with
  | [] => if rooted then "/" else "."
  | _ => (if rooted then "/" else "") +:+ strings.Join elems "/"
  end.

(** [filepath.Join(a, b)]: empty leading elements are skipped, the rest
    is joined with a slash and cleaned; all empty gives the empty
    string. *)
Definition Join (a b : string) : string :=
  if String.eqb a "" then
    if String.eqb b "" then "" else Clean b
  else Clean (a +:+ "/" +:+ b).

End filepath.

(** ** The libzfs binding, as far as this package uses it *)

(** Names of the properties the package handles. In Go they are string
    constants of the package ([CanmountProp], [BootfsProp], ...), pairwise
    distinct since they label the cases of one [switch]; any other string is
    [OtherProp]. *)
Inductive propName :=
  | CanmountProp
  | SnapshotCanmountProp
  | MountPointProp
  | SnapshotMountpointProp
  | BootfsProp
  | LastUsedProp
  | BootfsDatasetsProp
  | LastBootedKernelProp
  | OtherProp (name : string).

#[global] Instance propName_eq_dec : EqDecision propName.
Proof. solve_decision. Defined.

(** [libzfs.Prop] is an integer type; [PropZero] is its zero value, which
    [setProperty] uses for "no native property". *)
Inductive libzfsProp :=
  | PropZero
  | DatasetPropName
  | DatasetPropMountpoint
  | DatasetPropCanmount
  | DatasetPropMounted
  | DatasetPropOrigin
  | DatasetPropCreation
  | PoolPropAltroot.

#[global] Instance libzfsProp_eq_dec : EqDecision libzfsProp.
Proof. solve_decision. Defined.

Definition libzfsProp_to_nat (p : libzfsProp) : nat :=
  match p with
  | PropZero => 0 | DatasetPropName => 1 | DatasetPropMountpoint => 2
  | DatasetPropCanmount => 3 | DatasetPropMounted => 4
  | DatasetPropOrigin => 5 | DatasetPropCreation => 6 | PoolPropAltroot => 7
  end%nat.

Definition libzfsProp_of_nat (n : nat) : option libzfsProp :=
  match n with
  | 0 => Some PropZero | 1 => Some DatasetPropName
  | 2 => Some DatasetPropMountpoint | 3 => Some DatasetPropCanmount
  | 4 => Some DatasetPropMounted | 5 => Some DatasetPropOrigin
  | 6 => Some DatasetPropCreation | 7 => Some PoolPropAltroot
  | _ => None
  end%nat.

#[global] Program Instance libzfsProp_countable : Countable libzfsProp :=
  inj_countable libzfsProp_to_nat libzfsProp_of_nat _.
Next Obligation. by intros []. Qed.

Record Property := mkProperty { Value : string; Source : string }.

Inductive DatasetType :=
  | DatasetTypeFilesystem
  | DatasetTypeSnapshot
  | DatasetTypeVolume
  | DatasetTypeBookmark.

(** Errors, one constructor per place that makes one. *)
Inductive error :=
  | ErrBackend (msg : string)
  | ErrCantGetProperty (prop : propName) (cause : error)
  | ErrCantGetPool (cause : error)
  | ErrNotAnInt (prop : propName)
  | ErrSnapshotOnChildOnly (dataset snapshotName snapshot : string)
  | ErrNotInCache (name : string)
  | ErrCannotFindBaseSnapshot (origin : string) (cause : error)
  | ErrCannotFindOldSnapshot (oldName dataset : string).

Record Pool := mkPool { PoolProperties : gmap libzfsProp Property }.

(** A [libzfs.Dataset] handle: its type, its cache of native properties and
    what the system answers to the read calls made through it. *)
Record libzfsDataset := mkLibzfsDataset {
  Type_ : DatasetType;
  Properties : gmap libzfsProp Property;
  GetUserProperty : propName -> Property * option error;
  GetPool : Pool * option error
}.

(** Reading a Go map gives the zero value for a missing key. *)
Definition prop_at (m : gmap libzfsProp Property) (k : libzfsProp) : Property :=
  default (mkProperty "" "") (m !! k).

Definition libzfs_IsSnapshot (z : libzfsDataset) : bool :=
  match Type_ z with DatasetTypeSnapshot => true | _ => false end.

(** ** Data model *)

Module sources.
Record datasetSources := mk {
  Mountpoint : string;
  CanMount : string;
  BootFS : string;
  LastUsed : string;
  LastBootedKernel : string;
  BootfsDatasets : string
}.
Definition zero : datasetSources := mk "" "" "" "" "" "".
End sources.

Record DatasetProp := mkDatasetProp {
  Mountpoint : string;
  CanMount : string;
  Mounted : bool;
  BootFS : bool;
  LastUsed : Z;
  LastBootedKernel : string;
  BootfsDatasets : string;
  Origin : string;
  sources : sources.datasetSources
}.

(** A dataset owns its children: the tree is the ownership tree that
    [newDatasetTree] builds (one fresh node per scanned dataset). *)
#[warning="-register-all"] Inductive Dataset := mkDataset {
  Name : string;
  IsSnapshot : bool;
  props : DatasetProp;
  dZFS : libzfsDataset;
  children : list Dataset
}.

Definition with_props (d : Dataset) (p : DatasetProp) : Dataset :=
  mkDataset (Name d) (IsSnapshot d) p (dZFS d) (children d).
Definition with_dZFS (d : Dataset) (z : libzfsDataset) : Dataset :=
  mkDataset (Name d) (IsSnapshot d) (props d) z (children d).
Definition with_children (d : Dataset) (cs : list Dataset) : Dataset :=
  mkDataset (Name d) (IsSnapshot d) (props d) (dZFS d) cs.

(** ** Logging

    The package logs through [log.Debugf] and [log.Warningf]; a run carries
    the entries it wrote. *)
Inductive logEntry :=
  | DebugNotZsysSnapshot (name : string) (prop : propName) (e : error)
  | WarnCanMountSource (name source : string)
  | DebugSnapshotProperty (prop : propName) (name value : string)
  | WarnNotValueSource (prop : propName) (name : string)
  | DebugDatasetProperty (prop : propName) (name value source : string).

Definition logged (A : Type) : Type := list logEntry * A.

Definition lret {A} (a : A) : logged A := ([], a).
Definition lbind {A B} (m : logged A) (k : A -> logged B) : logged B :=
  let '(l1, a) := m in let '(l2, b) := k a in (l1 ++ l2, b).
Definition llog (e : logEntry) : logged unit := ([e], tt).

Notation "'let*' x ':=' m 'in' k" := (lbind m (fun x => k))
  (at level 10, x pattern, m at level 100, k at level 200).
Notation "'run' m 'then' k" := (lbind m (fun _ => k))
  (at level 10, m at level 100, k at level 200).

(** ** PropertyCodec / PropertyResolver *)

(** The last step of [getUserPropertyFromSys]: a source other than "local"
    and "default" becomes "inherited". *)
Definition sanitizeSource (source : string) : string :=
  if negb (String.eqb source "local") && negb (String.eqb source "default")
  then "inherited" else source.

(** [getUserPropertyFromSys]: value and simplified source of a user
    property, read from the system. *)
Definition getUserPropertyFromSys (prop : propName) (dZFS : libzfsDataset)
  : logged (string * string * option error) :=
  let name := Value (prop_at (Properties dZFS) DatasetPropName) in
  let '(p, err) := GetUserProperty dZFS prop in
  match err with
  | Some e => lret ("", "", Some (ErrCantGetProperty prop e))
  | None =>
    (* User property doesn't exist for this dataset *)
    if String.eqb (Value p) "-"
       && (String.eqb (Source p) "-" || String.eqb (Source p) "none")
    then lret ("", "", None)
    (* Not set explicitly on the snapshot: ignore it *)
    else if libzfs_IsSnapshot dZFS && negb (String.eqb (Source p) "local")
    then lret ("", "", None)
    else if libzfs_IsSnapshot dZFS then
      run llog (DebugSnapshotProperty prop name "") then
      let idx := strings.LastIndex (Value p) ":" in
      if idx <? 0 then
        run llog (WarnNotValueSource prop name) then
        lret ("", "", None)
      else
        let value := strings.sliceTo (Value p) (Z.to_nat idx) in
        let source := strings.sliceFrom (Value p) (Z.to_nat (idx + 1)) in
        lret (value, sanitizeSource source, None)
    else
      let value := Value p in
      let source := Source p in
      run llog (DebugDatasetProperty prop name value source) then
      lret (value, sanitizeSource source, None)
  end.

(** [RefreshProperties]: on success the dataset's [DatasetProp] is replaced
    as a whole; on error the dataset is returned as it was. *)
Definition RefreshProperties (d : Dataset) (dZFS : libzfsDataset)
  : logged (Dataset * option error) :=
  let name := Value (prop_at (Properties dZFS) DatasetPropName) in
  (* mount properties: frozen user properties on snapshots, native otherwise *)
  let* r :=
    (if IsSnapshot d then
       let* (mountpoint, sourceMountPoint, err) :=
         getUserPropertyFromSys SnapshotMountpointProp dZFS in
       run (match err with
            | Some e => llog (DebugNotZsysSnapshot name SnapshotMountpointProp e)
            | None => lret tt
            end) then
       let* (canMount, sourceCanMount, err) :=
         getUserPropertyFromSys SnapshotCanmountProp dZFS in
       run (match err with
            | Some e => llog (DebugNotZsysSnapshot name SnapshotCanmountProp e)
            | None => lret tt
            end) then
       lret (inr (false, mountpoint, canMount, sourceMountPoint, sourceCanMount))
     else
       let mp := prop_at (Properties dZFS) DatasetPropMountpoint in
       let '(p, err) := GetPool dZFS in
       match err with
       | Some e => lret (inl (ErrCantGetPool e))
       | None =>
         let poolRoot := Value (prop_at (PoolProperties p) PoolPropAltroot) in
         let mountpoint := strings.TrimPrefix (Value mp) poolRoot in
         let mountpoint := if String.eqb mountpoint "" then "/" else mountpoint in
         let cm := prop_at (Properties dZFS) DatasetPropCanmount in
         let mountedp := prop_at (Properties dZFS) DatasetPropMounted in
         lret (inr (String.eqb (Value mountedp) "yes", mountpoint, Value cm,
                    Source mp, Source cm))
       end) in
  match r with
  | inl e => lret (d, Some e)
  | inr (mounted, mountpoint, canMount, sourceMountPoint, sourceCanMount) =>
    let srcMountpoint :=
      if String.eqb sourceMountPoint "local" then "local"
      else if String.eqb sourceMountPoint "default" then ""
      else "inherited" in
    let* srcCanMount :=
      (if String.eqb sourceCanMount "local" then lret "local"
       else if String.eqb sourceCanMount "default" then lret ""
       else
         (* this shouldn't happen on non snapshot *)
         run (if negb (IsSnapshot d)
              then llog (WarnCanMountSource name sourceCanMount)
              else lret tt) then
         lret "") in
    let origin := Value (prop_at (Properties dZFS) DatasetPropOrigin) in
    let* (bfs, srcBootFS, err) := getUserPropertyFromSys BootfsProp dZFS in
    match err with
    | Some e => lret (d, Some e)
    | None =>
      let bootFS := String.eqb bfs "yes" in
      let* (lu, srcLastUsed, err) :=
        (if negb (IsSnapshot d) then getUserPropertyFromSys LastUsedProp dZFS
         else lret (Value (prop_at (Properties dZFS) DatasetPropCreation), "", None)) in
      match err with
      | Some e => lret (d, Some e)
      | None =>
        let lu := if String.eqb lu "" then "0" else lu in
        match strconv.Atoi lu with
        | None => lret (d, Some (ErrNotAnInt LastUsedProp))
        | Some lastUsed =>
          let* (lastBootedKernel, srcLastBootedKernel, err) :=
            getUserPropertyFromSys LastBootedKernelProp dZFS in
          match err with
          | Some e => lret (d, Some e)
          | None =>
            let* (bootfsDatasets, srcBootfsDatasets, err) :=
              getUserPropertyFromSys BootfsDatasetsProp dZFS in
            match err with
            | Some e => lret (d, Some e)
            | None =>
              lret (with_props d
                      (mkDatasetProp mountpoint canMount mounted bootFS lastUsed
                         lastBootedKernel bootfsDatasets origin
                         (sources.mk srcMountpoint srcCanMount srcBootFS
                            srcLastUsed srcLastBootedKernel srcBootfsDatasets)),
                    None)
            end
          end
        end
      end
    end
  end.

(** ** TreeBuilder *)

(** A [libzfs.Dataset] as a scan returns it: the handle with, in
    [Children], the native datasets below it. *)
#[warning="-register-all"] Inductive nativeDataset := mkNative {
  handle : libzfsDataset;
  Children : list nativeDataset
}.

Inductive scanError :=
  | ErrCouldntRefresh (name : string) (cause : error)
  | ErrCouldntScan (cause : scanError).

Inductive scanLog :=
  | DebugNewDataset (name : string)
  | Refreshing (entry : logEntry).

(** What [newDatasetTree] returns: [(nil, nil)] for a dataset that is
    skipped, the node, or the error. *)
Inductive scanResult :=
  | Skipped
  | Built (node : Dataset)
  | Failed (err : scanError).

(** The loop of [newDatasetTree] over [dZFS.Children]: [scan] is the
    recursive call; the registry is the one both write to. *)
Definition scanChildren
    (scan : nativeDataset -> gmap string Dataset ->
            list scanLog * (gmap string Dataset * scanResult))
  : list nativeDataset -> gmap string Dataset -> list Dataset ->
    list scanLog * (gmap string Dataset * (list Dataset + scanError)) :=
  fix loop (l : list nativeDataset) (allDatasets : gmap string Dataset)
      (children : list Dataset) {struct l} :=
    match l with
    | [] => ([], (allDatasets, inl children))
    | n :: l' =>
      let '(log, (allDatasets, r)) := scan n allDatasets in
      match r with
      | Failed err => (log, (allDatasets, inr (ErrCouldntScan err)))
      | Skipped =>
        let '(log', res) := loop l' allDatasets children in (log ++ log', res)
      | Built c =>
        let '(log', res) := loop l' allDatasets (children ++ [c]) in (log ++ log', res)
      end
    end.

(** [newDatasetTree]: the log, the registry [allDatasets] after the call,
    and the result. The registry holds the nodes by name; a node is entered
    once its children are attached and is not written to afterwards. *)
Fixpoint newDatasetTree (dZFS : nativeDataset) (allDatasets : gmap string Dataset)
    {struct dZFS} : list scanLog * (gmap string Dataset * scanResult) :=
  match dZFS with
  | mkNative z cs =>
    (* Skip non file system or snapshot datasets *)
    match Type_ z with
    | DatasetTypeVolume | DatasetTypeBookmark => ([], (allDatasets, Skipped))
    | _ =>
      let name := Value (prop_at (Properties z) DatasetPropName) in
      let node :=
        mkDataset name (libzfs_IsSnapshot z)
          (mkDatasetProp "" "" false false 0 "" "" "" sources.zero) z [] in
      let '(rlog, (node, err)) := RefreshProperties node z in
      let log := DebugNewDataset name :: map Refreshing rlog in
      match err with
      | Some e => (log, (allDatasets, Failed (ErrCouldntRefresh (Name node) e)))
      | None =>
        let '(clog, (allDatasets, r)) := scanChildren newDatasetTree cs allDatasets [] in
        match r with
        | inr e => (log ++ clog, (allDatasets, Failed e))
        | inl children =>
          let node := with_children node children in
          (* Populate direct access map *)
          (log ++ clog, (<[Name node := node]> allDatasets, Built node))
        end
      end
    end
  end.

(** ** IntegrityChecker *)

(** [splitSnapshotName] returns base and trailing names. *)
Definition splitSnapshotName (name : string) : string * string :=
  let i := strings.LastIndex name "@" in
  if i <? 0 then (name, "")
  else (strings.sliceTo name (Z.to_nat i), strings.sliceFrom name (Z.to_nat (i + 1))).

Definition hasSnapshotNamed (dname snapshotName : string) (cs : list Dataset) : bool :=
  existsb (fun cd => String.eqb (Name cd) (dname +:+ "@" +:+ snapshotName)) cs.

(** [checkSnapshotHierarchyIntegrity]: [None] is Go's [nil] error. *)
Fixpoint checkSnapshotHierarchyIntegrity (d : Dataset) (snapshotName : string)
    (snapshotOnParent : bool) {struct d} : option error :=
  match d with
  | mkDataset dname _ _ _ cs =>
    let found := hasSnapshotNamed dname snapshotName cs in
    if found && negb snapshotOnParent then
      Some (ErrSnapshotOnChildOnly dname snapshotName (dname +:+ "@" +:+ snapshotName))
    else
      (fix loop (l : list Dataset) : option error :=
         match l with
         | [] => None
         | cd :: l' =>
           if IsSnapshot cd then loop l'
           else match checkSnapshotHierarchyIntegrity cd snapshotName found with
                | Some err => Some err
                | None => loop l'
                end
         end) cs
  end.

(** Does [d] hold a child named [d@snapshotName]? (The value of [found] in
    a call on [d].) *)
Definition hasSnapshot (d : Dataset) (snapshotName : string) : bool :=
  hasSnapshotNamed (Name d) snapshotName (children d).

(** The second loop of [checkSnapshotHierarchyIntegrity], over the children
    [l] of a dataset whose [found] is given. *)
Fixpoint checkChildren (snapshotName : string) (found : bool) (l : list Dataset)
  : option error :=
  match l with
  | [] => None
  | cd :: l' =>
    if IsSnapshot cd then checkChildren snapshotName found l'
    else match checkSnapshotHierarchyIntegrity cd snapshotName found with
         | Some err => Some err
         | None => checkChildren snapshotName found l'
         end
  end.

Inductive cloneError :=
  | ErrCouldntScanClones (dataset : string)
  | ErrHasClones (dataset : string).

Section CheckNoClone.

(** [Clones] of the binding: the clones of a dataset and the error of the
    scan. *)
Variable Clones : libzfsDataset -> list string * option error.

(** The loop of [checkNoClone] over the children. *)
Definition checkNoCloneChildren (check : Dataset -> option cloneError)
  : list Dataset -> option cloneError :=
  fix loop (l : list Dataset) {struct l} :=
    match l with
    | [] => None
    | dc :: l' =>
      match check dc with
      | Some err => Some err
      | None => loop l'
      end
    end.

(** [checkNoClone] checks that the hierarchy has no clone. *)
Fixpoint checkNoClone (d : Dataset) {struct d} : option cloneError :=
  match d with
  | mkDataset name _ _ z cs =>
    let '(clones, err) := Clones z in
    match err with
    | Some _ => Some (ErrCouldntScanClones name)
    | None =>
      if (0 <? length clones)%nat then Some (ErrHasClones name)
      else checkNoCloneChildren checkNoClone cs
    end
  end.

End CheckNoClone.

(** ** PropertyMutator *)

Inductive panic :=
  | PanicUnsupportedProperty (name : propName)
  | PanicLastUsedNotAnInt
  | PanicNilDereference.

(** What a call does: it returns, or the goroutine panics. *)
Inductive outcome (A : Type) :=
  | Returned (a : A)
  | Panicked (p : panic).
Arguments Returned {A} a.
Arguments Panicked {A} p.

(** Field updates of [DatasetProp] and of its sources. *)
Definition set_Mountpoint (v : string) (p : DatasetProp) : DatasetProp :=
  mkDatasetProp v (CanMount p) (Mounted p) (BootFS p) (LastUsed p)
    (LastBootedKernel p) (BootfsDatasets p) (Origin p) (sources p).
Definition set_CanMount (v : string) (p : DatasetProp) : DatasetProp :=
  mkDatasetProp (Mountpoint p) v (Mounted p) (BootFS p) (LastUsed p)
    (LastBootedKernel p) (BootfsDatasets p) (Origin p) (sources p).
Definition set_BootFS (v : bool) (p : DatasetProp) : DatasetProp :=
  mkDatasetProp (Mountpoint p) (CanMount p) (Mounted p) v (LastUsed p)
    (LastBootedKernel p) (BootfsDatasets p) (Origin p) (sources p).
Definition set_LastUsed (v : Z) (p : DatasetProp) : DatasetProp :=
  mkDatasetProp (Mountpoint p) (CanMount p) (Mounted p) (BootFS p) v
    (LastBootedKernel p) (BootfsDatasets p) (Origin p) (sources p).
Definition set_LastBootedKernel (v : string) (p : DatasetProp) : DatasetProp :=
  mkDatasetProp (Mountpoint p) (CanMount p) (Mounted p) (BootFS p) (LastUsed p)
    v (BootfsDatasets p) (Origin p) (sources p).
Definition set_BootfsDatasets (v : string) (p : DatasetProp) : DatasetProp :=
  mkDatasetProp (Mountpoint p) (CanMount p) (Mounted p) (BootFS p) (LastUsed p)
    (LastBootedKernel p) v (Origin p) (sources p).
Definition set_Origin (v : string) (p : DatasetProp) : DatasetProp :=
  mkDatasetProp (Mountpoint p) (CanMount p) (Mounted p) (BootFS p) (LastUsed p)
    (LastBootedKernel p) (BootfsDatasets p) v (sources p).
Definition set_sources (v : sources.datasetSources) (p : DatasetProp) : DatasetProp :=
  mkDatasetProp (Mountpoint p) (CanMount p) (Mounted p) (BootFS p) (LastUsed p)
    (LastBootedKernel p) (BootfsDatasets p) (Origin p) v.

(** The two pointers [stringToProp] hands out: into a field of the dataset,
    or (for the properties that are not strings) to a fresh local string. *)
Inductive valueRef :=
  | RefCanMount
  | RefMountpoint
  | RefBootfsDatasets
  | RefLastBootedKernel
  | RefLocal (contents : string).

Inductive sourceRef :=
  | SrcCanMount
  | SrcMountpoint
  | SrcBootFS
  | SrcLastUsed
  | SrcBootfsDatasets
  | SrcLastBootedKernel.

Definition load (d : Dataset) (r : valueRef) : string :=
  match r with
  | RefCanMount => CanMount (props d)
  | RefMountpoint => Mountpoint (props d)
  | RefBootfsDatasets => BootfsDatasets (props d)
  | RefLastBootedKernel => LastBootedKernel (props d)
  | RefLocal s => s
  end.

(** [*r = v]: a write through a pointer to a local leaves the dataset as it
    is and changes the local. *)
Definition store (d : Dataset) (r : valueRef) (v : string) : Dataset * valueRef :=
  match r with
  | RefCanMount => (with_props d (set_CanMount v (props d)), r)
  | RefMountpoint => (with_props d (set_Mountpoint v (props d)), r)
  | RefBootfsDatasets => (with_props d (set_BootfsDatasets v (props d)), r)
  | RefLastBootedKernel => (with_props d (set_LastBootedKernel v (props d)), r)
  | RefLocal _ => (d, RefLocal v)
  end.

Definition loadSource (d : Dataset) (r : sourceRef) : string :=
  let s := sources (props d) in
  match r with
  | SrcCanMount => sources.CanMount s
  | SrcMountpoint => sources.Mountpoint s
  | SrcBootFS => sources.BootFS s
  | SrcLastUsed => sources.LastUsed s
  | SrcBootfsDatasets => sources.BootfsDatasets s
  | SrcLastBootedKernel => sources.LastBootedKernel s
  end.

Definition storeSource (d : Dataset) (r : sourceRef) (v : string) : Dataset :=
  let s := sources (props d) in
  let s' :=
    match r with
    | SrcCanMount =>
        sources.mk (sources.Mountpoint s) v (sources.BootFS s) (sources.LastUsed s)
          (sources.LastBootedKernel s) (sources.BootfsDatasets s)
    | SrcMountpoint =>
        sources.mk v (sources.CanMount s) (sources.BootFS s) (sources.LastUsed s)
          (sources.LastBootedKernel s) (sources.BootfsDatasets s)
    | SrcBootFS =>
        sources.mk (sources.Mountpoint s) (sources.CanMount s) v (sources.LastUsed s)
          (sources.LastBootedKernel s) (sources.BootfsDatasets s)
    | SrcLastUsed =>
        sources.mk (sources.Mountpoint s) (sources.CanMount s) (sources.BootFS s) v
          (sources.LastBootedKernel s) (sources.BootfsDatasets s)
    | SrcBootfsDatasets =>
        sources.mk (sources.Mountpoint s) (sources.CanMount s) (sources.BootFS s)
          (sources.LastUsed s) (sources.LastBootedKernel s) v
    | SrcLastBootedKernel =>
        sources.mk (sources.Mountpoint s) (sources.CanMount s) (sources.BootFS s)
          (sources.LastUsed s) v (sources.BootfsDatasets s)
    end in
  with_props d (set_sources s' (props d)).

(** [stringToProp]: native property (or [PropZero]), user property, and the
    pointers to the value and to its simplified source. *)
Definition stringToProp (d : Dataset) (name : propName)
  : outcome (libzfsProp * propName * valueRef * sourceRef) :=
  match name with
  | CanmountProp =>
      if negb (IsSnapshot d)
      then Returned (DatasetPropCanmount, name, RefCanMount, SrcCanMount)
      else Returned (PropZero, SnapshotCanmountProp, RefCanMount, SrcCanMount)
  | SnapshotCanmountProp => Returned (PropZero, name, RefCanMount, SrcCanMount)
  | MountPointProp =>
      if negb (IsSnapshot d)
      then Returned (DatasetPropMountpoint, name, RefMountpoint, SrcMountpoint)
      else Returned (PropZero, SnapshotMountpointProp, RefMountpoint, SrcMountpoint)
  | SnapshotMountpointProp => Returned (PropZero, name, RefMountpoint, SrcMountpoint)
  | BootfsProp =>
      let bootfs := if negb (BootFS (props d)) then "no" else "yes" in
      Returned (PropZero, name, RefLocal bootfs, SrcBootFS)
  | LastUsedProp =>
      let lu := strconv.Itoa (LastUsed (props d)) in
      Returned (PropZero, name, RefLocal lu, SrcLastUsed)
  | BootfsDatasetsProp => Returned (PropZero, name, RefBootfsDatasets, SrcBootfsDatasets)
  | LastBootedKernelProp =>
      Returned (PropZero, name, RefLastBootedKernel, SrcLastBootedKernel)
  | OtherProp _ => Panicked (PanicUnsupportedProperty name)
  end.

(** [getPropertyFromName] *)
Definition getPropertyFromName (d : Dataset) (name : propName)
  : outcome (string * string) :=
  match stringToProp d name with
  | Returned (_, _, v, s) => Returned (load d v, loadSource d s)
  | Panicked p => Panicked p
  end.

(** The test of [getInheritedChildren] on one child: is it sent down the
    channel (and descended into)? *)
Definition inheritsProperty (c : Dataset) (name : propName) : outcome bool :=
  match stringToProp c name with
  | Panicked p => Panicked p
  | Returned (np, _, _, destS) =>
      if IsSnapshot c then Returned false
      else if negb (String.eqb (loadSource c destS) "inherited")
              && negb (String.eqb (loadSource c destS) "" && bool_decide (np = PropZero))
      then Returned false
      else Returned true
  end.

(** The body of the receiving loop for one dataset [c] taken from the
    channel. [value] is the loop's view of the variable, which the
    [LastUsedProp] case may overwrite. (The line the loop prints on the
    standard output for each dataset is left out. The cache of native
    properties of a handle is a map that exists: the assignment into a nil
    map, on which Go panics, is not modelled; it is reached for canmount and
    the mountpoint only.) *)
Definition refreshChild (name : propName) (oldMountPoint value : string) (c : Dataset)
  : outcome (Dataset * string) :=
  match stringToProp c name with
  | Panicked p => Panicked p
  | Returned (np, _, destV, destS) =>
    let c :=
      if bool_decide (np ≠ PropZero) then
        with_dZFS c
          (mkLibzfsDataset (Type_ (dZFS c))
             (<[np := mkProperty value (Source (prop_at (Properties (dZFS c)) np))]>
                (Properties (dZFS c)))
             (GetUserProperty (dZFS c)) (GetPool (dZFS c)))
      else c in
    let r :=
      match name with
      | BootfsProp =>
          Returned (with_props c (set_BootFS (String.eqb value "yes") (props c)), value)
      | LastUsedProp =>
          let value := if String.eqb value "" then "0" else value in
          match strconv.Atoi value with
          | None => Panicked PanicLastUsedNotAnInt
          | Some lastUsed => Returned (with_props c (set_LastUsed lastUsed (props c)), value)
          end
      | MountPointProp =>
          Returned
            (fst (store c destV
                    (filepath.Join value (strings.TrimPrefix (load c destV) oldMountPoint))),
             value)
      | _ => Returned (fst (store c destV value), value)
      end in
    match r with
    | Panicked p => Panicked p
    | Returned (c, value) => Returned (storeSource c destS "inherited", value)
    end
  end.

Section Cascade.

Variable name : propName.
Variable oldMountPoint : string.

(** One level of [getInheritedChildren]: the children that inherit are
    handed over and descended into, in order; the others are skipped with
    everything below them. [node] is what happens to a child that is
    handed over. *)
Definition cascadeList (node : string -> Dataset -> outcome (Dataset * string))
  : string -> list Dataset -> outcome (list Dataset * string) :=
  fix loop (value : string) (l : list Dataset) {struct l} :=
    match l with
    | [] => Returned ([], value)
    | c :: l' =>
      match inheritsProperty c name with
      | Panicked p => Panicked p
      | Returned false =>
        match loop value l' with
        | Panicked p => Panicked p
        | Returned (l'', value) => Returned (c :: l'', value)
        end
      | Returned true =>
        match node value c with
        | Panicked p => Panicked p
        | Returned (c', value) =>
          match loop value l' with
          | Panicked p => Panicked p
          | Returned (l'', value) => Returned (c' :: l'', value)
          end
        end
      end
    end.

(** A dataset taken from the channel is refreshed; the producer meanwhile
    goes on into its children. The channel is unbuffered and the producer
    reads of a dataset only what the consumer leaves alone after the
    hand-over (the list of children), so the run is the depth-first,
    parent-first one. *)
Fixpoint cascade (value : string) (c : Dataset) {struct c}
  : outcome (Dataset * string) :=
  match c with
  | mkDataset _ _ _ _ cs =>
    match refreshChild name oldMountPoint value c with
    | Panicked p => Panicked p
    | Returned (c1, value) =>
      match cascadeList cascade value cs with
      | Panicked p => Panicked p
      | Returned (cs', value) => Returned (with_children c1 cs', value)
      end
    end
  end.

End Cascade.

Section SetProperty.

(** The two write calls of the binding: what they leave in the handle and
    the error they return. *)
Variable SetProperty : libzfsDataset -> libzfsProp -> string -> libzfsDataset * option error.
Variable SetUserProperty : libzfsDataset -> propName -> string -> libzfsDataset * option error.

(** The write to the system, first step of [setProperty]. *)
Definition writeProperty (d : Dataset) (np : libzfsProp) (up : propName)
    (value source : string) : libzfsDataset * option error :=
  if bool_decide (np ≠ PropZero) then SetProperty (dZFS d) np value
  else
    (* value:source on snapshots, to retain the original state *)
    let v := if IsSnapshot d then value +:+ ":" +:+ source else value in
    SetUserProperty (dZFS d) up v.

(** [setProperty]: the dataset after the call and the error returned. *)
Definition setProperty (d : Dataset) (name : propName) (value source : string)
  : outcome (Dataset * option error) :=
  match stringToProp d name with
  | Panicked p => Panicked p
  | Returned (np, up, destV, destS) =>
    let '(z, err) := writeProperty d np up value source in
    let d := with_dZFS d z in
    match err with
    | Some e => Returned (d, Some e)
    | None =>
      let refreshed : (Dataset * string) + error :=
        match name with
        | BootfsProp =>
            inl (with_props d (set_BootFS (String.eqb value "yes") (props d)), "")
        | LastUsedProp =>
            let '(d, destV) :=
              if String.eqb value "" then store d destV "0" else (d, destV) in
            match strconv.Atoi (load d destV) with
            | None => inr (ErrNotAnInt LastUsedProp)
            | Some lastUsed => inl (with_props d (set_LastUsed lastUsed (props d)), "")
            end
        | MountPointProp =>
            let oldMountPoint := load d destV in
            inl (fst (store d destV value), oldMountPoint)
        | _ => inl (fst (store d destV value), "")
        end in
      match refreshed with
      | inr e => Returned (d, Some e)
      | inl (d, oldMountPoint) =>
        let d := storeSource d destS source in
        match cascadeList name (cascade name oldMountPoint) value (children d) with
        | Panicked p => Panicked p
        | Returned (cs, _) => Returned (with_children d cs, None)
        end
      end
    end
  end.

End SetProperty.

(** The datasets [getInheritedChildren] sends down the channel, in order. *)
Fixpoint getInheritedChildren (name : propName) (d : Dataset) {struct d} : list Dataset :=
  match d with
  | mkDataset _ _ _ _ cs =>
    (fix loop (l : list Dataset) : list Dataset :=
       match l with
       | [] => []
       | c :: l' =>
         match inheritsProperty c name with
         | Returned true => c :: getInheritedChildren name c ++ loop l'
         | _ => loop l'
         end
       end) cs
  end.

Definition recognized (name : propName) : bool :=
  match name with OtherProp _ => false | _ => true end.

(** ** PromotionTransaction

    [inverseOrigin] moves dataset objects between two parents, renames them
    in place and compares them by identity, so here datasets are objects in
    a store, referred to by pointers; [children] holds pointers and the
    registry [allDatasets] maps names to pointers. Every statement reads
    the store as it is at that point, so two pointers to one object see
    each other's writes. *)

Module mem.

Definition ptr := nat.

Record Dataset := mkDataset {
  Name : string;
  IsSnapshot : bool;
  props : DatasetProp;
  children : list ptr
}.

Definition with_Name (d : Dataset) (n : string) : Dataset :=
  mkDataset n (IsSnapshot d) (props d) (children d).
Definition with_children (d : Dataset) (cs : list ptr) : Dataset :=
  mkDataset (Name d) (IsSnapshot d) (props d) cs.
Definition with_Origin (d : Dataset) (o : string) : Dataset :=
  mkDataset (Name d) (IsSnapshot d) (set_Origin o (props d)) (children d).

(** The [Zfs] object of a transaction: the dataset objects and the
    registry. *)
Record Zfs := mkZfs {
  heap : gmap ptr Dataset;
  allDatasets : gmap string ptr
}.

(** Reading through a pointer; a pointer to nothing is Go's nil. *)
Definition deref (z : Zfs) (p : ptr) : outcome Dataset :=
  match heap z !! p with
  | Some d => Returned d
  | None => Panicked PanicNilDereference
  end.

Definition update (z : Zfs) (p : ptr) (d : Dataset) : Zfs :=
  mkZfs (<[p := d]> (heap z)) (allDatasets z).

(** Modelled from the spec: [findDatasetByName] is declared outside
    helpers.go; it resolves a name through the registry and fails when the
    name is absent. *)
Definition findDatasetByName (z : Zfs) (path : string) : ptr + error :=
  match allDatasets z !! path with
  | Some d => inl d
  | None => inr (ErrNotInCache path)
  end.

(** The snapshots to migrate: the snapshot children not used after the
    base snapshot. *)
Fixpoint snapshotsToMigrate (z : Zfs) (baseSnapshot : ptr) (cs : list ptr)
  : outcome (list ptr) :=
  match cs with
  | [] => Returned []
  | c :: cs' =>
    match deref z c with
    | Panicked p => Panicked p
    | Returned cd =>
      if negb (IsSnapshot cd) then snapshotsToMigrate z baseSnapshot cs'
      else
        match deref z baseSnapshot with
        | Panicked p => Panicked p
        | Returned b =>
          if LastUsed (props cd) >? LastUsed (props b)
          then snapshotsToMigrate z baseSnapshot cs'
          else
            match snapshotsToMigrate z baseSnapshot cs' with
            | Panicked p => Panicked p
            | Returned l => Returned (c :: l)
            end
        end
    end
  end.

(** [j := -1; for j = range children { if children[j] == s { break } }]:
    the value of [j] after the loop. *)
Fixpoint findChildFrom (i j : Z) (cs : list ptr) (s : ptr) : Z :=
  match cs with
  | [] => j
  | c :: cs' => if Nat.eqb c s then i else findChildFrom (i + 1) i cs' s
  end.

Definition findChild (cs : list ptr) (s : ptr) : Z := findChildFrom 0 (-1) cs s.

(** Find and remove child from demoted dataset: [None] is the
    "cannot find old snapshot" error. *)
Definition removeChild (cs : list ptr) (s : ptr) : option (list ptr) :=
  let j := findChild cs s in
  if j <? 0 then None
  else Some (take (Z.to_nat j) cs ++ drop (Z.to_nat (j + 1)) cs).

(** One round of the migration loop, for the snapshot [s]. *)
Definition migrateSnapshot (oldOrigDataset newOrigDataset : ptr) (z : Zfs) (s : ptr)
  : outcome (Zfs * option error) :=
  match deref z s with
  | Panicked p => Panicked p
  | Returned sd =>
    let oldName := Name sd in
    let n := snd (splitSnapshotName oldName) in
    match deref z newOrigDataset with
    | Panicked p => Panicked p
    | Returned nd =>
      let z := update z s (with_Name sd (Name nd +:+ "@" +:+ n)) in
      (* Add new child to promoted dataset *)
      match deref z newOrigDataset with
      | Panicked p => Panicked p
      | Returned nd =>
        let z := update z newOrigDataset (with_children nd (children nd ++ [s])) in
        match deref z oldOrigDataset with
        | Panicked p => Panicked p
        | Returned od =>
          match removeChild (children od) s with
          | None => Returned (z, Some (ErrCannotFindOldSnapshot oldName (Name od)))
          | Some cs =>
            let z := update z oldOrigDataset (with_children od cs) in
            (* Refresh our global map *)
            match deref z s with
            | Panicked p => Panicked p
            | Returned sd =>
              Returned (mkZfs (heap z)
                          (delete oldName (<[Name sd := s]> (allDatasets z))),
                        None)
            end
          end
        end
      end
    end
  end.

Fixpoint migrate (oldOrigDataset newOrigDataset : ptr) (z : Zfs) (l : list ptr)
  : outcome (Zfs * option error) :=
  match l with
  | [] => Returned (z, None)
  | s :: l' =>
    match migrateSnapshot oldOrigDataset newOrigDataset z s with
    | Panicked p => Panicked p
    | Returned (z, Some e) => Returned (z, Some e)
    | Returned (z, None) => migrate oldOrigDataset newOrigDataset z l'
    end
  end.

(** [inverseOrigin]: the transaction's [Zfs] after the call and the error
    returned. *)
Definition inverseOrigin (z : Zfs) (oldOrigDataset newOrigDataset : ptr)
  : outcome (Zfs * option error) :=
  match deref z newOrigDataset with
  | Panicked p => Panicked p
  | Returned nd =>
    match findDatasetByName z (Origin (props nd)) with
    | inr err => Returned (z, Some (ErrCannotFindBaseSnapshot (Origin (props nd)) err))
    | inl baseSnapshot =>
      match deref z oldOrigDataset with
      | Panicked p => Panicked p
      | Returned od =>
        match snapshotsToMigrate z baseSnapshot (children od) with
        | Panicked p => Panicked p
        | Returned l =>
          match migrate oldOrigDataset newOrigDataset z l with
          | Panicked p => Panicked p
          | Returned (z, Some e) => Returned (z, Some e)
          | Returned (z, None) =>
            match deref z baseSnapshot, deref z oldOrigDataset with
            | Returned b, Returned od =>
              let z := update z oldOrigDataset (with_Origin od (Name b)) in
              match deref z newOrigDataset with
              | Panicked p => Panicked p
              | Returned nd => Returned (update z newOrigDataset (with_Origin nd ""), None)
              end
            | Panicked p, _ | _, Panicked p => Panicked p
            end
          end
        end
      end
    end
  end.

End mem.

(** * Vocabulary of the statements and example trees *)

(** A snapshot handle whose user properties all read as [p]. *)
Definition snapshotHandle (name : string) (p : Property) : libzfsDataset :=
  mkLibzfsDataset DatasetTypeSnapshot
    {[ DatasetPropName := mkProperty name "-" ]}
    (fun _ => (p, None)) (mkPool ∅, None).

(** A file system handle with the given mountpoint and canmount records and
    no user property set. *)
Definition filesystemHandle (name : string) (mp cm : Property) : libzfsDataset :=
  mkLibzfsDataset DatasetTypeFilesystem
    {[ DatasetPropName := mkProperty name "-";
       DatasetPropMountpoint := mp;
       DatasetPropCanmount := cm ]}
    (fun _ => (mkProperty "-" "-", None)) (mkPool ∅, None).

Definition zeroProp : DatasetProp :=
  mkDatasetProp "" "" false false 0 "" "" "" sources.zero.

Definition freshDataset (name : string) (snapshot : bool) (z : libzfsDataset) : Dataset :=
  mkDataset name snapshot zeroProp z [].

Definition snapshotOf (d : string) (snap : string) : Dataset :=
  freshDataset (d +:+ "@" +:+ snap) true (snapshotHandle (d +:+ "@" +:+ snap) (mkProperty "-" "-")).

Definition filesystem (name : string) (cs : list Dataset) : Dataset :=
  mkDataset name false zeroProp
    (filesystemHandle name (mkProperty "/" "local") (mkProperty "on" "default")) cs.

(** The datasets [checkSnapshotHierarchyIntegrity] visits from [d] called
    with the flag [flag], each with the flag it is called with: the check
    does not go into snapshots, and hands down whether the dataset holds its
    snapshot. *)
Fixpoint visited (snapshotName : string) (d : Dataset) (flag : bool) {struct d}
  : list (Dataset * bool) :=
  match d with
  | mkDataset _ _ _ _ cs =>
    (d, flag)
    :: (fix go (l : list Dataset) : list (Dataset * bool) :=
          match l with
          | [] => []
          | c :: l' =>
            if IsSnapshot c then go l'
            else visited snapshotName c (hasSnapshot d snapshotName) ++ go l'
          end) cs
  end.

(** A visited dataset passes when it does not hold its snapshot or was
    called with the flag true. *)
Definition passes (snapshotName : string) (p : Dataset * bool) : Prop :=
  hasSnapshot (fst p) snapshotName = true -> snd p = true.

(** Two levels below [rpool]: only [rpool/A/B] holds its snapshot
    [@daily]; and the same below a root that holds [rpool@daily]. *)
Definition deepTree : Dataset :=
  filesystem "rpool"
    [ filesystem "rpool/A"
        [ filesystem "rpool/A/B" [snapshotOf "rpool/A/B" "daily"] ] ].
Definition deepTreeSeeded : Dataset :=
  filesystem "rpool"
    [ snapshotOf "rpool" "daily";
      filesystem "rpool/A"
        [ filesystem "rpool/A/B" [snapshotOf "rpool/A/B" "daily"] ];
      filesystem "rpool/C" [snapshotOf "rpool/C" "daily"; filesystem "rpool/C/D" []] ].

(** Writes that the system accepts, leaving the handle as it is, and writes
    that it rejects. *)
Definition writeOk {K : Type} (z : libzfsDataset) (_ : K) (_ : string)
  : libzfsDataset * option error := (z, None).
Definition writeFails {K : Type} (z : libzfsDataset) (_ : K) (_ : string)
  : libzfsDataset * option error := (z, Some (ErrBackend "permission denied")).

(** A file system with a mountpoint, the source of the mountpoint and a
    last-used time. *)
Definition mounted (name mountpoint source : string) (lastUsed : Z) (cs : list Dataset)
  : Dataset :=
  mkDataset name false
    (mkDatasetProp mountpoint "on" false false lastUsed "" "" ""
       (sources.mk source "" "" "" "" ""))
    (filesystemHandle name (mkProperty mountpoint source) (mkProperty "on" "default")) cs.

(** The chain root → A → B → C of the cascade example: B sets its
    mountpoint locally, C inherits it from B. *)
Definition chainC : Dataset := mounted "rpool/A/B/C" "/custom/C" "inherited" 7 [].
Definition chainB : Dataset := mounted "rpool/A/B" "/custom" "local" 7 [chainC].
Definition chainA : Dataset := mounted "rpool/A" "/old/A" "inherited" 7 [chainB].
Definition chainRoot : Dataset := mounted "rpool" "/old" "local" 7 [chainA].

(** The chain after [setProperty(root, mountpoint, "/new", "local")]. *)
Definition chainRootAfter : Dataset :=
  Eval vm_compute in
    match setProperty writeOk writeOk chainRoot MountPointProp "/new" "local" with
    | Returned (d, _) => d
    | Panicked _ => chainRoot
    end.

(** The datasets sent down the channel from the list of children [l]. *)
Fixpoint sentDown (name : propName) (l : list Dataset) : list Dataset :=
  match l with
  | [] => []
  | c :: l' =>
    match inheritsProperty c name with
    | Returned true => c :: getInheritedChildren name c ++ sentDown name l'
    | _ => sentDown name l'
    end
  end.

(** What the receiving loop makes of [value]: the [LastUsedProp] case
    replaces the empty string by "0". *)
Definition normValue (name : propName) (value : string) : string :=
  match name with
  | LastUsedProp => if String.eqb value "" then "0" else value
  | _ => value
  end.

(** A mountpoint that re-joining below [base] leaves as it is. *)
Definition stableBelow (base : string) (c : Dataset) : Prop :=
  filepath.Join base (strings.TrimPrefix (Mountpoint (props c)) base)
  = Mountpoint (props c).

(** The values the variable [value] of the receiving loop can hold when
    [setProperty] was called with [value]. *)
Definition sameValue (name : propName) (value v : string) : Prop :=
  v = value \/ v = normValue name value.

(** The text [RefreshProperties] parses for lastUsed: the creation time of a
    snapshot, the lastUsed user property of any other dataset, and "0" when
    that is empty. *)
Definition lastUsedText (d : Dataset) (dZFS : libzfsDataset) : string :=
  let lu :=
    if IsSnapshot d then Value (prop_at (Properties dZFS) DatasetPropCreation)
    else fst (fst (snd (getUserPropertyFromSys LastUsedProp dZFS))) in
  if String.eqb lu "" then "0" else lu.

(** A snapshot handle created at [creation], with no user property set and
    no pool to be found. *)
Definition bareSnapshot (name creation : string) : libzfsDataset :=
  mkLibzfsDataset DatasetTypeSnapshot
    {[ DatasetPropName := mkProperty name "-";
       DatasetPropCreation := mkProperty creation "-" ]}
    (fun _ => (mkProperty "-" "-", None))
    (mkPool ∅, Some (ErrBackend "no pool")).

(** A file system handle of a pool imported under the alternate root
    [altroot]. *)
Definition altrootHandle (name mountpoint altroot : string) : libzfsDataset :=
  mkLibzfsDataset DatasetTypeFilesystem
    {[ DatasetPropName := mkProperty name "-";
       DatasetPropMountpoint := mkProperty mountpoint "local";
       DatasetPropCanmount := mkProperty "on" "default";
       DatasetPropMounted := mkProperty "yes" "-" ]}
    (fun _ => (mkProperty "-" "-", None))
    (mkPool {[ PoolPropAltroot := mkProperty altroot "local" ]}, None).

(** The datasets of a tree, parent first. *)
Fixpoint subtree (d : Dataset) {struct d} : list Dataset :=
  match d with
  | mkDataset _ _ _ _ cs =>
    d :: (fix go (l : list Dataset) : list Dataset :=
            match l with
            | [] => []
            | c :: l' => subtree c ++ go l'
            end) cs
  end.

(** A dataset whose scan for clones succeeds and finds none. *)
Definition cloneFree (Clones : libzfsDataset -> list string * option error)
    (d : Dataset) : Prop :=
  snd (Clones (dZFS d)) = None /\ fst (Clones (dZFS d)) = [].

(** A scan for clones that finds the clone [rpool/clone] on the snapshot
    [rpool/A@daily] and nothing elsewhere. *)
Definition clonesOfDaily (z : libzfsDataset) : list string * option error :=
  if String.eqb (Value (prop_at (Properties z) DatasetPropName)) "rpool/A@daily"
  then (["rpool/clone"], None) else ([], None).

(** The first dataset of the tree that is not free of clones, and the error
    that [checkNoClone] returns for it. *)
Definition offender (Clones : libzfsDataset -> list string * option error)
    (d : Dataset) (err : cloneError) : Prop :=
  exists pre x post,
    subtree d = pre ++ x :: post
    /\ Forall (cloneFree Clones) pre
    /\ ((snd (Clones (dZFS x)) <> None /\ err = ErrCouldntScanClones (Name x))
        \/ (snd (Clones (dZFS x)) = None /\ fst (Clones (dZFS x)) <> []
            /\ err = ErrHasClones (Name x))).

(** The name a handle carries in its cache of native properties. *)
Definition nameOf (z : libzfsDataset) : string :=
  Value (prop_at (Properties z) DatasetPropName).

(** The handles [newDatasetTree] scans from a native dataset, parent first:
    it does not go below a volume or a bookmark. *)
Fixpoint kept (n : nativeDataset) {struct n} : list libzfsDataset :=
  match n with
  | mkNative z cs =>
    match Type_ z with
    | DatasetTypeVolume | DatasetTypeBookmark => []
    | _ =>
      z :: (fix go (l : list nativeDataset) : list libzfsDataset :=
              match l with
              | [] => []
              | c :: l' => kept c ++ go l'
              end) cs
    end
  end.

(** The children [xs] mirror the native children [l]: they are as many as
    the native children that are no volume and no bookmark, and each mirrors
    its native child, in order. *)
Definition mirrorsChildren (mirrors : nativeDataset -> Dataset -> Prop)
  : list nativeDataset -> list Dataset -> Prop :=
  fix go (l : list nativeDataset) (xs : list Dataset) {struct l} : Prop :=
    match l with
    | [] => xs = []
    | c :: l' =>
      match Type_ (handle c) with
      | DatasetTypeVolume | DatasetTypeBookmark => go l' xs
      | _ =>
        match xs with
        | [] => False
        | y :: xs' => mirrors c y /\ go l' xs'
        end
      end
    end.

(** The tree of [x] mirrors the native tree of [n], volumes and bookmarks
    and all below them left out: [x] carries the handle of [n], and its
    children mirror the native children of [n]. *)
Fixpoint mirrors (n : nativeDataset) (x : Dataset) {struct n} : Prop :=
  match n with
  | mkNative z cs => dZFS x = z /\ mirrorsChildren mirrors cs (children x)
  end.

(** What [RefreshProperties] makes of the node that [newDatasetTree] creates
    for the handle [z], and the error it returns. *)
Definition scanned (z : libzfsDataset) : Dataset * option error :=
  snd (RefreshProperties (freshDataset (nameOf z) (libzfs_IsSnapshot z) z) z).

(** The dataset and the error at the bottom of a scan error. *)
Fixpoint rootCause (e : scanError) : string * error :=
  match e with
  | ErrCouldntRefresh name cause => (name, cause)
  | ErrCouldntScan e' => rootCause e'
  end.

(** The registry [reg'] is [reg] with the datasets of [l] put under their
    names: the other names are as in [reg], and the name of a dataset of [l]
    leads to a dataset of [l] of that name. *)
Definition registers (reg reg' : gmap string Dataset) (l : list Dataset) : Prop :=
  (forall k, k ∉ (Name <$> l) -> reg' !! k = reg !! k)
  /\ (forall x, x ∈ l -> exists y, y ∈ l /\ Name y = Name x /\ reg' !! Name x = Some y).

(** A node as [newDatasetTree] leaves it: its refresh succeeded, and but for
    its children it is what the refresh made of the new node. *)
Definition builtNode (x : Dataset) : Prop :=
  snd (scanned (dZFS x)) = None /\ with_children x [] = fst (scanned (dZFS x)).

(** The first handle of [l] whose refresh fails, with its error. *)
Definition firstFailure (l : list libzfsDataset) (err : scanError) : Prop :=
  exists pre z post e,
    l = pre ++ z :: post
    /\ Forall (fun z => snd (scanned z) = None) pre
    /\ snd (scanned z) = Some e
    /\ rootCause err = (nameOf z, e).

(** A pool with the file system [rpool/ROOT] and its snapshot, and the
    volume [rpool/vol] with a snapshot of its own. *)
Definition poolHandle (name : string) : libzfsDataset :=
  altrootHandle name "/" "".
Definition volumeHandle (name : string) : libzfsDataset :=
  mkLibzfsDataset DatasetTypeVolume
    {[ DatasetPropName := mkProperty name "-" ]}
    (fun _ => (mkProperty "-" "-", None)) (mkPool ∅, None).
Definition examplePool : nativeDataset :=
  mkNative (poolHandle "rpool")
    [ mkNative (poolHandle "rpool/ROOT")
        [ mkNative (bareSnapshot "rpool/ROOT@s1" "1600000000") [] ];
      mkNative (volumeHandle "rpool/vol")
        [ mkNative (bareSnapshot "rpool/vol@s1" "1600000000") [] ] ].

(** The tree built from [examplePool]. *)
Definition exampleTree : Dataset :=
  Eval vm_compute in
    match snd (snd (newDatasetTree examplePool ∅)) with
    | Built node => node
    | _ => freshDataset "" false (poolHandle "")
    end.

(** The same pool, where the creation time of the snapshot of [rpool/ROOT]
    cannot be read as a number. *)
Definition brokenPool : nativeDataset :=
  mkNative (poolHandle "rpool")
    [ mkNative (volumeHandle "rpool/vol") [];
      mkNative (poolHandle "rpool/ROOT")
        [ mkNative (bareSnapshot "rpool/ROOT@s1" "yesterday") [] ];
      mkNative (poolHandle "rpool/USERDATA") [] ].

(** What a scan returns, for each of its three results. *)
Definition scanSpec (n : nativeDataset) (reg : gmap string Dataset)
    (r : gmap string Dataset * scanResult) : Prop :=
  match snd r with
  | Skipped => kept n = [] /\ fst r = reg
  | Built node =>
    mirrors n node
    /\ dZFS <$> subtree node = kept n
    /\ Forall builtNode (subtree node)
    /\ Forall (fun z => snd (scanned z) = None) (kept n)
    /\ registers reg (fst r) (subtree node)
  | Failed err => firstFailure (kept n) err
  end.

(** What no [setProperty] changes of a dataset: its name, its kind, the
    number of its children, its origin and whether it is mounted. *)
Definition identity (x : Dataset) : string * bool * nat * string * bool :=
  (Name x, IsSnapshot x, length (children x), Origin (props x), Mounted (props x)).

(** The field of the sources that goes with a property name. *)
Definition sourceOf (x : Dataset) (name : propName) : option sourceRef :=
  match stringToProp x name with
  | Returned (_, _, _, destS) => Some destS
  | Panicked _ => None
  end.

(** The native property that goes with a property name on the dataset. *)
Definition nativeOf (x : Dataset) (name : propName) : libzfsProp :=
  match stringToProp x name with
  | Returned (np, _, _, _) => np
  | Panicked _ => PropZero
  end.

(** [x'] is [x] after the receiving loop of [setProperty name value] took
    it from the channel, whatever became of its children. *)
Definition refreshedFrom (name : propName) (value old : string) (x x' : Dataset) : Prop :=
  inheritsProperty x name = Returned true
  /\ length (children x') = length (children x)
  /\ exists v v',
       sameValue name value v
       /\ refreshChild name old v x = Returned (with_children x' (children x), v').

(** [x'] is [x] after a [setProperty name value] higher up: left alone, or
    taken from the channel. *)
Definition stepped (name : propName) (value old : string) (x x' : Dataset) : Prop :=
  x' = x \/ refreshedFrom name value old x x'.

(** What reading [name] back gives after [value] was set: bootfs is kept as
    a boolean. *)
Definition shown (name : propName) (value : string) : string :=
  match name with
  | BootfsProp => if String.eqb value "yes" then "yes" else "no"
  | _ => value
  end.

(** What a [setProperty name] leaves of a dataset: its identity, and what
    the properties kept in other fields read. *)
Definition framed (name : propName) (x x' : Dataset) : Prop :=
  identity x' = identity x
  /\ forall name2 : propName,
       sourceOf x name2 <> None ->
       sourceOf x name2 <> sourceOf x name ->
       getPropertyFromName x' name2 = getPropertyFromName x name2.

(** The dataset a call left, or [d] when the call panicked. *)
Definition after (o : outcome (Dataset * option error)) (d : Dataset) : Dataset :=
  match o with
  | Returned (d', _) => d'
  | Panicked _ => d
  end.

(** A pool where [rpool/A] and, below it, [rpool/A/B] inherit canmount from
    the pool, while [rpool/C] sets its own, with [rpool/C/D] inheriting
    that. *)
Definition canmountDataset (name source : string) (cs : list Dataset) : Dataset :=
  mkDataset name false
    (mkDatasetProp "/" "on" false false 7 "" "" ""
       (sources.mk "local" source "" "" "" ""))
    (filesystemHandle name (mkProperty "/" "local") (mkProperty "on" source)) cs.
Definition canmountPool : Dataset :=
  canmountDataset "rpool" "local"
    [ canmountDataset "rpool/A" "inherited" [canmountDataset "rpool/A/B" "inherited" []];
      canmountDataset "rpool/C" "local" [canmountDataset "rpool/C/D" "inherited" []] ].

(** What the system answers to the read of a user property through a
    handle, as [getUserPropertyFromSys] returns it. *)
Definition readValue (name : propName) (z : libzfsDataset) : string :=
  fst (fst (snd (getUserPropertyFromSys name z))).
Definition readSource (name : propName) (z : libzfsDataset) : string :=
  snd (fst (snd (getUserPropertyFromSys name z))).

(** A file system handle whose user properties are all set locally to
    [value]. *)
Definition taggedHandle (name value : string) : libzfsDataset :=
  mkLibzfsDataset DatasetTypeFilesystem
    {[ DatasetPropName := mkProperty name "-";
       DatasetPropMountpoint := mkProperty "/" "local";
       DatasetPropCanmount := mkProperty "on" "default" ]}
    (fun _ => (mkProperty value "local", None))
    (mkPool ∅, None).

(** A system that keeps the user properties written through a handle: a
    read through the handle it hands back gives the value written, set
    locally. *)
Definition keepUser (z : libzfsDataset) (up : propName) (v : string)
  : libzfsDataset * option error :=
  (mkLibzfsDataset (Type_ z) (Properties z)
     (fun q => if decide (q = up) then (mkProperty v "local", None)
               else GetUserProperty z q)
     (GetPool z), None).

(** The user property a snapshot keeps a property under. *)
Definition snapshotPropName (name : propName) : propName :=
  match name with
  | CanmountProp => SnapshotCanmountProp
  | MountPointProp => SnapshotMountpointProp
  | _ => name
  end.

Module memspec.
Import mem.

(** Does the child [c] migrate: is it a snapshot last used no later than
    the base snapshot [bd]? *)
Definition migrates (z : Zfs) (bd : Dataset) (c : ptr) : bool :=
  match heap z !! c with
  | Some cd => IsSnapshot cd && (LastUsed (props cd) <=? LastUsed (props bd))
  | None => false
  end.

(** The name of [c] once it has moved below the dataset [nd]. *)
Definition migratedName (nd cd : Dataset) : string :=
  Name nd +:+ "@" +:+ snd (splitSnapshotName (Name cd)).

(** The registry after the snapshots [l] have been entered under their new
    names and removed under their old ones, one after the other. *)
Definition registryAfter (old new : ptr -> string) (r : gmap string ptr) (l : list ptr)
  : gmap string ptr :=
  foldl (fun r s => delete (old s) (<[new s := s]> r)) r l.

Definition nameIn (z : Zfs) (c : ptr) : string :=
  match heap z !! c with Some cd => Name cd | None => "" end.

Definition newNameIn (z : Zfs) (nd : Dataset) (c : ptr) : string :=
  match heap z !! c with Some cd => migratedName nd cd | None => "" end.
End memspec.

Module promotion.
Import mem.

Definition snapshotProp (lastUsed : Z) : DatasetProp :=
  mkDatasetProp "" "" false false lastUsed "" "" "" sources.zero.

Definition cloneProp (origin : string) : DatasetProp :=
  mkDatasetProp "/" "on" false false 50 "" "" origin sources.zero.

(** The promotion example: [base] with the snapshots [base@1] (last used
    at 10), [base@2] (30) and [base@3] (40), and [clone], cloned from
    [base@2]. Pointers: 0 is [base], 1 is [clone], 2, 3 and 4 are the
    snapshots. *)
Definition before : Zfs :=
  mkZfs
    (list_to_map
       [(0%nat, mkDataset "base" false (cloneProp "") [2; 3; 4]%nat);
        (1%nat, mkDataset "clone" false (cloneProp "base@2") []);
        (2%nat, mkDataset "base@1" true (snapshotProp 10) []);
        (3%nat, mkDataset "base@2" true (snapshotProp 30) []);
        (4%nat, mkDataset "base@3" true (snapshotProp 40) [])])
    (list_to_map
       [("base", 0%nat); ("clone", 1%nat); ("base@1", 2%nat);
        ("base@2", 3%nat); ("base@3", 4%nat)]).
End promotion.

Module memframe.
Import mem.

(** What the migration of the snapshots [movers] from [o] to [n] keeps
    from the store [z] to the store [z1]: it makes no object and drops
    none; an object keeps its kind and its properties, its name unless it
    is one of the snapshots, and its children unless it is [o] or [n]; the
    registry gets no new entry but for the snapshots. *)
Definition carried (o n : ptr) (movers : list ptr) (z z1 : Zfs) : Prop :=
  (forall p, heap z !! p = None -> heap z1 !! p = None)
  /\ (forall p d, heap z !! p = Some d ->
        exists d', heap z1 !! p = Some d'
          /\ IsSnapshot d' = IsSnapshot d
          /\ props d' = props d
          /\ (p ∉ movers -> Name d' = Name d)
          /\ (p ≠ o -> p ≠ n -> children d' = children d))
  /\ (forall k p, allDatasets z1 !! k = Some p ->
        allDatasets z !! k = Some p \/ p ∈ movers).
End memframe.

(** * Properties *)

(** ** Strings and numbers *)

Lemma append_nil_l (s : string) : "" +:+ s = s.
Proof. reflexivity. Qed.

Lemma append_cons (a : ascii) (s1 s2 : string) :
  String a s1 +:+ s2 = String a (s1 +:+ s2).
Proof. reflexivity. Qed.

Lemma append_assoc (a b c : string) : a +:+ b +:+ c = (a +:+ b) +:+ c.
Proof. induction a as [|x a IH]; [done|]. rewrite !append_cons. by f_equal. Qed.

Lemma length_append (a b : string) :
  String.length (a +:+ b) = (String.length a + String.length b)%nat.
Proof. induction a as [|x a IH]; [done|]. rewrite append_cons. simpl. lia. Qed.

Lemma prefix_byte (c a : ascii) (s : string) :
  String.prefix (String c EmptyString) (String a s) = Ascii.eqb a c.
Proof.
  simpl. destruct (Ascii.ascii_dec c a) as [->|Hne].
  - rewrite Ascii.eqb_refl. by destruct s.
  - symmetry. apply Ascii.eqb_neq. congruence.
Qed.

Lemma LastIndexFrom_absent (c : ascii) (s : string) (i : Z) :
  strings.ContainsRune s c = false ->
  strings.LastIndexFrom i s (String c EmptyString) = -1.
Proof.
  revert i. induction s as [|a s IH]; intros i H; [done|].
  cbn [strings.ContainsRune] in H. apply orb_false_iff in H as [Ha Hs].
  cbn [strings.LastIndexFrom]. rewrite (IH _ Hs), prefix_byte, Ha. done.
Qed.

Lemma LastIndexFrom_lower (c : ascii) (s : string) (i : Z) :
  strings.LastIndexFrom i s (String c EmptyString) = -1
  \/ i <= strings.LastIndexFrom i s (String c EmptyString).
Proof.
  revert i. induction s as [|a s IH]; intros i; [by left|].
  cbn [strings.LastIndexFrom]. rewrite prefix_byte.
  destruct (IH (i + 1)) as [->| Hle].
  - simpl. destruct (Ascii.eqb a c); [right; lia | by left].
  - destruct (0 <=? _) eqn:E; [right; lia|].
    destruct (Ascii.eqb a c); [right; lia | by left].
Qed.

Lemma LastIndexFrom_app (c : ascii) (s1 s2 : string) (i : Z) :
  0 <= i ->
  strings.ContainsRune s2 c = false ->
  strings.LastIndexFrom i (s1 +:+ String c s2) (String c EmptyString)
  = i + Z.of_nat (String.length s1).
Proof.
  intros Hi Hs2. revert i Hi. induction s1 as [|a s1 IH]; intros i Hi.
  - rewrite append_nil_l. cbn [strings.LastIndexFrom String.length].
    rewrite (LastIndexFrom_absent _ _ _ Hs2), prefix_byte, Ascii.eqb_refl.
    simpl. lia.
  - rewrite append_cons. cbn [strings.LastIndexFrom String.length].
    rewrite IH by lia.
    destruct (0 <=? _) eqn:E; [lia|]. apply Z.leb_gt in E. lia.
Qed.

Lemma LastIndex_absent (c : ascii) (s : string) :
  strings.ContainsRune s c = false ->
  strings.LastIndex s (String c EmptyString) = -1.
Proof. apply LastIndexFrom_absent. Qed.

Lemma LastIndex_app (c : ascii) (s1 s2 : string) :
  strings.ContainsRune s2 c = false ->
  strings.LastIndex (s1 +:+ String c s2) (String c EmptyString)
  = Z.of_nat (String.length s1).
Proof. intros H. unfold strings.LastIndex. by rewrite LastIndexFrom_app. Qed.

Lemma sliceTo_app (s1 s2 : string) :
  strings.sliceTo (s1 +:+ s2) (String.length s1) = s1.
Proof.
  induction s1 as [|a s1 IH]; [by destruct s2|].
  rewrite append_cons. simpl. by rewrite IH.
Qed.

Lemma sliceFrom_app (s1 s2 : string) :
  strings.sliceFrom (s1 +:+ s2) (String.length s1) = s2.
Proof.
  induction s1 as [|a s1 IH]; [by destruct s2|].
  rewrite append_cons. simpl. done.
Qed.

(** [splitSnapshotName] splits at the last [@]. *)
Lemma splitSnapshotName_app (base leaf : string) :
  strings.ContainsRune leaf "@" = false ->
  splitSnapshotName (base +:+ "@" +:+ leaf) = (base, leaf).
Proof.
  intros H. unfold splitSnapshotName.
  change (base +:+ "@" +:+ leaf) with (base +:+ String "@" leaf).
  rewrite (LastIndex_app "@" base leaf H).
  destruct (_ <? 0) eqn:E; [apply Z.ltb_lt in E; lia|].
  rewrite Nat2Z.id, sliceTo_app.
  replace (Z.to_nat (Z.of_nat (String.length base) + 1))
    with (String.length (base +:+ "@")).
  - change (base +:+ String "@" leaf) with (base +:+ "@" +:+ leaf).
    by rewrite append_assoc, sliceFrom_app.
  - rewrite length_append. simpl. lia.
Qed.

Lemma Atoi_inRange (s : string) (n : Z) :
  strconv.Atoi s = Some n -> strconv.inRange n = true.
Proof.
  unfold strconv.Atoi. intros H.
  repeat case_match; simplify_eq; done.
Qed.

Lemma string_of_uint_head (d : Decimal.uint) (a : ascii) (s : string) :
  NilEmpty.string_of_uint d = String a s -> a <> "+"%char /\ a <> "-"%char.
Proof. destruct d; simpl; intros [= <- _]; done. Qed.

Lemma parseDigits_pos (p : positive) :
  strconv.parseDigits (NilZero.string_of_uint (Pos.to_uint p)) = Some (Z.pos p).
Proof.
  unfold strconv.parseDigits.
  assert (Hnil : Pos.to_uint p <> Decimal.Nil).
  { intros E. pose proof (DecimalPos.Unsigned.of_to p) as H. rewrite E in H. done. }
  rewrite NilZero.usu by done.
  f_equal. pose proof (DecimalZ.of_to (Z.pos p)) as H. simpl in H. done.
Qed.

Lemma Atoi_Itoa (n : Z) :
  strconv.inRange n = true -> strconv.Atoi (strconv.Itoa n) = Some n.
Proof.
  intros Hr. unfold strconv.Itoa. destruct n as [|p|p].
  - done.
  - cbn [Z.to_int NilZero.string_of_int].
    pose proof (parseDigits_pos p) as Hp.
    unfold strconv.Atoi.
    destruct (NilZero.string_of_uint (Pos.to_uint p)) as [|a s] eqn:E.
    + done.
    + assert (Hhead : a <> "+"%char /\ a <> "-"%char).
      { unfold NilZero.string_of_uint in E.
        destruct (Pos.to_uint p) eqn:Ep; try (by eapply string_of_uint_head);
          by inversion E. }
      destruct Hhead as [H1 H2].
      assert (Hb : (let r := strconv.parseDigits (String a s) in
                    match r with Some n => if strconv.inRange n then Some n else None
                            | None => None end) = Some (Z.pos p)).
      { simpl. rewrite Hp, Hr. done. }
      destruct a as [[] [] [] [] [] [] [] []]; try exact Hb; congruence.
  - cbn [Z.to_int NilZero.string_of_int]. unfold strconv.Atoi.
    rewrite parseDigits_pos. cbn [option_map].
    change (- Z.pos p) with (Z.neg p). by rewrite Hr.
Qed.

(** ** PropertyCodec: user properties read from the system *)

Lemma sanitizeSource_cases (source : string) :
  sanitizeSource source = "local" \/ sanitizeSource source = "default"
  \/ sanitizeSource source = "inherited".
Proof.
  unfold sanitizeSource.
  destruct (String.eqb_spec source "local") as [->|?]; [by left|].
  destruct (String.eqb_spec source "default") as [->|?]; [by right; left|].
  by right; right.
Qed.

Lemma sanitizeSource_other (source : string) :
  source <> "local" -> source <> "default" -> sanitizeSource source = "inherited".
Proof.
  intros H1 H2. unfold sanitizeSource.
  apply String.eqb_neq in H1, H2. by rewrite H1, H2.
Qed.

(** C10: on a snapshot, a user property that is set locally but whose stored
    value holds no [:] reads as absent: empty value, empty source and no
    error; the only trace is the debug line and the warning in the log. *)
Theorem getUserPropertyFromSys_no_separator
    (prop : propName) (dZFS : libzfsDataset) (p : Property) :
  libzfs_IsSnapshot dZFS = true ->
  GetUserProperty dZFS prop = (p, None) ->
  Source p = "local" ->
  strings.ContainsRune (Value p) ":" = false ->
  getUserPropertyFromSys prop dZFS
  = ([DebugSnapshotProperty prop (Value (prop_at (Properties dZFS) DatasetPropName)) "";
      WarnNotValueSource prop (Value (prop_at (Properties dZFS) DatasetPropName))],
     ("", "", None)).
Proof.
  intros Hsnap Hget Hsrc Hsep. unfold getUserPropertyFromSys.
  rewrite Hget, Hsnap, Hsrc. cbn [String.eqb Ascii.eqb Bool.eqb orb andb negb].
  rewrite andb_false_r. cbn [andb].
  rewrite (LastIndex_absent ":" _ Hsep). reflexivity.
Qed.

Lemma getUserPropertyFromSys_no_separator_witness :
  getUserPropertyFromSys SnapshotMountpointProp
    (snapshotHandle "rpool/ROOT/ubuntu@s1" (mkProperty "/home" "local"))
  = ([DebugSnapshotProperty SnapshotMountpointProp "rpool/ROOT/ubuntu@s1" "";
      WarnNotValueSource SnapshotMountpointProp "rpool/ROOT/ubuntu@s1"],
     ("", "", None)).
Proof.
  apply (getUserPropertyFromSys_no_separator SnapshotMountpointProp
           (snapshotHandle "rpool/ROOT/ubuntu@s1" (mkProperty "/home" "local"))
           (mkProperty "/home" "local")); reflexivity.
Defined.

(** C6, as the code has it: on a snapshot, a user property whose source is
    not "local" reads as absent; one that is local and stored as
    [value:source] is split at the last [:], and the source read back is
    "local" or "default" when that is what was frozen and "inherited" for
    everything else. *)
Theorem getUserPropertyFromSys_snapshot
    (prop : propName) (dZFS : libzfsDataset) (p : Property) :
  libzfs_IsSnapshot dZFS = true ->
  GetUserProperty dZFS prop = (p, None) ->
  (Source p <> "local" ->
     snd (getUserPropertyFromSys prop dZFS) = ("", "", None))
  /\ (forall value source : string,
        Source p = "local" ->
        Value p = value +:+ ":" +:+ source ->
        strings.ContainsRune source ":" = false ->
        snd (getUserPropertyFromSys prop dZFS) = (value, sanitizeSource source, None)
        /\ (source <> "local" -> source <> "default" ->
            snd (getUserPropertyFromSys prop dZFS) = (value, "inherited", None))).
Proof.
  intros Hsnap Hget. split.
  - intros Hsrc. unfold getUserPropertyFromSys. rewrite Hget, Hsnap.
    apply String.eqb_neq in Hsrc. rewrite Hsrc. cbn [negb andb].
    by destruct (_ && _).
  - intros value source Hsrc Hval Hsep.
    assert (Hres : snd (getUserPropertyFromSys prop dZFS)
                   = (value, sanitizeSource source, None)).
    { unfold getUserPropertyFromSys. rewrite Hget, Hsnap, Hsrc.
      cbn [String.eqb Ascii.eqb Bool.eqb orb andb negb].
      rewrite andb_false_r. cbn [andb]. rewrite Hval.
      change (value +:+ ":" +:+ source) with (value +:+ String ":" source).
      rewrite (LastIndex_app ":" value source Hsep).
      destruct (_ <? 0) eqn:E; [apply Z.ltb_lt in E; lia|].
      rewrite Nat2Z.id, sliceTo_app.
      replace (Z.to_nat (Z.of_nat (String.length value) + 1))
        with (String.length (value +:+ ":")) by (rewrite length_append; simpl; lia).
      change (value +:+ String ":" source) with (value +:+ ":" +:+ source).
      by rewrite append_assoc, sliceFrom_app. }
    split; [done|]. intros H1 H2. by rewrite Hres, sanitizeSource_other.
Qed.

Lemma getUserPropertyFromSys_snapshot_witness :
  snd (getUserPropertyFromSys BootfsProp
         (snapshotHandle "rpool/ROOT/ubuntu@s1" (mkProperty "yes:local" "local")))
  = ("yes", "local", None).
Proof.
  pose proof (getUserPropertyFromSys_snapshot BootfsProp
                (snapshotHandle "rpool/ROOT/ubuntu@s1" (mkProperty "yes:local" "local"))
                (mkProperty "yes:local" "local") eq_refl eq_refl) as [_ H].
  destruct (H "yes" "local" eq_refl eq_refl eq_refl) as [H' _]. exact H'.
Defined.

(** C6 fails as stated: a snapshot whose frozen mountpoint is
    [/home:inherited] reports the source "inherited". *)
Lemma getUserPropertyFromSys_snapshot_inherited :
  snd (getUserPropertyFromSys SnapshotMountpointProp
         (snapshotHandle "rpool/ROOT/ubuntu@s1" (mkProperty "/home:inherited" "local")))
  = ("/home", "inherited", None).
Proof. reflexivity. Qed.

(** ** PropertyResolver: [RefreshProperties] *)

Lemma lbind_snd {A B} (m : logged A) (k : A -> logged B) :
  snd (lbind m k) = snd (k (snd m)).
Proof. destruct m as [l a]. simpl. by destruct (k a). Qed.

(** C5, as the code has it: after a successful [RefreshProperties] of a
    dataset that is not a snapshot, the source kept for the mountpoint is
    "local" or the default marker (the empty string) when that is the tag of
    the system and "inherited" for any other tag, while the source kept for
    canMount is "local" for the tag "local" and the default marker for every
    other tag. *)
Theorem RefreshProperties_native_sources (d d' : Dataset) (dZFS : libzfsDataset) :
  IsSnapshot d = false ->
  snd (RefreshProperties d dZFS) = (d', None) ->
  let mp := Source (prop_at (Properties dZFS) DatasetPropMountpoint) in
  let cm := Source (prop_at (Properties dZFS) DatasetPropCanmount) in
  sources.Mountpoint (sources (props d'))
  = (if String.eqb mp "local" then "local"
     else if String.eqb mp "default" then "" else "inherited")
  /\ sources.CanMount (sources (props d'))
     = (if String.eqb cm "local" then "local" else "").
Proof.
  intros Hsnap Hres mp cm. unfold RefreshProperties in Hres.
  rewrite Hsnap in Hres. cbn [negb] in Hres.
  destruct (GetPool dZFS) as [pool [e|]].
  { rewrite lbind_snd in Hres. simpl in Hres. congruence. }
  rewrite lbind_snd in Hres. cbn [lret snd] in Hres.
  rewrite lbind_snd in Hres.
  rewrite lbind_snd in Hres.
  destruct (snd (getUserPropertyFromSys BootfsProp dZFS)) as [[bfs srcB] [e|]];
    [simpl in Hres; congruence|].
  rewrite lbind_snd in Hres.
  destruct (snd (getUserPropertyFromSys LastUsedProp dZFS)) as [[lu srcL] [e|]];
    [simpl in Hres; congruence|].
  destruct (strconv.Atoi _) as [lastUsed|]; [|simpl in Hres; congruence].
  rewrite lbind_snd in Hres.
  destruct (snd (getUserPropertyFromSys LastBootedKernelProp dZFS))
    as [[lbk srcK] [e|]]; [simpl in Hres; congruence|].
  rewrite lbind_snd in Hres.
  destruct (snd (getUserPropertyFromSys BootfsDatasetsProp dZFS))
    as [[bd srcD] [e|]]; [simpl in Hres; congruence|].
  simpl in Hres. injection Hres as <-. simpl. split; [done|]. subst cm.
  destruct (String.eqb (Source (prop_at (Properties dZFS) DatasetPropCanmount)) "local");
    [done|].
  by destruct (String.eqb (Source (prop_at (Properties dZFS) DatasetPropCanmount)) "default").
Qed.

Lemma RefreshProperties_native_sources_witness :
  let d' := fst (snd (RefreshProperties
                        (freshDataset "rpool/ROOT/ubuntu" false
                           (filesystemHandle "rpool/ROOT/ubuntu"
                              (mkProperty "/" "local") (mkProperty "on" "default")))
                        (filesystemHandle "rpool/ROOT/ubuntu"
                           (mkProperty "/" "local") (mkProperty "on" "default")))) in
  sources.Mountpoint (sources (props d')) = "local"
  /\ sources.CanMount (sources (props d')) = "".
Proof.
  apply (RefreshProperties_native_sources
           (freshDataset "rpool/ROOT/ubuntu" false
              (filesystemHandle "rpool/ROOT/ubuntu"
                 (mkProperty "/" "local") (mkProperty "on" "default")))
           _
           (filesystemHandle "rpool/ROOT/ubuntu"
              (mkProperty "/" "local") (mkProperty "on" "default")));
    reflexivity.
Defined.

(** C5 fails as stated for canMount: with the tag "received" on canmount the
    refresh succeeds and keeps the default marker, not "inherited" (the
    same tag on the mountpoint gives "inherited"). *)
Lemma RefreshProperties_canMount_received :
  let z := filesystemHandle "rpool/ROOT/ubuntu"
             (mkProperty "/" "received") (mkProperty "on" "received") in
  let r := snd (RefreshProperties (freshDataset "rpool/ROOT/ubuntu" false z) z) in
  snd r = None
  /\ sources.Mountpoint (sources (props (fst r))) = "inherited"
  /\ sources.CanMount (sources (props (fst r))) = ""
  /\ sources.CanMount (sources (props (fst r))) <> "inherited".
Proof. vm_compute. repeat split; discriminate. Qed.

(** ** IntegrityChecker *)

(** Induction over the dataset tree. *)
Lemma Dataset_tree_ind (P : Dataset -> Prop) :
  (forall name snap p z cs, Forall P cs -> P (mkDataset name snap p z cs)) ->
  forall d, P d.
Proof.
  intros H. fix IH 1. intros [name snap p z cs]. apply H.
  induction cs as [|c cs IHcs]; constructor; [apply IH | exact IHcs].
Qed.

Lemma checkSnapshotHierarchyIntegrity_eq (d : Dataset) (snapshotName : string)
    (snapshotOnParent : bool) :
  checkSnapshotHierarchyIntegrity d snapshotName snapshotOnParent
  = if hasSnapshot d snapshotName && negb snapshotOnParent
    then Some (ErrSnapshotOnChildOnly (Name d) snapshotName
                 (Name d +:+ "@" +:+ snapshotName))
    else checkChildren snapshotName (hasSnapshot d snapshotName) (children d).
Proof.
  destruct d as [name snap p z cs]. unfold hasSnapshot.
  cbn [checkSnapshotHierarchyIntegrity Name children].
  destruct (_ && _); [done|].
  generalize (hasSnapshotNamed name snapshotName cs) as found. intros found.
  induction cs as [|c cs IH]; [done|].
  cbn [checkChildren]. rewrite <- IH. done.
Qed.

(** Every error of the check names the snapshot [X@name] of a dataset [X]
    that holds it. *)
Lemma checkSnapshotHierarchyIntegrity_error (snapshotName : string) (d : Dataset) :
  forall (flag : bool) (e : error),
    checkSnapshotHierarchyIntegrity d snapshotName flag = Some e ->
    exists X : Dataset,
      hasSnapshot X snapshotName = true
      /\ e = ErrSnapshotOnChildOnly (Name X) snapshotName
               (Name X +:+ "@" +:+ snapshotName).
Proof.
  induction d as [name snap p z cs IHcs] using Dataset_tree_ind.
  intros flag e. rewrite checkSnapshotHierarchyIntegrity_eq.
  destruct (hasSnapshot _ _ && negb flag) eqn:E.
  - intros [= <-]. apply andb_true_iff in E as [E _]. eauto.
  - cbn [children]. generalize (hasSnapshot (mkDataset name snap p z cs) snapshotName).
    clear E. intros found. induction IHcs as [|c cs Hc _ IH]; [done|].
    cbn [checkChildren]. destruct (IsSnapshot c); [exact IH|].
    destruct (checkSnapshotHierarchyIntegrity c snapshotName found) eqn:Ec.
    + intros [= <-]. eauto.
    + exact IH.
Qed.

Lemma checkChildren_app (snapshotName : string) (found : bool) (l1 l2 : list Dataset) :
  checkChildren snapshotName found (l1 ++ l2)
  = match checkChildren snapshotName found l1 with
    | Some e => Some e
    | None => checkChildren snapshotName found l2
    end.
Proof.
  induction l1 as [|c l1 IH]; [done|]. cbn [app checkChildren].
  destruct (IsSnapshot c); [done|].
  by destruct (checkSnapshotHierarchyIntegrity c snapshotName found).
Qed.

Lemma visited_eq (N : string) (d : Dataset) (flag : bool) :
  visited N d flag
  = (d, flag)
    :: concat (map (fun c => if IsSnapshot c then []
                             else visited N c (hasSnapshot d N)) (children d)).
Proof.
  destruct d as [n snap p z cs]. cbn [visited children]. f_equal.
  generalize (hasSnapshot (mkDataset n snap p z cs) N). intros found.
  induction cs as [|c cs IH]; [done|]. cbn [map concat]. rewrite IH.
  by destruct (IsSnapshot c).
Qed.

(** What the check returns: nothing when every dataset it visits passes,
    and else the error of the first one that does not. *)
Lemma checkSnapshotHierarchyIntegrity_scan (N : string) (d : Dataset) :
  forall flag : bool,
    match checkSnapshotHierarchyIntegrity d N flag with
    | None => Forall (passes N) (visited N d flag)
    | Some e =>
      exists pre X post,
        visited N d flag = pre ++ (X, false) :: post
        /\ Forall (passes N) pre
        /\ hasSnapshot X N = true
        /\ e = ErrSnapshotOnChildOnly (Name X) N (Name X +:+ "@" +:+ N)
    end.
Proof.
  induction d as [n snap p z cs IHcs] using Dataset_tree_ind. intros flag.
  rewrite checkSnapshotHierarchyIntegrity_eq, visited_eq. cbn [children].
  destruct (hasSnapshot (mkDataset n snap p z cs) N && negb flag) eqn:E.
  { apply andb_true_iff in E as [E1 E2]. destruct flag; [done|].
    eexists [], (mkDataset n snap p z cs), _. split; [reflexivity|].
    split; [by constructor|done]. }
  assert (Hroot : passes N (mkDataset n snap p z cs, flag)).
  { unfold passes. cbn [fst snd]. intros H. rewrite H in E. by destruct flag. }
  clear E. revert Hroot.
  generalize (hasSnapshot (mkDataset n snap p z cs) N) as found.
  generalize (mkDataset n snap p z cs) as d. intros d found Hroot.
  assert (Hcs : match checkChildren N found cs with
                | None =>
                  Forall (passes N)
                    (concat (map (fun c => if IsSnapshot c then []
                                           else visited N c found) cs))
                | Some e =>
                  exists pre X post,
                    concat (map (fun c => if IsSnapshot c then []
                                          else visited N c found) cs)
                    = pre ++ (X, false) :: post
                    /\ Forall (passes N) pre
                    /\ hasSnapshot X N = true
                    /\ e = ErrSnapshotOnChildOnly (Name X) N (Name X +:+ "@" +:+ N)
                end).
  { induction IHcs as [|c cs Hc _ IH]; [by constructor|].
    cbn [checkChildren map concat]. destruct (IsSnapshot c); [exact IH|].
    specialize (Hc found).
    destruct (checkSnapshotHierarchyIntegrity c N found) as [e|].
    - destruct Hc as (pre & X & post & Hv & Hpre & HX & He).
      exists pre, X, (post ++ concat (map (fun c => if IsSnapshot c then []
                                                     else visited N c found) cs)).
      rewrite Hv, <- app_assoc. done.
    - destruct (checkChildren N found cs) as [e|].
      + destruct IH as (pre & X & post & Hv & Hpre & HX & He).
        exists (visited N c found ++ pre), X, post. rewrite Hv, <- app_assoc.
        split; [done|]. split; [by apply Forall_app|done].
      + by apply Forall_app. }
  destruct (checkChildren N found cs) as [e|].
  - destruct Hcs as (pre & X & post & Hv & Hpre & HX & He).
    exists ((d, flag) :: pre), X, post. rewrite Hv.
    split; [done|]. split; [by constructor|done].
  - by constructor.
Qed.

(** The flags go down the tree: the children of a visited dataset that are
    not snapshots are visited, with the flag that says whether the dataset
    holds its snapshot. *)
Lemma visited_children (N : string) (d : Dataset) :
  forall (flag : bool) (x : Dataset) (f : bool),
    (x, f) ∈ visited N d flag ->
    forall c, c ∈ children x -> IsSnapshot c = false ->
      (c, hasSnapshot x N) ∈ visited N d flag.
Proof.
  induction d as [n snap p z cs IHcs] using Dataset_tree_ind.
  intros flag x f. rewrite visited_eq. cbn [children].
  assert (Hin : forall found c0,
            c0 ∈ cs -> IsSnapshot c0 = false ->
            forall q, q ∈ visited N c0 found ->
              q ∈ concat (map (fun c => if IsSnapshot c then []
                                        else visited N c found) cs)).
  { intros found c0 Hc0 Hs q Hq. clear IHcs.
    induction cs as [|c cs IH]; [by apply elem_of_nil in Hc0|].
    cbn [map concat]. apply elem_of_app.
    apply elem_of_cons in Hc0 as [<-|Hc0]; [left; by rewrite Hs|right; by apply IH]. }
  intros [Hx|Hx]%elem_of_cons c Hc Hs.
  - injection Hx as -> ->. right. cbn [children] in Hc.
    apply (Hin _ c Hc Hs). rewrite visited_eq. by left.
  - right. revert Hx.
    generalize (hasSnapshot (mkDataset n snap p z cs) N) as found. intros found Hx.
    assert (Hex : exists c0, c0 ∈ cs /\ IsSnapshot c0 = false
                             /\ (x, f) ∈ visited N c0 found).
    { clear Hin IHcs. induction cs as [|c1 cs IH]; [by apply elem_of_nil in Hx|].
      cbn [map concat] in Hx. apply elem_of_app in Hx as [Hx|Hx].
      - destruct (IsSnapshot c1) eqn:E1; [by apply elem_of_nil in Hx|].
        exists c1. split; [by left|done].
      - destruct (IH Hx) as (c0 & H0 & H1 & H2). exists c0. split; [by right|done]. }
    destruct Hex as (c0 & Hc0 & Hs0 & Hx0).
    apply (Hin _ c0 Hc0 Hs0). rewrite Forall_forall in IHcs.
    by apply (IHcs c0 Hc0 found x f).
Qed.



(** ** PropertyMutator *)

Lemma cascade_eq (name : propName) (oldMountPoint value : string) (c : Dataset) :
  cascade name oldMountPoint value c
  = match refreshChild name oldMountPoint value c with
    | Panicked p => Panicked p
    | Returned (c1, value) =>
      match cascadeList name (cascade name oldMountPoint) value (children c) with
      | Panicked p => Panicked p
      | Returned (cs', value) => Returned (with_children c1 cs', value)
      end
    end.
Proof. by destruct c. Qed.

(** C4: when the write to the system fails, [setProperty] returns that
    error, and the dataset keeps its name, its properties with their sources
    and its children as they were; only the handle is what the failed call
    left. *)
Theorem setProperty_write_failure
    (SetProperty : libzfsDataset -> libzfsProp -> string -> libzfsDataset * option error)
    (SetUserProperty : libzfsDataset -> propName -> string -> libzfsDataset * option error)
    (d : Dataset) (name : propName) (value source : string)
    (np : libzfsProp) (up : propName) (destV : valueRef) (destS : sourceRef)
    (z : libzfsDataset) (e : error) :
  stringToProp d name = Returned (np, up, destV, destS) ->
  writeProperty SetProperty SetUserProperty d np up value source = (z, Some e) ->
  exists d' : Dataset,
    setProperty SetProperty SetUserProperty d name value source = Returned (d', Some e)
    /\ d' = with_dZFS d z
    /\ Name d' = Name d /\ IsSnapshot d' = IsSnapshot d
    /\ props d' = props d /\ children d' = children d.
Proof.
  intros Hprop Hwrite. exists (with_dZFS d z).
  unfold setProperty. rewrite Hprop, Hwrite. by destruct d.
Qed.

Lemma setProperty_write_failure_witness :
  exists d' : Dataset,
    setProperty writeFails writeFails chainRoot MountPointProp "/new" "local"
    = Returned (d', Some (ErrBackend "permission denied"))
    /\ d' = with_dZFS chainRoot (dZFS chainRoot)
    /\ Name d' = Name chainRoot /\ IsSnapshot d' = IsSnapshot chainRoot
    /\ props d' = props chainRoot /\ children d' = children chainRoot.
Proof.
  apply (setProperty_write_failure writeFails writeFails chainRoot MountPointProp
           "/new" "local" DatasetPropMountpoint MountPointProp RefMountpoint SrcMountpoint
           (dZFS chainRoot) (ErrBackend "permission denied")); reflexivity.
Defined.

(** C2 fails for lastUsed: a successful [setProperty] of lastUsed to "42"
    on a dataset last used at 7 leaves the dataset's lastUsed at 7; the
    value parsed is the old one, printed by [stringToProp]. *)
Theorem setProperty_lastUsed_not_refreshed :
  exists d' : Dataset,
    setProperty writeOk writeOk (mounted "rpool" "/" "local" 7 []) LastUsedProp "42" "local"
    = Returned (d', None)
    /\ LastUsed (props d') = 7
    /\ getPropertyFromName d' LastUsedProp = Returned ("7", "local")
    /\ strconv.Atoi "42" = Some 42.
Proof. eexists. repeat split. Qed.

(** The slip is general: whenever the new value is not empty, a successful
    [setProperty] of lastUsed keeps the lastUsed the dataset had. *)
Lemma setProperty_lastUsed_unchanged
    (SetProperty : libzfsDataset -> libzfsProp -> string -> libzfsDataset * option error)
    (SetUserProperty : libzfsDataset -> propName -> string -> libzfsDataset * option error)
    (d d' : Dataset) (value source : string) :
  String.eqb value "" = false ->
  strconv.inRange (LastUsed (props d)) = true ->
  setProperty SetProperty SetUserProperty d LastUsedProp value source = Returned (d', None) ->
  LastUsed (props d') = LastUsed (props d).
Proof.
  intros Hv Hr. unfold setProperty, stringToProp.
  destruct (writeProperty _ _ _ _ _ _ _) as [z [e|]]; [done|].
  rewrite Hv. cbn [load]. rewrite (Atoi_Itoa _ Hr).
  destruct (cascadeList _ _ _ _) as [[cs v]|]; [|done].
  intros [= <-]. by destruct d.
Qed.

(** For the other recognized properties the dataset is refreshed as C2
    says: reading the property back gives the value (for bootFS, "yes" or
    "no" according to whether the value was "yes") and the source. *)
Lemma setProperty_refreshed
    (SetProperty : libzfsDataset -> libzfsProp -> string -> libzfsDataset * option error)
    (SetUserProperty : libzfsDataset -> propName -> string -> libzfsDataset * option error)
    (d d' : Dataset) (name : propName) (value source : string) :
  name <> LastUsedProp ->
  setProperty SetProperty SetUserProperty d name value source = Returned (d', None) ->
  getPropertyFromName d' name
  = Returned (match name with
              | BootfsProp => if String.eqb value "yes" then "yes" else "no"
              | _ => value
              end, source)
  /\ (name = MountPointProp -> Mountpoint (props d') = value).
Proof.
  intros Hname. unfold setProperty.
  destruct (stringToProp d name) as [[[[np up] destV] destS]|] eqn:Hp; [|done].
  destruct (writeProperty _ _ _ _ _ _ _) as [z [e|]]; [done|].
  destruct d as [n snap p z0 cs].
  destruct p as [mp cm mtd bfs lu lbk bds org [smp scm sbf slu slbk sbds]].
  unfold stringToProp in Hp.
  destruct name; try done; destruct snap; cbn in Hp; injection Hp as <- <- <- <-;
    cbn; (destruct (cascadeList _ _ _ _) as [[cs' v]|]; [|done]);
    intros [= <-]; unfold getPropertyFromName; cbn; split; try done;
    by destruct (String.eqb value "yes").
Qed.

(** *** The cascade *)

Lemma cascadeList_middle (name : propName)
    (node : string -> Dataset -> outcome (Dataset * string))
    (l1 l2 : list Dataset) (x : Dataset) :
  forall (value value' : string) (r : list Dataset),
    cascadeList name node value (l1 ++ x :: l2) = Returned (r, value') ->
    exists (r1 r2 : list Dataset) (x' : Dataset),
      r = r1 ++ x' :: r2 /\ length r1 = length l1
      /\ ((inheritsProperty x name = Returned false /\ x' = x)
          \/ (inheritsProperty x name = Returned true
              /\ exists v1 v2 : string, node v1 x = Returned (x', v2))).
Proof.
  induction l1 as [|c l1 IH]; intros value value' r H.
  - cbn [app cascadeList] in H.
    destruct (inheritsProperty x name) as [[]|]; [| |done].
    + destruct (node value x) as [[x' v2]|] eqn:Ex; [|done].
      destruct (cascadeList name node v2 l2) as [[r2 v3]|]; [|done].
      injection H as <- <-. exists [], r2, x'. eauto 10.
    + destruct (cascadeList name node value l2) as [[r2 v3]|]; [|done].
      injection H as <- <-. exists [], r2, x. eauto 10.
  - cbn [app cascadeList] in H.
    destruct (inheritsProperty c name) as [[]|]; [| |done].
    + destruct (node value c) as [[c' v2]|]; [|done].
      destruct (cascadeList name node v2 (l1 ++ x :: l2)) as [[r' v3]|] eqn:E; [|done].
      injection H as <- <-.
      destruct (IH _ _ _ E) as (r1 & r2 & x' & -> & Hlen & Hx).
      exists (c' :: r1), r2, x'. cbn [length]. by rewrite Hlen.
    + destruct (cascadeList name node value (l1 ++ x :: l2)) as [[r' v3]|] eqn:E; [|done].
      injection H as <- <-.
      destruct (IH _ _ _ E) as (r1 & r2 & x' & -> & Hlen & Hx).
      exists (c :: r1), r2, x'. cbn [length]. by rewrite Hlen.
Qed.

(** A dataset whose mountpoint is set locally is not handed to the
    cascade. *)
Lemma inheritsProperty_local_mountpoint (c : Dataset) :
  sources.Mountpoint (sources (props c)) = "local" ->
  inheritsProperty c MountPointProp = Returned false.
Proof.
  intros H. unfold inheritsProperty, stringToProp.
  destruct (IsSnapshot c) eqn:E; cbn [negb]; [done|].
  cbn [loadSource]. by rewrite H.
Qed.

Lemma setProperty_children
    (SetProperty : libzfsDataset -> libzfsProp -> string -> libzfsDataset * option error)
    (SetUserProperty : libzfsDataset -> propName -> string -> libzfsDataset * option error)
    (d d' : Dataset) (value source : string) :
  setProperty SetProperty SetUserProperty d MountPointProp value source
  = Returned (d', None) ->
  exists value' : string,
    cascadeList MountPointProp (cascade MountPointProp (Mountpoint (props d))) value
      (children d) = Returned (children d', value').
Proof.
  unfold setProperty. intros H.
  destruct (stringToProp d MountPointProp) as [[[[np up] destV] destS]|] eqn:Hp; [|done].
  destruct (writeProperty _ _ d np up value source) as [z [e|]]; [done|].
  assert (HdestV : destV = RefMountpoint).
  { unfold stringToProp in Hp. by destruct (negb (IsSnapshot d)); injection Hp as <- <- <- <-. }
  subst destV. cbn [load store fst with_dZFS props children with_props] in H.
  destruct d as [n snap p z0 cs]. cbn in H |- *.
  destruct (cascadeList _ _ _ _) as [[cs' v']|]; [|done].
  injection H as <-. by exists v'.
Qed.

(** C3, as the code has it: on a chain root → A → B → C where B's
    mountpoint is set locally, a successful
    [setProperty(root, mountpoint, v, s)] leaves B where it was and exactly
    as it was, with everything below it: B keeps its mountpoint and C is not
    rewritten, whatever its source says. *)
Theorem setProperty_mountpoint_stops_at_local
    (SetProperty : libzfsDataset -> libzfsProp -> string -> libzfsDataset * option error)
    (SetUserProperty : libzfsDataset -> propName -> string -> libzfsDataset * option error)
    (root root' A B : Dataset) (beforeA afterA beforeB afterB : list Dataset)
    (value source : string) :
  children root = beforeA ++ A :: afterA ->
  children A = beforeB ++ B :: afterB ->
  sources.Mountpoint (sources (props B)) = "local" ->
  setProperty SetProperty SetUserProperty root MountPointProp value source
  = Returned (root', None) ->
  exists (A' : Dataset) (beforeA' afterA' beforeB' afterB' : list Dataset),
    children root' = beforeA' ++ A' :: afterA'
    /\ length beforeA' = length beforeA
    /\ children A' = beforeB' ++ B :: afterB'
    /\ length beforeB' = length beforeB.
Proof.
  intros HA HB Hlocal Hset.
  destruct (setProperty_children _ _ _ _ _ _ Hset) as [v' Hcs].
  rewrite HA in Hcs.
  destruct (cascadeList_middle _ _ _ _ _ _ _ _ Hcs)
    as (r1 & r2 & A' & Hroot' & Hlen & [[_ ->]|[_ (v1 & v2 & HA')]]).
  - exists A, r1, r2, beforeB, afterB. done.
  - rewrite cascade_eq in HA'.
    destruct (refreshChild _ _ _ A) as [[A1 v3]|]; [|done].
    rewrite HB in HA'.
    destruct (cascadeList _ _ _ (beforeB ++ B :: afterB)) as [[cs' v4]|] eqn:E; [|done].
    injection HA' as <- <-.
    destruct (cascadeList_middle _ _ _ _ _ _ _ _ E)
      as (b1 & b2 & B' & -> & Hlen' & [[_ ->]|[HB' _]]).
    + exists (with_children A1 (b1 ++ B :: b2)), r1, r2, b1, b2.
      by destruct A1.
    + rewrite (inheritsProperty_local_mountpoint B Hlocal) in HB'. done.
Qed.

Lemma setProperty_mountpoint_stops_at_local_witness :
  exists (A' : Dataset) (beforeA' afterA' beforeB' afterB' : list Dataset),
    children chainRootAfter = beforeA' ++ A' :: afterA'
    /\ length beforeA' = length (@nil Dataset)
    /\ children A' = beforeB' ++ chainB :: afterB'
    /\ length beforeB' = length (@nil Dataset).
Proof.
  apply (setProperty_mountpoint_stops_at_local writeOk writeOk chainRoot
           chainRootAfter chainA chainB [] [] [] [] "/new" "local");
    vm_compute; reflexivity.
Defined.

(** C3 fails as stated: in the chain of the example, C (mounted on
    [/custom/C], below B mounted on [/custom]) keeps its mountpoint; it is
    not rewritten to [/new] joined with its suffix below B, [/new/C]. *)
Lemma setProperty_chain_C_not_rewritten :
  exists (root' A' B' C' : Dataset),
    setProperty writeOk writeOk chainRoot MountPointProp "/new" "local"
    = Returned (root', None)
    /\ children root' = [A'] /\ children A' = [B'] /\ children B' = [C']
    /\ Mountpoint (props B') = "/custom"
    /\ Mountpoint (props C') = "/custom/C"
    /\ filepath.Join "/new"
         (strings.TrimPrefix (Mountpoint (props chainC)) (Mountpoint (props chainB)))
       = "/new/C"
    /\ Mountpoint (props C') <> "/new/C".
Proof.
  eexists _, _, _, _. split; [vm_compute; reflexivity|].
  repeat split; discriminate.
Qed.

Lemma getInheritedChildren_eq (name : propName) (d : Dataset) :
  getInheritedChildren name d = sentDown name (children d).
Proof.
  destruct d as [n snap p z cs]. cbn [getInheritedChildren children].
  induction cs as [|c cs IH]; [done|]. cbn [sentDown]. by rewrite IH.
Qed.

Lemma normValue_same (name : propName) (value v : string) :
  sameValue name value v -> normValue name v = normValue name value.
Proof.
  intros [->| ->]; [done|]. unfold normValue. destruct name; try done.
  destruct (String.eqb value "") eqn:E; [done|]. by rewrite E.
Qed.

Lemma sameValue_other (name : propName) (value v : string) :
  name <> LastUsedProp -> sameValue name value v -> v = value.
Proof. intros Hn [->| ->]; [done|]. by destruct name. Qed.

Section Idempotence.

Variable name : propName.
Variable value : string.

Lemma prop_at_insert (m : gmap libzfsProp Property) (k : libzfsProp) (p : Property) :
  prop_at (<[k := p]> m) k = p.
Proof. unfold prop_at. by rewrite lookup_insert_eq. Qed.

Lemma refreshChild_children (old v : string) (c : Dataset) (cs : list Dataset) :
  refreshChild name old v (with_children c cs)
  = match refreshChild name old v c with
    | Returned (c', v') => Returned (with_children c' cs, v')
    | Panicked p => Panicked p
    end.
Proof.
  destruct c as [n snap p z cs0]. unfold refreshChild, stringToProp.
  destruct name; destruct snap; cbn; try done; by destruct (strconv.Atoi _).
Qed.

Lemma inheritsProperty_children (c : Dataset) (cs : list Dataset) :
  inheritsProperty (with_children c cs) name = inheritsProperty c name.
Proof. by destruct c, name. Qed.

(** A dataset taken from the channel is left ready to be taken again, and
    a second pass reproduces it. *)
Lemma refreshChild_again (old v : string) (c c' : Dataset) (v' : string) :
  refreshChild name old v c = Returned (c', v') ->
  sameValue name value v ->
  inheritsProperty c name = Returned true ->
  sameValue name value v'
  /\ inheritsProperty c' name = Returned true
  /\ children c' = children c
  /\ forall old2 v2 : string,
       sameValue name value v2 ->
       (name = MountPointProp -> old2 = value /\ stableBelow value c') ->
       exists v3 : string,
         refreshChild name old2 v2 c' = Returned (c', v3) /\ sameValue name value v3.
Proof.
  intros Hr Hv Hinh.
  assert (Hsnap : IsSnapshot c = false).
  { unfold inheritsProperty in Hinh.
    destruct (stringToProp c name) as [[[[? ?] ?] ?]|]; [|done].
    by destruct (IsSnapshot c). }
  destruct c as [n snap p z cs]. cbn in Hsnap. subst snap.
  destruct (decide (name = LastUsedProp)) as [Hlu|Hlu].
  - unfold refreshChild, stringToProp in *. rewrite Hlu in *. cbn in Hr.
    pose proof (normValue_same _ _ v Hv) as Hnv. cbn in Hnv.
    rewrite Hnv in Hr.
    destruct (strconv.Atoi _) as [lu|] eqn:Ea; [|done].
    injection Hr as <- <-. split; [by right|]. split; [done|]. split; [done|].
    intros old2 v2 Hv2 _. pose proof (normValue_same _ _ v2 Hv2) as Hnv2.
    cbn in Hnv2. rewrite Hnv2, Ea.
    eexists. split; [done|]. by right.
  - pose proof (sameValue_other _ _ v Hlu Hv) as ->.
    assert (Hsv : forall v2, sameValue name value v2 -> v2 = value)
      by (intros; by apply (sameValue_other name)).
    assert (Hval : sameValue name value value) by by left.
    unfold refreshChild, stringToProp in Hr.
    assert (Hv' : v' = value).
    { destruct name; try done; cbn in Hr; by injection Hr as <- <-. }
    subst v'. split; [done|].
    destruct p as [mp cm mtd bfs lu lbk bds org [smp scm sbf slu slbk sbds]].
    clear Hv Hinh.
    destruct name eqn:En; try done; cbn in Hr;
      rewrite ?bool_decide_eq_true_2 in Hr by done; cbn in Hr;
      injection Hr as <-;
      (split; [done|]); (split; [done|]);
      intros old2 v2 Hv2 Hmp; rewrite (Hsv v2 Hv2);
      exists value; (split; [|done]);
      unfold refreshChild, stringToProp; cbn;
      rewrite ?bool_decide_eq_true_2 by done; cbn;
      rewrite ?prop_at_insert, ?insert_insert_eq; cbn; try done.
    destruct (Hmp eq_refl) as [-> Hst]. unfold stableBelow in Hst. cbn in Hst.
    by rewrite Hst.
Qed.

Lemma cascadeList_again (old : string) (cs : list Dataset) :
  Forall (fun c =>
    forall (v0 : string) (c1 : Dataset) (v1 : string),
      cascade name old v0 c = Returned (c1, v1) ->
      sameValue name value v0 ->
      inheritsProperty c name = Returned true ->
      sameValue name value v1
      /\ inheritsProperty c1 name = Returned true
      /\ forall old2 v2 : string,
           sameValue name value v2 ->
           (name = MountPointProp ->
            old2 = value /\ Forall (stableBelow value) (c1 :: getInheritedChildren name c1)) ->
           exists v3 : string,
             cascade name old2 v2 c1 = Returned (c1, v3) /\ sameValue name value v3) cs ->
  forall (v0 : string) (cs1 : list Dataset) (v1 : string),
    cascadeList name (cascade name old) v0 cs = Returned (cs1, v1) ->
    sameValue name value v0 ->
    sameValue name value v1
    /\ forall old2 v2 : string,
         sameValue name value v2 ->
         (name = MountPointProp ->
          old2 = value /\ Forall (stableBelow value) (sentDown name cs1)) ->
         exists v3 : string,
           cascadeList name (cascade name old2) v2 cs1 = Returned (cs1, v3)
           /\ sameValue name value v3.
Proof.
  induction 1 as [|c cs Hc _ IH]; intros v0 cs1 v1 Hrun Hv0.
  - injection Hrun as <- <-. split; [done|]. intros old2 v2 Hv2 _. by exists v2.
  - cbn [cascadeList] in Hrun.
    destruct (inheritsProperty c name) as [[]|] eqn:Hinh; [| |done].
    + destruct (cascade name old v0 c) as [[c1 v']|] eqn:Ec; [|done].
      destruct (cascadeList name (cascade name old) v' cs) as [[cs' v'']|] eqn:Ecs; [|done].
      injection Hrun as <- <-.
      destruct (Hc _ _ _ Ec Hv0 eq_refl) as (Hv' & Hinh1 & Hagain).
      destruct (IH _ _ _ Ecs Hv') as (Hv'' & Hrest).
      split; [done|]. intros old2 v2 Hv2 Hmp.
      cbn [cascadeList]. rewrite Hinh1.
      destruct (Hagain old2 v2 Hv2) as (v3 & -> & Hv3).
      { intros Hn. destruct (Hmp Hn) as [-> Hst]. split; [done|].
        cbn [sentDown] in Hst. rewrite Hinh1 in Hst.
        rewrite app_comm_cons in Hst. by apply Forall_app in Hst as [? _]. }
      destruct (Hrest old2 v3 Hv3) as (v4 & -> & Hv4); [|by exists v4].
      intros Hn. destruct (Hmp Hn) as [-> Hst]. split; [done|].
      cbn [sentDown] in Hst. rewrite Hinh1 in Hst.
      rewrite app_comm_cons in Hst. by apply Forall_app in Hst as [_ ?].
    + destruct (cascadeList name (cascade name old) v0 cs) as [[cs' v'']|] eqn:Ecs; [|done].
      injection Hrun as <- <-.
      destruct (IH _ _ _ Ecs Hv0) as (Hv'' & Hrest).
      split; [done|]. intros old2 v2 Hv2 Hmp.
      cbn [cascadeList]. rewrite Hinh.
      destruct (Hrest old2 v2 Hv2) as (v4 & -> & Hv4); [|by exists v4].
      intros Hn. destruct (Hmp Hn) as [-> Hst]. split; [done|].
      cbn [sentDown] in Hst. by rewrite Hinh in Hst.
Qed.

Lemma cascade_again (old : string) (c : Dataset) :
  forall (v0 : string) (c1 : Dataset) (v1 : string),
    cascade name old v0 c = Returned (c1, v1) ->
    sameValue name value v0 ->
    inheritsProperty c name = Returned true ->
    sameValue name value v1
    /\ inheritsProperty c1 name = Returned true
    /\ forall old2 v2 : string,
         sameValue name value v2 ->
         (name = MountPointProp ->
          old2 = value /\ Forall (stableBelow value) (c1 :: getInheritedChildren name c1)) ->
         exists v3 : string,
           cascade name old2 v2 c1 = Returned (c1, v3) /\ sameValue name value v3.
Proof.
  induction c as [n snap p z cs IHcs] using Dataset_tree_ind.
  intros v0 c1 v1 Hrun Hv0 Hinh. rewrite cascade_eq in Hrun.
  destruct (refreshChild name old v0 _) as [[c' v']|] eqn:Er; [|done].
  cbn [children] in Hrun.
  destruct (cascadeList name (cascade name old) v' cs) as [[cs1 v'']|] eqn:Ecs; [|done].
  injection Hrun as <- <-.
  destruct (refreshChild_again _ _ _ _ _ Er Hv0 Hinh) as (Hv' & Hinh' & Hch & Hagain).
  destruct (cascadeList_again old cs IHcs _ _ _ Ecs Hv') as (Hv'' & Hrest).
  split; [done|]. split; [by rewrite inheritsProperty_children|].
  intros old2 v2 Hv2 Hmp. rewrite cascade_eq, refreshChild_children.
  destruct (Hagain old2 v2 Hv2) as (v3 & -> & Hv3).
  { intros Hn. destruct (Hmp Hn) as [-> Hst]. split; [done|].
    apply Forall_cons in Hst as [Hst _]. unfold stableBelow in *. by destruct c'. }
  assert (Hcs1 : children (with_children c' cs1) = cs1) by by destruct c'.
  rewrite Hcs1.
  destruct (Hrest old2 v3 Hv3) as (v4 & -> & Hv4).
  { intros Hn. destruct (Hmp Hn) as [-> Hst]. split; [done|].
    apply Forall_cons in Hst as [_ Hst].
    by rewrite getInheritedChildren_eq, Hcs1 in Hst. }
  exists v4. split; [|done]. by destruct c'.
Qed.

End Idempotence.

#[local] Arguments strconv.Atoi : simpl never.
#[local] Arguments strconv.Itoa : simpl never.

Lemma writeProperty_accepted
    (SetProperty : libzfsDataset -> libzfsProp -> string -> libzfsDataset * option error)
    (SetUserProperty : libzfsDataset -> propName -> string -> libzfsDataset * option error)
    (d : Dataset) (np : libzfsProp) (up : propName) (value source : string) :
  (forall z p v, snd (SetProperty z p v) = None) ->
  (forall z p v, snd (SetUserProperty z p v) = None) ->
  snd (writeProperty SetProperty SetUserProperty d np up value source) = None.
Proof. intros H1 H2. unfold writeProperty. by destruct (bool_decide _). Qed.

(** C8, as the code has it: when the system accepts the writes, a second
    [setProperty(D, P, v, "local")] right after a successful first one
    succeeds and changes nothing in D (name, properties, sources) nor in any
    of its descendants; for the mountpoint this needs the mountpoints that
    the cascade rewrote to be stable under re-joining them below [v]. *)
Theorem setProperty_twice
    (SetProperty : libzfsDataset -> libzfsProp -> string -> libzfsDataset * option error)
    (SetUserProperty : libzfsDataset -> propName -> string -> libzfsDataset * option error)
    (d d1 : Dataset) (name : propName) (value : string) :
  (forall z p v, snd (SetProperty z p v) = None) ->
  (forall z p v, snd (SetUserProperty z p v) = None) ->
  setProperty SetProperty SetUserProperty d name value "local" = Returned (d1, None) ->
  (name = MountPointProp ->
   Forall (stableBelow value) (getInheritedChildren name d1)) ->
  exists d2 : Dataset,
    setProperty SetProperty SetUserProperty d1 name value "local" = Returned (d2, None)
    /\ Name d2 = Name d1 /\ IsSnapshot d2 = IsSnapshot d1
    /\ props d2 = props d1 /\ children d2 = children d1.
Proof.
  intros Hsp Hsup H1 Hst.
  assert (Hcas : forall old cs v0 cs1 v1,
            cascadeList name (cascade name old) v0 cs = Returned (cs1, v1) ->
            v0 = value ->
            forall old2,
              (name = MountPointProp ->
               old2 = value /\ Forall (stableBelow value) (sentDown name cs1)) ->
              exists v3, cascadeList name (cascade name old2) value cs1 = Returned (cs1, v3)).
  { intros old cs v0 cs1 v1 Hrun -> old2 Hmp.
    destruct (cascadeList_again name value old cs) with (v0 := value) (cs1 := cs1) (v1 := v1)
      as [_ Hag]; [|done|by left|].
    - apply Forall_forall. intros c _ v0 c1 v2. apply cascade_again.
    - destruct (Hag old2 value) as (v3 & Hv3 & _); [by left|done|]. by exists v3. }
  unfold setProperty in H1.
  destruct (stringToProp d name) as [[[[np up] destV] destS]|] eqn:Hp; [|done].
  pose proof (writeProperty_accepted SetProperty SetUserProperty d np up value "local" Hsp Hsup)
    as Hw1.
  destruct (writeProperty _ _ d np up value "local") as [z1 e1]. cbn in Hw1. subst e1.
  destruct d as [n snap p z cs].
  destruct p as [mp cm mtd bfs lu lbk bds org [smp scm sbf slu slbk sbds]].
  unfold stringToProp in Hp.
  destruct name eqn:En; try done; destruct snap; cbn in Hp;
    injection Hp as <- <- <- <-; cbn in H1.
  all: try (destruct (cascadeList _ _ _ _) as [[cs1 v1]|] eqn:Ecs; [|done];
            injection H1 as <-;
            destruct (Hcas _ _ _ _ _ Ecs eq_refl "") as [v3 Hv3]; [done|];
            unfold setProperty, stringToProp; cbn;
            match goal with
            | |- context [writeProperty ?a ?b ?c ?d ?e ?f ?g] =>
                pose proof (writeProperty_accepted a b c d e f g Hsp Hsup) as Hw2;
                destruct (writeProperty a b c d e f g) as [z2 e2]; cbn in Hw2; subst e2
            end; cbn; rewrite Hv3; by eexists).
  1,2: destruct (cascadeList _ _ _ _) as [[cs1 v1]|] eqn:Ecs; [|done];
       injection H1 as <-;
       destruct (Hcas _ _ _ _ _ Ecs eq_refl value) as [v3 Hv3];
       [intros _; split; [done|]; specialize (Hst eq_refl);
        by rewrite getInheritedChildren_eq in Hst|];
       unfold setProperty, stringToProp; cbn;
       match goal with
       | |- context [writeProperty ?a ?b ?c ?d ?e ?f ?g] =>
           pose proof (writeProperty_accepted a b c d e f g Hsp Hsup) as Hw2;
           destruct (writeProperty a b c d e f g) as [z2 e2]; cbn in Hw2; subst e2
       end; cbn; rewrite Hv3; by eexists.
  all: destruct (String.eqb value "") eqn:Ev; cbn in H1;
    [change (strconv.Atoi "0") with (Some 0) in H1; cbn in H1
    |destruct (strconv.Atoi (strconv.Itoa lu)) as [lu1|] eqn:Ea; cbn in H1; [|done]];
    (destruct (cascadeList _ _ _ _) as [[cs1 v1]|] eqn:Ecs; [|done]);
    injection H1 as <-;
    (destruct (Hcas _ _ _ _ _ Ecs eq_refl "") as [v3 Hv3]; [done|]);
    unfold setProperty, stringToProp; cbn;
    match goal with
    | |- context [writeProperty ?a ?b ?c ?d ?e ?f ?g] =>
        pose proof (writeProperty_accepted a b c d e f g Hsp Hsup) as Hw2;
        destruct (writeProperty a b c d e f g) as [z2 e2]; cbn in Hw2; subst e2
    end; cbn; rewrite Ev; cbn;
    first [ rewrite (Atoi_Itoa _ (Atoi_inRange _ _ Ea))
          | change (strconv.Atoi "0") with (Some 0) ];
    cbn; rewrite Hv3; by eexists.
Qed.

Lemma setProperty_twice_witness :
  exists d2 : Dataset,
    setProperty writeOk writeOk chainRootAfter MountPointProp "/new" "local"
    = Returned (d2, None)
    /\ Name d2 = Name chainRootAfter /\ IsSnapshot d2 = IsSnapshot chainRootAfter
    /\ props d2 = props chainRootAfter /\ children d2 = children chainRootAfter.
Proof.
  apply (setProperty_twice writeOk writeOk chainRoot chainRootAfter MountPointProp "/new").
  - reflexivity.
  - reflexivity.
  - vm_compute. reflexivity.
  - intros _. vm_compute. repeat constructor.
Defined.

(** C8 fails as stated: with the value [//new] for the mountpoint of the
    root of the chain, the first call mounts A on [/new/A] and the second
    call moves it to [/new/new/A]. *)
Lemma setProperty_twice_differs :
  exists d1 d2 a1 a2 : Dataset,
    setProperty writeOk writeOk chainRoot MountPointProp "//new" "local"
    = Returned (d1, None)
    /\ setProperty writeOk writeOk d1 MountPointProp "//new" "local"
       = Returned (d2, None)
    /\ children d1 = [a1] /\ children d2 = [a2]
    /\ Mountpoint (props a1) = "/new/A"
    /\ Mountpoint (props a2) = "/new/new/A"
    /\ Mountpoint (props a2) <> Mountpoint (props a1).
Proof.
  eexists _, _, _, _. split; [vm_compute; reflexivity|].
  split; [vm_compute; reflexivity|]. repeat split. discriminate.
Qed.

(** * Further properties of the code *)

(** ** [splitSnapshotName] *)

Lemma ContainsRune_last (c : ascii) (s : string) :
  strings.ContainsRune s c = true ->
  exists a b : string, s = a +:+ String c b /\ strings.ContainsRune b c = false.
Proof.
  induction s as [|x s IH]; [done|]. cbn [strings.ContainsRune]. intros H.
  destruct (strings.ContainsRune s c) eqn:Es.
  - destruct (IH eq_refl) as (a & b & -> & Hb). by exists (String x a), b.
  - rewrite orb_false_r in H. apply Ascii.eqb_eq in H as ->. by exists "", s.
Qed.

(** X1: [splitSnapshotName] cuts a name at its last [@]: a name without
    [@] is its own base with an empty trailing name; any other name is
    [base@leaf] for the base and the leaf returned, and the leaf holds no
    [@]. *)
Theorem splitSnapshotName_parts (name : string) :
  (strings.ContainsRune name "@" = false /\ splitSnapshotName name = (name, ""))
  \/ (exists base leaf : string,
        name = base +:+ "@" +:+ leaf
        /\ strings.ContainsRune leaf "@" = false
        /\ splitSnapshotName name = (base, leaf)).
Proof.
  destruct (strings.ContainsRune name "@") eqn:E.
  - right. destruct (ContainsRune_last _ _ E) as (base & leaf & -> & Hleaf).
    exists base, leaf. split; [done|]. split; [done|].
    by apply splitSnapshotName_app.
  - left. split; [done|]. unfold splitSnapshotName.
    by rewrite (LastIndex_absent "@" name E).
Qed.

(** ** [getUserPropertyFromSys] *)

(** X2: [getUserPropertyFromSys] fails exactly when the read of the user
    property fails, and then returns no value and no source and wraps the
    error of the read; when it succeeds, the source it returns is "local",
    "default" or "inherited", or value and source are both empty (the
    property is not set here). *)
Theorem getUserPropertyFromSys_result (prop : propName) (dZFS : libzfsDataset) :
  match snd (getUserPropertyFromSys prop dZFS) with
  | (value, source, Some err) =>
      value = "" /\ source = ""
      /\ exists cause, snd (GetUserProperty dZFS prop) = Some cause
                       /\ err = ErrCantGetProperty prop cause
  | (value, source, None) =>
      snd (GetUserProperty dZFS prop) = None
      /\ ((value = "" /\ source = "")
          \/ source = "local" \/ source = "default" \/ source = "inherited")
  end.
Proof.
  unfold getUserPropertyFromSys.
  destruct (GetUserProperty dZFS prop) as [p [cause|]]; cbn [snd lret].
  { split; [done|]. split; [done|]. by exists cause. }
  destruct (_ && (_ || _)); [cbn; auto|].
  destruct (libzfs_IsSnapshot dZFS); cbn [andb].
  - destruct (negb _); [cbn; auto|].
    rewrite lbind_snd. cbn [llog snd].
    destruct (_ <? 0).
    + rewrite lbind_snd. cbn. auto.
    + cbn [lret snd]. split; [done|]. right. apply sanitizeSource_cases.
  - rewrite lbind_snd. cbn [llog lret snd]. split; [done|]. right.
    apply sanitizeSource_cases.
Qed.

(** ** [RefreshProperties] *)

Lemma getUserPropertyFromSys_error (prop : propName) (dZFS : libzfsDataset) :
  snd (snd (getUserPropertyFromSys prop dZFS)) = None
  <-> snd (GetUserProperty dZFS prop) = None.
Proof.
  unfold getUserPropertyFromSys.
  destruct (GetUserProperty dZFS prop) as [p [cause|]]; cbn [snd lret]; [done|].
  split; [done|]. intros _.
  destruct (_ && (_ || _)); [done|].
  destruct (libzfs_IsSnapshot dZFS); cbn [andb].
  - destruct (negb _); [done|]. rewrite lbind_snd. cbn [llog snd].
    destruct (_ <? 0); [by rewrite lbind_snd|done].
  - by rewrite lbind_snd.
Qed.

(** Steps through [RefreshProperties] in the hypothesis [H]: the branch
    on the kind of dataset and on the pool, then each read of a user
    property and the parse of lastUsed. *)
Ltac refresh_simpl H :=
  repeat first [ rewrite lbind_snd in H
               | progress cbn [lret llog snd fst negb] in H ].

Ltac refresh_steps H :=
  unfold RefreshProperties in H; refresh_simpl H;
  repeat
    (match type of H with
     | context [IsSnapshot ?d] => destruct (IsSnapshot d) eqn:?
     | context [GetPool ?z] => destruct (GetPool z) as [? [?|]] eqn:?
     | context [snd (getUserPropertyFromSys ?p ?z)] =>
         let E := fresh "Eread" in
         destruct (snd (getUserPropertyFromSys p z)) as [[? ?] [?|]] eqn:E
     | context [strconv.Atoi ?s] =>
         let E := fresh "Eatoi" in
         destruct (strconv.Atoi s) eqn:E
     end;
     refresh_simpl H).

(** What [RefreshProperties] returns is the dataset itself, or, on success
    only, the dataset with new properties. *)
Lemma RefreshProperties_cases (d : Dataset) (z : libzfsDataset) :
  fst (snd (RefreshProperties d z)) = d
  \/ (snd (snd (RefreshProperties d z)) = None
      /\ exists p, fst (snd (RefreshProperties d z)) = with_props d p).
Proof.
  destruct (snd (RefreshProperties d z)) as [d' err] eqn:H. cbn [fst snd].
  refresh_steps H;
    try (injection H as <- <-; eauto; fail);
    try (left; congruence).
Qed.

(** X3: [RefreshProperties] writes the properties of the dataset and nothing
    else (name, kind, handle and children stay), and writes them only at its
    very end: when it returns an error, the dataset is entirely as it
    was. *)
Theorem RefreshProperties_all_or_nothing (d : Dataset) (z : libzfsDataset) :
  let r := snd (RefreshProperties d z) in
  Name (fst r) = Name d /\ IsSnapshot (fst r) = IsSnapshot d
  /\ dZFS (fst r) = dZFS d /\ children (fst r) = children d
  /\ (snd r <> None -> fst r = d).
Proof.
  cbv zeta.
  destruct (RefreshProperties_cases d z) as [->|(-> & p & ->)]; [done|].
  by destruct d.
Qed.

(** What the reads met on the way say about the binding. *)
Ltac reads_to_binding :=
  repeat
    match goal with
    | E : snd (getUserPropertyFromSys ?p ?z) = (_, _, _) |- _ =>
        let Hb := fresh "Hread" in
        pose proof (getUserPropertyFromSys_error p z) as Hb;
        rewrite E in Hb; cbn [snd] in Hb;
        generalize E; clear E; intros E%(f_equal (fun r => fst (fst r)));
        cbn [fst] in E
    end.

(** X4: [RefreshProperties] succeeds exactly when the reads of bootfs,
    last-booted-kernel and bootfs-datasets succeed, the text for lastUsed
    is an integer and, for a dataset that is not a snapshot, the pool is
    found and the read of lastUsed succeeds. On a snapshot neither the pool
    nor a failing read of the frozen mountpoint and canmount matter. *)
Theorem RefreshProperties_succeeds_iff (d : Dataset) (dZFS : libzfsDataset) :
  snd (snd (RefreshProperties d dZFS)) = None
  <-> (IsSnapshot d = false ->
       snd (GetPool dZFS) = None /\ snd (GetUserProperty dZFS LastUsedProp) = None)
      /\ snd (GetUserProperty dZFS BootfsProp) = None
      /\ is_Some (strconv.Atoi (lastUsedText d dZFS))
      /\ snd (GetUserProperty dZFS LastBootedKernelProp) = None
      /\ snd (GetUserProperty dZFS BootfsDatasetsProp) = None.
Proof.
  unfold lastUsedText.
  destruct (snd (RefreshProperties d dZFS)) as [d' err] eqn:H. cbn [snd].
  refresh_steps H; injection H as <- <-; reads_to_binding; subst;
    repeat match goal with
           | Hb : _ <-> _ |- _ => destruct Hb
           end;
    (split; [intros ?|intros (? & ? & [? ?] & ? & ?)]);
    repeat match goal with
           | Hi : ?x = ?x -> _ |- _ => specialize (Hi eq_refl)
           | Hi : _ /\ _ |- _ => destruct Hi
           end;
    cbn [fst snd] in *; try done; try congruence; eauto 10.
Qed.

(** X5: after a successful [RefreshProperties] of a dataset that is not a
    snapshot, the mountpoint is the native one with the alternate root of
    the pool trimmed off its front, or [/] when nothing is left, so it is
    never empty; canMount and origin are the native values, and mounted
    tells whether the native value is "yes". *)
Theorem RefreshProperties_filesystem (d d' : Dataset) (dZFS : libzfsDataset) :
  IsSnapshot d = false ->
  snd (RefreshProperties d dZFS) = (d', None) ->
  let native := fun p => Value (prop_at (Properties dZFS) p) in
  let altroot := Value (prop_at (PoolProperties (fst (GetPool dZFS))) PoolPropAltroot) in
  let trimmed := strings.TrimPrefix (native DatasetPropMountpoint) altroot in
  Mountpoint (props d') = (if String.eqb trimmed "" then "/" else trimmed)
  /\ Mountpoint (props d') <> ""
  /\ CanMount (props d') = native DatasetPropCanmount
  /\ Mounted (props d') = String.eqb (native DatasetPropMounted) "yes"
  /\ Origin (props d') = native DatasetPropOrigin.
Proof.
  intros Hsnap H. cbv zeta.
  refresh_steps H; try congruence. injection H as <-.
  cbn [props with_props Mountpoint CanMount Mounted Origin fst].
  split; [done|]. split; [|done].
  destruct (String.eqb_spec
              (strings.TrimPrefix (Value (prop_at (Properties dZFS) DatasetPropMountpoint))
                 (Value (prop_at (PoolProperties p) PoolPropAltroot))) ""); done.
Qed.

Lemma RefreshProperties_filesystem_witness :
  let z := altrootHandle "rpool/ROOT/ubuntu" "/mnt" "/mnt" in
  let d' := fst (snd (RefreshProperties (freshDataset "rpool/ROOT/ubuntu" false z) z)) in
  Mountpoint (props d') = "/"
  /\ Mountpoint (props d') <> ""
  /\ CanMount (props d') = "on"
  /\ Mounted (props d') = true
  /\ Origin (props d') = "".
Proof.
  exact (RefreshProperties_filesystem
           (freshDataset "rpool/ROOT/ubuntu" false
              (altrootHandle "rpool/ROOT/ubuntu" "/mnt" "/mnt"))
           _ (altrootHandle "rpool/ROOT/ubuntu" "/mnt" "/mnt") eq_refl eq_refl).
Defined.

(** X6: after a successful [RefreshProperties] of a snapshot, mounted is
    false, lastUsed is the creation time of the snapshot (0 when the native
    property is empty) and has the empty source; mountpoint and canMount are
    what the frozen user properties read, and where such a property is
    missing or cannot be read the value is empty, with the source
    "inherited" for the mountpoint and the empty source for canMount. *)
Theorem RefreshProperties_snapshot (d d' : Dataset) (dZFS : libzfsDataset) :
  IsSnapshot d = true ->
  snd (RefreshProperties d dZFS) = (d', None) ->
  let frozen := fun p => fst (snd (getUserPropertyFromSys p dZFS)) in
  Mounted (props d') = false
  /\ strconv.Atoi (lastUsedText d dZFS) = Some (LastUsed (props d'))
  /\ sources.LastUsed (sources (props d')) = ""
  /\ Mountpoint (props d') = fst (frozen SnapshotMountpointProp)
  /\ CanMount (props d') = fst (frozen SnapshotCanmountProp)
  /\ (snd (frozen SnapshotMountpointProp) = "" ->
      sources.Mountpoint (sources (props d')) = "inherited")
  /\ (snd (frozen SnapshotCanmountProp) = "" ->
      sources.CanMount (sources (props d')) = "").
Proof.
  intros Hsnap H. cbv zeta. unfold lastUsedText. rewrite Hsnap.
  refresh_steps H; try congruence; injection H as <-;
    cbn [props with_props Mountpoint CanMount Mounted LastUsed sources
         sources.LastUsed sources.Mountpoint sources.CanMount fst snd];
    (split; [done|]); (split; [done|]); (split; [done|]); (split; [done|]);
    (split; [done|]); (split; [by intros ->|]); intros ->;
    by repeat first [ rewrite lbind_snd | progress cbn [lret llog snd fst String.eqb] ].
Qed.

Lemma RefreshProperties_snapshot_witness :
  let z := bareSnapshot "rpool/ROOT/ubuntu@s1" "1600000000" in
  let d' := fst (snd (RefreshProperties (freshDataset "rpool/ROOT/ubuntu@s1" true z) z)) in
  Mounted (props d') = false
  /\ LastUsed (props d') = 1600000000
  /\ Mountpoint (props d') = ""
  /\ sources.Mountpoint (sources (props d')) = "inherited"
  /\ CanMount (props d') = ""
  /\ sources.CanMount (sources (props d')) = "".
Proof.
  destruct (RefreshProperties_snapshot
              (freshDataset "rpool/ROOT/ubuntu@s1" true
                 (bareSnapshot "rpool/ROOT/ubuntu@s1" "1600000000"))
              _ (bareSnapshot "rpool/ROOT/ubuntu@s1" "1600000000") eq_refl eq_refl)
    as (Hm & Hlu & _ & Hmp & Hcm & Hsmp & Hscm).
  cbv zeta. split; [exact Hm|]. split; [|split; [exact Hmp|split; [exact (Hsmp eq_refl)|
    split; [exact Hcm|exact (Hscm eq_refl)]]]].
  vm_compute. reflexivity.
Defined.

(** ** [checkSnapshotHierarchyIntegrity], as a property of the tree *)

Lemma subtree_eq (d : Dataset) :
  subtree d = d :: concat (map subtree (children d)).
Proof.
  destruct d as [n snap p z cs]. cbn [subtree children]. f_equal.
  induction cs as [|c cs IH]; [done|]. cbn [map concat]. by rewrite IH.
Qed.

(** X7: the check succeeds exactly when every dataset it visits that holds
    its snapshot of the given name was called with the flag true: below the
    root, when the dataset just above it holds its own snapshot of that
    name. *)
Theorem checkSnapshotHierarchyIntegrity_iff (N : string) (d : Dataset) :
  forall flag : bool,
    checkSnapshotHierarchyIntegrity d N flag = None
    <-> Forall (fun x => hasSnapshot (fst x) N = true -> snd x = true)
          (visited N d flag).
Proof.
  induction d as [n snap p z cs IHcs] using Dataset_tree_ind. intros flag.
  rewrite checkSnapshotHierarchyIntegrity_eq, visited_eq, Forall_cons.
  cbn [fst snd children].
  generalize (hasSnapshot (mkDataset n snap p z cs) N). intros found.
  assert (Hcs : checkChildren N found cs = None
                <-> Forall (fun x => hasSnapshot (fst x) N = true -> snd x = true)
                      (concat (map (fun c => if IsSnapshot c then []
                                             else visited N c found) cs))).
  { induction IHcs as [|c cs Hc _ IH]; [done|].
    cbn [checkChildren map concat]. rewrite Forall_app.
    destruct (IsSnapshot c).
    - rewrite IH. split; [by split|by intros [_ ?]].
    - rewrite <- (Hc found), <- IH.
      destruct (checkSnapshotHierarchyIntegrity c N found).
      + split; [done|by intros [? _]].
      + split; [by split|by intros [_ ?]]. }
  destruct found, flag; cbn [andb negb]; rewrite ?Hcs.
  all: try (split; [by split|by intros [_ ?]]).
  split; [done|]. intros [H _]. by specialize (H eq_refl).
Qed.

(** X8: called with the flag false, the check succeeds exactly when none of
    the datasets reached from the root through datasets that are not
    snapshots holds a snapshot of the given name. *)
Theorem checkSnapshotHierarchyIntegrity_false_iff (N : string) (d : Dataset) :
  checkSnapshotHierarchyIntegrity d N false = None
  <-> Forall (fun x => hasSnapshot (fst x) N = false) (visited N d false).
Proof.
  induction d as [n snap p z cs IHcs] using Dataset_tree_ind.
  rewrite checkSnapshotHierarchyIntegrity_eq, visited_eq, Forall_cons.
  cbn [fst snd children].
  destruct (hasSnapshot (mkDataset n snap p z cs) N) eqn:Hfound; cbn [andb negb].
  { split; [done|]. by intros [? _]. }
  assert (Hcs : checkChildren N false cs = None
                <-> Forall (fun x => hasSnapshot (fst x) N = false)
                      (concat (map (fun c => if IsSnapshot c then []
                                             else visited N c false) cs))).
  { clear Hfound. induction IHcs as [|c cs Hc _ IH]; [done|].
    cbn [checkChildren map concat]. rewrite Forall_app.
    destruct (IsSnapshot c).
    - rewrite IH. split; [by split|by intros [_ ?]].
    - rewrite <- Hc, <- IH.
      destruct (checkSnapshotHierarchyIntegrity c N false).
      + split; [done|by intros [? _]].
      + split; [by split|by intros [_ ?]]. }
  rewrite Hcs. split; [by split|by intros [_ ?]].
Qed.

(** ** [checkNoClone] *)

Lemma checkNoClone_eq (Clones : libzfsDataset -> list string * option error)
    (d : Dataset) :
  checkNoClone Clones d
  = match snd (Clones (dZFS d)) with
    | Some _ => Some (ErrCouldntScanClones (Name d))
    | None =>
      match fst (Clones (dZFS d)) with
      | _ :: _ => Some (ErrHasClones (Name d))
      | [] => checkNoCloneChildren (checkNoClone Clones) (children d)
      end
    end.
Proof.
  destruct d as [n snap p z cs]. cbn [checkNoClone dZFS Name children].
  destruct (Clones z) as [[|c clones] [e|]]; done.
Qed.

Lemma checkNoClone_scan (Clones : libzfsDataset -> list string * option error)
    (d : Dataset) :
  match checkNoClone Clones d with
  | None => Forall (cloneFree Clones) (subtree d)
  | Some err => offender Clones d err
  end.
Proof.
  unfold offender.
  induction d as [n snap p z cs IHcs] using Dataset_tree_ind.
  rewrite checkNoClone_eq, subtree_eq. cbn [dZFS Name children].
  destruct (Clones z) as [clones [e|]] eqn:Ez; cbn [fst snd].
  { exists [], (mkDataset n snap p z cs), (concat (map subtree cs)).
    cbn [dZFS Name]. rewrite Ez. split; [done|]. split; [done|]. by left. }
  destruct clones as [|c clones].
  2:{ exists [], (mkDataset n snap p z cs), (concat (map subtree cs)).
      cbn [dZFS Name]. rewrite Ez. split; [done|]. split; [done|]. by right. }
  assert (Hroot : cloneFree Clones (mkDataset n snap p z cs)).
  { unfold cloneFree. cbn [dZFS]. by rewrite Ez. }
  assert (Hcs : match checkNoCloneChildren (checkNoClone Clones) cs with
                | None => Forall (cloneFree Clones) (concat (map subtree cs))
                | Some err =>
                  exists pre x post,
                    concat (map subtree cs) = pre ++ x :: post
                    /\ Forall (cloneFree Clones) pre
                    /\ ((snd (Clones (dZFS x)) <> None
                         /\ err = ErrCouldntScanClones (Name x))
                        \/ (snd (Clones (dZFS x)) = None
                            /\ fst (Clones (dZFS x)) <> []
                            /\ err = ErrHasClones (Name x)))
                end).
  { clear Hroot Ez. induction IHcs as [|c cs Hc _ IH]; [by constructor|].
    cbn [checkNoCloneChildren map concat].
    destruct (checkNoClone Clones c) as [e|].
    - destruct Hc as (pre & x & post & Hs & Hpre & Hx).
      exists pre, x, (post ++ concat (map subtree cs)).
      rewrite Hs, <- app_assoc. done.
    - destruct (checkNoCloneChildren (checkNoClone Clones) cs) as [e|].
      + destruct IH as (pre & x & post & Hs & Hpre & Hx).
        exists (subtree c ++ pre), x, post. rewrite Hs, <- app_assoc.
        split; [done|]. split; [|done]. by apply Forall_app.
      + by apply Forall_app. }
  destruct (checkNoCloneChildren (checkNoClone Clones) cs) as [e|].
  - destruct Hcs as (pre & x & post & Hs & Hpre & Hx).
    exists (mkDataset n snap p z cs :: pre), x, post. rewrite Hs.
    split; [done|]. split; [by constructor|done].
  - by constructor.
Qed.

(** X9: [checkNoClone] succeeds exactly when, for every dataset of the tree,
    snapshots included, the scan for clones succeeds and finds none. *)
Theorem checkNoClone_iff (Clones : libzfsDataset -> list string * option error)
    (d : Dataset) :
  checkNoClone Clones d = None <-> Forall (cloneFree Clones) (subtree d).
Proof.
  pose proof (checkNoClone_scan Clones d) as H.
  destruct (checkNoClone Clones d) as [err|]; [|done].
  split; [done|]. intros Hall.
  destruct H as (pre & x & post & Hs & _ & Hx). rewrite Hs in Hall.
  apply Forall_app in Hall as [_ [[Hok Hnone] _]%Forall_cons].
  destruct Hx as [[? _]|(_ & ? & _)]; done.
Qed.

(** X10: when [checkNoClone] fails, its error names the first dataset of the
    tree, parent before children and children in order, whose scan for
    clones fails or finds a clone: every dataset before it is free of
    clones, and what the datasets after it hold does not matter. *)
Theorem checkNoClone_first_offender
    (Clones : libzfsDataset -> list string * option error)
    (d : Dataset) (err : cloneError) :
  checkNoClone Clones d = Some err ->
  exists pre x post,
    subtree d = pre ++ x :: post
    /\ Forall (cloneFree Clones) pre
    /\ ((snd (Clones (dZFS x)) <> None /\ err = ErrCouldntScanClones (Name x))
        \/ (snd (Clones (dZFS x)) = None /\ fst (Clones (dZFS x)) <> []
            /\ err = ErrHasClones (Name x))).
Proof.
  intros H. pose proof (checkNoClone_scan Clones d) as Hscan.
  rewrite H in Hscan. exact Hscan.
Qed.

Lemma checkNoClone_first_offender_witness :
  let tree :=
    filesystem "rpool"
      [ filesystem "rpool/A" [snapshotOf "rpool/A" "daily"];
        filesystem "rpool/B" [snapshotOf "rpool/B" "daily"] ] in
  exists pre x post,
    subtree tree = pre ++ x :: post
    /\ Forall (cloneFree clonesOfDaily) pre
    /\ ((snd (clonesOfDaily (dZFS x)) <> None
         /\ ErrHasClones "rpool/A@daily" = ErrCouldntScanClones (Name x))
        \/ (snd (clonesOfDaily (dZFS x)) = None
            /\ fst (clonesOfDaily (dZFS x)) <> []
            /\ ErrHasClones "rpool/A@daily" = ErrHasClones (Name x))).
Proof.
  exact (checkNoClone_first_offender clonesOfDaily
           (filesystem "rpool"
              [ filesystem "rpool/A" [snapshotOf "rpool/A" "daily"];
                filesystem "rpool/B" [snapshotOf "rpool/B" "daily"] ])
           (ErrHasClones "rpool/A@daily") eq_refl).
Defined.

(** ** [newDatasetTree] *)

(** Induction over the native tree. *)
Lemma nativeDataset_tree_ind (P : nativeDataset -> Prop) :
  (forall z cs, Forall P cs -> P (mkNative z cs)) ->
  forall n, P n.
Proof.
  intros H. fix IH 1. intros [z cs]. apply H.
  induction cs as [|c cs IHcs]; constructor; [apply IH | exact IHcs].
Qed.

Lemma kept_eq (z : libzfsDataset) (cs : list nativeDataset) :
  kept (mkNative z cs)
  = match Type_ z with
    | DatasetTypeVolume | DatasetTypeBookmark => []
    | _ => z :: concat (map kept cs)
    end.
Proof.
  cbn [kept]. destruct (Type_ z); try done.
  all: f_equal; induction cs as [|c cs IH]; [done|]; cbn [map concat]; by rewrite IH.
Qed.

Lemma kept_types (n : nativeDataset) :
  Forall (fun z => Type_ z = DatasetTypeFilesystem \/ Type_ z = DatasetTypeSnapshot)
    (kept n).
Proof.
  induction n as [z cs IHcs] using nativeDataset_tree_ind. rewrite kept_eq.
  assert (Hcs : Forall (fun z => Type_ z = DatasetTypeFilesystem
                                 \/ Type_ z = DatasetTypeSnapshot)
                  (concat (map kept cs))).
  { induction IHcs as [|c cs Hc _ IH]; [by constructor|].
    cbn [map concat]. by apply Forall_app. }
  destruct (Type_ z) eqn:E; constructor; auto.
Qed.

(** The node after its refresh: the new node, or the new node with new
    properties. *)
Lemma scanned_node (z : libzfsDataset) :
  Name (fst (scanned z)) = nameOf z
  /\ IsSnapshot (fst (scanned z)) = libzfs_IsSnapshot z
  /\ dZFS (fst (scanned z)) = z
  /\ children (fst (scanned z)) = [].
Proof.
  unfold scanned.
  destruct (RefreshProperties_cases
              (freshDataset (nameOf z) (libzfs_IsSnapshot z) z) z)
    as [->|(_ & p & ->)]; done.
Qed.

Lemma registers_nil (reg : gmap string Dataset) : registers reg reg [].
Proof. split; [done|]. by intros x Hx%elem_of_nil. Qed.

Lemma registers_app (reg reg1 reg2 : gmap string Dataset) (l1 l2 : list Dataset) :
  registers reg reg1 l1 -> registers reg1 reg2 l2 -> registers reg reg2 (l1 ++ l2).
Proof.
  intros [F1 R1] [F2 R2]. split.
  - intros k Hk. rewrite fmap_app, elem_of_app in Hk.
    rewrite F2, F1; [done|tauto|tauto].
  - intros x Hx.
    destruct (decide (Name x ∈ (Name <$> l2))) as [Hin|Hout].
    + apply list_elem_of_fmap_1 in Hin as (x2 & Hn & Hx2).
      destruct (R2 x2 Hx2) as (y & Hy & Hny & Hl).
      exists y. rewrite elem_of_app, Hn. split; [by right|]. by rewrite Hny.
    + apply elem_of_app in Hx as [Hx|Hx].
      2:{ exfalso. apply Hout. by apply (list_elem_of_fmap_2 Name). }
      destruct (R1 x Hx) as (y & Hy & Hny & Hl).
      exists y. rewrite elem_of_app, F2; [|done]. split; [by left|done].
Qed.

Lemma registers_cons (reg reg' : gmap string Dataset) (d : Dataset) (l : list Dataset) :
  registers reg reg' l -> registers reg (<[Name d := d]> reg') (d :: l).
Proof.
  intros [F R]. split.
  - intros k Hk. rewrite fmap_cons, not_elem_of_cons in Hk.
    destruct Hk as [Hne Hk]. rewrite lookup_insert_ne; [by apply F|done].
  - intros x Hx. destruct (decide (Name x = Name d)) as [Heq|Hne].
    + exists d. rewrite Heq, lookup_insert_eq. split; [by left|done].
    + apply elem_of_cons in Hx as [->|Hx]; [done|].
      destruct (R x Hx) as (y & Hy & Hny & Hl).
      exists y. rewrite lookup_insert_ne; [|done]. split; [by right|done].
Qed.

Lemma firstFailure_wrap (l : list libzfsDataset) (err : scanError) :
  firstFailure l err -> firstFailure l (ErrCouldntScan err).
Proof. intros (pre & z & post & e & H). by exists pre, z, post, e. Qed.

Lemma firstFailure_app_l (l1 l2 : list libzfsDataset) (err : scanError) :
  firstFailure l1 err -> firstFailure (l1 ++ l2) err.
Proof.
  intros (pre & z & post & e & -> & H). exists pre, z, (post ++ l2), e.
  by rewrite <- app_assoc.
Qed.

Lemma firstFailure_app_r (l1 l2 : list libzfsDataset) (err : scanError) :
  Forall (fun z => snd (scanned z) = None) l1 ->
  firstFailure l2 err -> firstFailure (l1 ++ l2) err.
Proof.
  intros Hl1 (pre & z & post & e & -> & Hpre & H). exists (l1 ++ pre), z, post, e.
  rewrite <- app_assoc. split; [done|]. split; [by apply Forall_app|done].
Qed.

Lemma scanChildren_scan (cs : list nativeDataset) :
  Forall (fun c => forall reg, scanSpec c reg (snd (newDatasetTree c reg))) cs ->
  forall (reg : gmap string Dataset) (acc : list Dataset),
    match snd (snd (scanChildren newDatasetTree cs reg acc)) with
    | inl children =>
      exists new,
        children = acc ++ new
        /\ mirrorsChildren mirrors cs new
        /\ concat (map (fun c => dZFS <$> subtree c) new) = concat (map kept cs)
        /\ Forall builtNode (concat (map subtree new))
        /\ Forall (fun z => snd (scanned z) = None) (concat (map kept cs))
        /\ registers reg (fst (snd (scanChildren newDatasetTree cs reg acc)))
             (concat (map subtree new))
    | inr err =>
      exists err', err = ErrCouldntScan err' /\ firstFailure (concat (map kept cs)) err'
    end.
Proof.
  induction 1 as [|c cs Hc _ IH]; intros reg acc.
  { cbn [scanChildren snd fst map concat mirrorsChildren]. exists []. rewrite app_nil_r.
    repeat split; try done. apply registers_nil. }
  cbn [scanChildren map concat]. specialize (Hc reg). unfold scanSpec in Hc.
  destruct (newDatasetTree c reg) as [log [reg1 r]]. cbn [fst snd] in Hc.
  destruct r as [|node|err].
  - destruct Hc as [Hk ->]. rewrite Hk. cbn [app].
    specialize (IH reg acc).
    destruct (scanChildren newDatasetTree cs reg acc) as [log' [reg2 res]].
    cbn [fst snd] in *.
    destruct c as [zc csc]. rewrite kept_eq in Hk. cbn [mirrorsChildren handle].
    destruct (Type_ zc); try done; exact IH.
  - destruct Hc as (Hm & Hh & Hb & Hok & Hr).
    specialize (IH reg1 (acc ++ [node])).
    destruct (scanChildren newDatasetTree cs reg1 (acc ++ [node])) as [log' [reg2 res]].
    cbn [fst snd] in *. destruct res as [children|e].
    + destruct IH as (new & -> & Hm' & Hh' & Hb' & Hok' & Hr').
      exists (node :: new). rewrite <- app_assoc. cbn [map concat app].
      rewrite Hh, Hh'. split; [done|]. split.
      { destruct c as [zc csc]. cbn [mirrorsChildren handle].
        rewrite kept_eq in Hh.
        destruct (Type_ zc); try done; destruct node; by rewrite subtree_eq in Hh. }
      split; [done|].
      split; [by apply Forall_app|]. split; [by apply Forall_app|].
      by apply registers_app with reg1.
    + destruct IH as (err' & -> & Hf). exists err'. split; [done|].
      by apply firstFailure_app_r.
  - cbn [fst snd]. exists err. split; [done|]. by apply firstFailure_app_l.
Qed.

Lemma newDatasetTree_scan (n : nativeDataset) :
  forall reg, scanSpec n reg (snd (newDatasetTree n reg)).
Proof.
  induction n as [z cs IHcs] using nativeDataset_tree_ind. intros reg.
  pose proof (scanChildren_scan cs IHcs reg []) as Hcs.
  unfold scanSpec. rewrite kept_eq. cbn [newDatasetTree].
  pose proof (scanned_node z) as (Hname & Hsnap & Hz & Hch).
  unfold scanned in Hname, Hsnap, Hz, Hch.
  change (mkDatasetProp "" "" false false 0 "" "" "" sources.zero) with zeroProp.
  change (mkDataset (Value (prop_at (Properties z) DatasetPropName))
            (libzfs_IsSnapshot z) zeroProp z [])
    with (freshDataset (nameOf z) (libzfs_IsSnapshot z) z).
  destruct (RefreshProperties (freshDataset (nameOf z) (libzfs_IsSnapshot z) z) z)
    as [rlog [node [e|]]] eqn:Er; cbn [fst snd] in *.
  { destruct (Type_ z); cbn [fst snd]; try done.
    all: exists [], z, (concat (map kept cs)), e.
    all: unfold scanned; rewrite Er; cbn [snd fst rootCause]; by rewrite Hname. }
  destruct (scanChildren newDatasetTree cs reg []) as [clog [reg1 res]].
  cbn [fst snd] in Hcs.
  assert (Hgoal : match res with
                  | inr e => firstFailure (z :: concat (map kept cs)) e
                  | inl children =>
                    let node' := with_children node children in
                    mirrors (mkNative z cs) node'
                    /\ dZFS <$> subtree node' = z :: concat (map kept cs)
                    /\ Forall builtNode (subtree node')
                    /\ Forall (fun z => snd (scanned z) = None)
                         (z :: concat (map kept cs))
                    /\ registers reg (<[Name node' := node']> reg1) (subtree node')
                  end).
  { assert (Hzok : snd (scanned z) = None) by (unfold scanned; by rewrite Er).
    destruct res as [children|err].
    - destruct Hcs as (new & -> & Hm & Hh & Hb & Hok & Hr). cbn [app] in *. cbv zeta.
      split; [by cbn [mirrors with_children children dZFS]|].
      rewrite subtree_eq, fmap_cons. cbn [with_children children dZFS].
      rewrite Hz. split.
      { f_equal. rewrite <- Hh. clear. induction new as [|c new IH]; [done|].
        cbn [map concat]. by rewrite fmap_app, IH. }
      split.
      { constructor; [|done]. unfold builtNode. cbn [dZFS with_children Name IsSnapshot props].
        rewrite Hz. split; [done|]. unfold scanned. rewrite Er. cbn [fst].
        destruct node as [a b c d ch]. cbn in Hch. by rewrite Hch. }
      split; [by constructor|].
      by apply registers_cons.
    - destruct Hcs as (err' & -> & Hf).
      apply firstFailure_wrap. apply (firstFailure_app_r [z]); [by constructor|done]. }
  destruct (Type_ z); cbn [fst snd]; try done.
  all: destruct res as [children|err]; cbn [fst snd]; exact Hgoal.
Qed.

(** X11: the tree that [newDatasetTree] builds mirrors the native tree with
    the volumes and bookmarks, and all below them, left out: the root
    carries the handle of the native root, and at every level the children
    of a dataset are, one for one and in order, the trees built for the
    native children that are no volume and no bookmark. So its datasets
    carry, parent first, the handles scanned. Every dataset of it has the
    name and the kind of its handle, which is a file system or a snapshot,
    and the properties that [RefreshProperties] read through that handle
    without an error. *)
Theorem newDatasetTree_mirrors (n : nativeDataset) (reg reg' : gmap string Dataset)
    (log : list scanLog) (node : Dataset) :
  newDatasetTree n reg = (log, (reg', Built node)) ->
  mirrors n node
  /\ dZFS <$> subtree node = kept n
  /\ forall x, x ∈ subtree node ->
       Name x = nameOf (dZFS x)
       /\ IsSnapshot x = libzfs_IsSnapshot (dZFS x)
       /\ (Type_ (dZFS x) = DatasetTypeFilesystem \/ Type_ (dZFS x) = DatasetTypeSnapshot)
       /\ snd (scanned (dZFS x)) = None
       /\ props x = props (fst (scanned (dZFS x))).
Proof.
  intros H. pose proof (newDatasetTree_scan n reg) as Hs. unfold scanSpec in Hs.
  rewrite H in Hs. cbn [fst snd] in Hs. destruct Hs as (Hm & Hh & Hb & _ & _).
  split; [done|]. split; [done|]. intros x Hx.
  pose proof (kept_types n) as Hty. rewrite <- Hh in Hty.
  rewrite Forall_forall in Hb. rewrite Forall_forall in Hty.
  destruct (Hb x Hx) as [Hok Hx']. pose proof (scanned_node (dZFS x)) as (Hn & Hsn & _).
  rewrite <- Hx' in Hn, Hsn. cbn [with_children Name IsSnapshot] in Hn, Hsn.
  split; [done|]. split; [done|]. split.
  { apply Hty. by apply (list_elem_of_fmap_2 dZFS). }
  split; [done|]. by rewrite <- Hx'.
Qed.

Lemma newDatasetTree_mirrors_witness :
  mirrors examplePool exampleTree
  /\ dZFS <$> subtree exampleTree = kept examplePool
  /\ forall x, x ∈ subtree exampleTree ->
       Name x = nameOf (dZFS x)
       /\ IsSnapshot x = libzfs_IsSnapshot (dZFS x)
       /\ (Type_ (dZFS x) = DatasetTypeFilesystem \/ Type_ (dZFS x) = DatasetTypeSnapshot)
       /\ snd (scanned (dZFS x)) = None
       /\ props x = props (fst (scanned (dZFS x))).
Proof.
  apply (newDatasetTree_mirrors examplePool ∅
           (fst (snd (newDatasetTree examplePool ∅)))
           (fst (newDatasetTree examplePool ∅)) exampleTree).
  vm_compute. reflexivity.
Defined.

(** X12: after [newDatasetTree] built a tree, the registry holds, under the
    name of each dataset of the tree, a dataset of the tree of that name,
    and the root under the name of the root; every other name is as it was
    before. When the names of the tree are all different, the registry
    leads from the name of each dataset of the tree to that very
    dataset. *)
Theorem newDatasetTree_registry (n : nativeDataset) (reg reg' : gmap string Dataset)
    (log : list scanLog) (node : Dataset) :
  newDatasetTree n reg = (log, (reg', Built node)) ->
  reg' !! Name node = Some node
  /\ (forall k, k ∉ (Name <$> subtree node) -> reg' !! k = reg !! k)
  /\ (forall x, x ∈ subtree node ->
        exists y, y ∈ subtree node /\ Name y = Name x /\ reg' !! Name x = Some y)
  /\ (NoDup ((Name <$> subtree node)) ->
      forall x, x ∈ subtree node -> reg' !! Name x = Some x).
Proof.
  intros H. pose proof (newDatasetTree_scan n reg) as Hs. unfold scanSpec in Hs.
  rewrite H in Hs. cbn [fst snd] in Hs. destruct Hs as (_ & _ & _ & _ & [F R]).
  split.
  { destruct n as [z cs]. cbn [newDatasetTree] in H.
    destruct (Type_ z); try done.
    all: destruct (RefreshProperties _ z) as [rlog [node1 [e|]]]; [done|].
    all: destruct (scanChildren newDatasetTree cs reg []) as [clog [reg1 [children|e]]];
      [|done].
    all: injection H as _ <- <-; apply lookup_insert_eq. }
  split; [done|]. split; [done|].
  intros Hnd x Hx. destruct (R x Hx) as (y & Hy & Hny & Hl).
  rewrite Hl. f_equal. clear -Hnd Hx Hy Hny.
  induction (subtree node) as [|a l IH]; [by apply elem_of_nil in Hx|].
  rewrite fmap_cons in Hnd. apply NoDup_cons in Hnd as [Ha Hnd].
  apply elem_of_cons in Hx as [->|Hx], Hy as [->|Hy]; try done.
  - exfalso. apply Ha. rewrite <- Hny. by apply (list_elem_of_fmap_2 Name).
  - exfalso. apply Ha. rewrite Hny. by apply (list_elem_of_fmap_2 Name).
  - by apply IH.
Qed.

Lemma newDatasetTree_registry_witness :
  let reg' := fst (snd (newDatasetTree examplePool ∅)) in
  reg' !! Name exampleTree = Some exampleTree
  /\ (forall k, k ∉ (Name <$> subtree exampleTree) -> reg' !! k = (∅ : gmap string Dataset) !! k)
  /\ (forall x, x ∈ subtree exampleTree ->
        exists y, y ∈ subtree exampleTree /\ Name y = Name x /\ reg' !! Name x = Some y)
  /\ (NoDup ((Name <$> subtree exampleTree)) ->
      forall x, x ∈ subtree exampleTree -> reg' !! Name x = Some x).
Proof.
  apply (newDatasetTree_registry examplePool ∅
           (fst (snd (newDatasetTree examplePool ∅)))
           (fst (newDatasetTree examplePool ∅)) exampleTree).
  vm_compute. reflexivity.
Defined.

(** X13: [newDatasetTree] skips a dataset exactly when it is a volume or a
    bookmark, and fails exactly when the refresh of one of the handles it
    scans fails; otherwise it builds a tree. A skipped dataset leaves the
    registry as it was. *)
Theorem newDatasetTree_outcome (n : nativeDataset) (reg : gmap string Dataset) :
  let r := snd (newDatasetTree n reg) in
  (snd r = Skipped
   <-> Type_ (handle n) = DatasetTypeVolume \/ Type_ (handle n) = DatasetTypeBookmark)
  /\ (snd r = Skipped -> fst r = reg)
  /\ ((exists err, snd r = Failed err)
      <-> Exists (fun z => snd (scanned z) <> None) (kept n)).
Proof.
  cbv zeta. pose proof (newDatasetTree_scan n reg) as Hs. unfold scanSpec in Hs.
  assert (Hk : kept n = []
               <-> Type_ (handle n) = DatasetTypeVolume
                   \/ Type_ (handle n) = DatasetTypeBookmark).
  { destruct n as [z cs]. rewrite kept_eq. cbn [handle].
    destruct (Type_ z); split; try done; try tauto; intros [?|?]; done. }
  destruct (snd (newDatasetTree n reg)) as [reg' [|node|err]]; cbn [fst snd] in *.
  - destruct Hs as [Hn ->]. split; [by rewrite <- Hk|]. split; [done|].
    rewrite Hn. split; [by intros [? ?]|]. by intros ?%Exists_nil.
  - destruct Hs as (_ & Hh & _ & Hok & _). split.
    { rewrite <- Hk. split; [done|]. intros Hn. rewrite Hn in Hh.
      destruct node; by rewrite subtree_eq in Hh. }
    split; [done|]. split; [by intros [? ?]|].
    intros Hex. apply Exists_exists in Hex as (z & Hz & Hbad).
    rewrite Forall_forall in Hok. by specialize (Hok z Hz).
  - destruct Hs as (pre & z & post & e & Hs & _ & He & _). split.
    { rewrite <- Hk, Hs. split; [done|]. by destruct pre. }
    split; [done|]. split; [|by eauto]. intros _. rewrite Hs.
    apply Exists_app. right. constructor. by rewrite He.
Qed.

(** X14: when [newDatasetTree] fails, the error is the one of the first
    handle, parent before children and children in order, whose refresh
    fails: under its wrappings it names that dataset and carries the error
    of [RefreshProperties]. *)
Theorem newDatasetTree_first_failure (n : nativeDataset) (reg reg' : gmap string Dataset)
    (log : list scanLog) (err : scanError) :
  newDatasetTree n reg = (log, (reg', Failed err)) ->
  exists pre z post e,
    kept n = pre ++ z :: post
    /\ Forall (fun z => snd (scanned z) = None) pre
    /\ snd (scanned z) = Some e
    /\ rootCause err = (nameOf z, e).
Proof.
  intros H. pose proof (newDatasetTree_scan n reg) as Hs. unfold scanSpec in Hs.
  rewrite H in Hs. exact Hs.
Qed.

Lemma newDatasetTree_first_failure_witness :
  exists pre z post e,
    kept brokenPool = pre ++ z :: post
    /\ Forall (fun z => snd (scanned z) = None) pre
    /\ snd (scanned z) = Some e
    /\ rootCause
         (ErrCouldntScan
            (ErrCouldntScan
               (ErrCouldntRefresh "rpool/ROOT@s1" (ErrNotAnInt LastUsedProp))))
       = (nameOf z, e).
Proof.
  apply (newDatasetTree_first_failure brokenPool ∅
           (fst (snd (newDatasetTree brokenPool ∅)))
           (fst (newDatasetTree brokenPool ∅))).
  vm_compute. reflexivity.
Defined.

(** ** [setProperty]: the datasets below *)

Lemma with_children_children (c : Dataset) : with_children c (children c) = c.
Proof. by destruct c. Qed.

Lemma with_children_twice (c : Dataset) (cs cs' : list Dataset) :
  with_children (with_children c cs) cs' = with_children c cs'.
Proof. by destruct c. Qed.

Lemma Forall2_same {A : Type} (R : A -> A -> Prop) (l : list A) :
  (forall x, R x x) -> Forall2 R l l.
Proof. intros H. induction l; by constructor. Qed.

Lemma inheritsProperty_not_snapshot (c : Dataset) (name : propName) :
  inheritsProperty c name = Returned true -> IsSnapshot c = false.
Proof.
  unfold inheritsProperty.
  destruct (stringToProp c name) as [[[[? ?] ?] ?]|]; [|done].
  by destruct (IsSnapshot c).
Qed.

Section Trace.

Variable name : propName.
Variable value : string.

Lemma cascadeList_trace (old : string) (cs : list Dataset) :
  Forall (fun c =>
    forall (v0 : string) (c1 : Dataset) (v1 : string),
      cascade name old v0 c = Returned (c1, v1) ->
      sameValue name value v0 ->
      inheritsProperty c name = Returned true ->
      sameValue name value v1
      /\ inheritsProperty c1 name = Returned true
      /\ Forall2 (stepped name value old) (subtree c) (subtree c1)
      /\ Forall2 (refreshedFrom name value old)
           (c :: sentDown name (children c)) (c1 :: sentDown name (children c1))) cs ->
  forall (v0 : string) (cs1 : list Dataset) (v1 : string),
    cascadeList name (cascade name old) v0 cs = Returned (cs1, v1) ->
    sameValue name value v0 ->
    sameValue name value v1
    /\ length cs1 = length cs
    /\ Forall2 (stepped name value old)
         (concat (map subtree cs)) (concat (map subtree cs1))
    /\ Forall2 (refreshedFrom name value old) (sentDown name cs) (sentDown name cs1).
Proof.
  induction 1 as [|c cs Hc _ IH]; intros v0 cs1 v1 Hrun Hv0.
  - injection Hrun as <- <-. repeat split; try done; constructor.
  - cbn [cascadeList] in Hrun.
    destruct (inheritsProperty c name) as [[]|] eqn:Hinh; [| |done].
    + destruct (cascade name old v0 c) as [[c1 v']|] eqn:Ec; [|done].
      destruct (cascadeList name (cascade name old) v' cs) as [[cs' v'']|] eqn:Ecs; [|done].
      injection Hrun as <- <-.
      destruct (Hc _ _ _ Ec Hv0 eq_refl) as (Hv' & Hinh1 & Hsub & Hsent).
      destruct (IH _ _ _ Ecs Hv') as (Hv'' & Hlen & Hsubs & Hsents).
      split; [done|]. split; [by cbn [length]; rewrite Hlen|].
      cbn [map concat sentDown]. rewrite Hinh, Hinh1. split.
      * by apply Forall2_app.
      * rewrite !getInheritedChildren_eq, !app_comm_cons. by apply Forall2_app.
    + destruct (cascadeList name (cascade name old) v0 cs) as [[cs' v'']|] eqn:Ecs; [|done].
      injection Hrun as <- <-.
      destruct (IH _ _ _ Ecs Hv0) as (Hv'' & Hlen & Hsubs & Hsents).
      split; [done|]. split; [by cbn [length]; rewrite Hlen|].
      cbn [map concat sentDown]. rewrite Hinh. split; [|done].
      apply Forall2_app; [|done]. apply Forall2_same. by left.
Qed.

Lemma cascade_trace (old : string) (c : Dataset) :
  forall (v0 : string) (c1 : Dataset) (v1 : string),
    cascade name old v0 c = Returned (c1, v1) ->
    sameValue name value v0 ->
    inheritsProperty c name = Returned true ->
    sameValue name value v1
    /\ inheritsProperty c1 name = Returned true
    /\ Forall2 (stepped name value old) (subtree c) (subtree c1)
    /\ Forall2 (refreshedFrom name value old)
         (c :: sentDown name (children c)) (c1 :: sentDown name (children c1)).
Proof.
  induction c as [n snap p z cs IHcs] using Dataset_tree_ind.
  intros v0 c1 v1 Hrun Hv0 Hinh. rewrite cascade_eq in Hrun.
  destruct (refreshChild name old v0 _) as [[c' v']|] eqn:Er; [|done].
  cbn [children] in Hrun.
  destruct (cascadeList name (cascade name old) v' cs) as [[cs1 v'']|] eqn:Ecs; [|done].
  injection Hrun as <- <-.
  destruct (refreshChild_again _ _ _ _ _ _ _ Er Hv0 Hinh) as (Hv' & Hinh' & Hch & _).
  destruct (cascadeList_trace old cs IHcs _ _ _ Ecs Hv') as (Hv'' & Hlen & Hsubs & Hsents).
  assert (Hcs1 : children (with_children c' cs1) = cs1) by by destruct c'.
  assert (Hroot : refreshedFrom name value old (mkDataset n snap p z cs)
                    (with_children c' cs1)).
  { split; [done|]. rewrite Hcs1. split; [done|]. exists v0, v'. split; [done|].
    cbn [children] in *. rewrite with_children_twice.
    replace (with_children c' cs) with c'; [done|].
    by rewrite <- Hch, with_children_children. }
  split; [done|]. split; [by rewrite inheritsProperty_children|].
  rewrite !subtree_eq, Hcs1. cbn [children]. split.
  - constructor; [by right|done].
  - by constructor.
Qed.

Lemma cascadeList_traced (old : string) (cs : list Dataset) :
  forall (v0 : string) (cs1 : list Dataset) (v1 : string),
    cascadeList name (cascade name old) v0 cs = Returned (cs1, v1) ->
    sameValue name value v0 ->
    length cs1 = length cs
    /\ Forall2 (stepped name value old)
         (concat (map subtree cs)) (concat (map subtree cs1))
    /\ Forall2 (refreshedFrom name value old) (sentDown name cs) (sentDown name cs1).
Proof.
  intros v0 cs1 v1 Hrun Hv0.
  destruct (cascadeList_trace old cs) with (v0 := v0) (cs1 := cs1) (v1 := v1)
    as (_ & H); [|done|done|done].
  apply Forall_forall. intros c _. apply cascade_trace.
Qed.

End Trace.

Lemma refreshedFrom_framed (name : propName) (value old : string) (x x' : Dataset) :
  refreshedFrom name value old x x' -> framed name x x'.
Proof.
  intros (Hinh & Hlen & v & v' & _ & Hr).
  pose proof (inheritsProperty_not_snapshot _ _ Hinh) as Hsnap.
  destruct x as [n snap p z cs]. cbn in Hsnap. subst snap.
  destruct x' as [n' snap' p' z' cs']. cbn [children with_children Name IsSnapshot props dZFS] in *.
  destruct p as [mp cm mtd bfs lu lbk bds org [smp scm sbf slu slbk sbds]].
  unfold refreshChild, stringToProp in Hr.
  destruct name; try done; cbn in Hr;
    rewrite ?bool_decide_eq_true_2 in Hr by done; cbn in Hr;
    try (destruct (strconv.Atoi _); [|done]);
    injection Hr as <- <- <- <-;
    (split; [unfold identity; cbn; by rewrite Hlen|]);
    intros name2 Hs Hne; destruct name2; done.
Qed.

Lemma framed_refl (name : propName) (x : Dataset) : framed name x x.
Proof. by split. Qed.

Lemma stepped_framed (name : propName) (value old : string) (l l' : list Dataset) :
  Forall2 (stepped name value old) l l' -> Forall2 (framed name) l l'.
Proof.
  intros Hl. eapply Forall2_impl; [exact Hl|].
  intros x x' [->|H]; [apply framed_refl|].
  by apply refreshedFrom_framed with value old.
Qed.

(** What the receiving loop wrote into a dataset it took from the
    channel. *)
Lemma refreshedFrom_written (name : propName) (value old : string) (x x' : Dataset) :
  refreshedFrom name value old x x' ->
  Name x' = Name x
  /\ IsSnapshot x' = false
  /\ (exists src, sourceOf x' name = Some src /\ loadSource x' src = "inherited")
  /\ (name <> MountPointProp -> name <> LastUsedProp ->
      getPropertyFromName x' name = Returned (shown name value, "inherited"))
  /\ (name = MountPointProp ->
      Mountpoint (props x')
      = filepath.Join value (strings.TrimPrefix (Mountpoint (props x)) old))
  /\ (name = LastUsedProp ->
      strconv.Atoi (normValue name value) = Some (LastUsed (props x')))
  /\ (nativeOf x' name <> PropZero ->
      prop_at (Properties (dZFS x')) (nativeOf x' name)
      = mkProperty value (Source (prop_at (Properties (dZFS x)) (nativeOf x' name)))).
Proof.
  intros (Hinh & Hlen & v & v' & Hv & Hr).
  pose proof (inheritsProperty_not_snapshot _ _ Hinh) as Hsnap.
  pose proof (normValue_same _ _ _ Hv) as Hnv.
  assert (Hother : name <> LastUsedProp -> v = value) by (intros; by apply (sameValue_other name)).
  destruct x as [n snap p z cs]. cbn in Hsnap. subst snap.
  destruct x' as [n' snap' p' z' cs']. cbn [children with_children Name IsSnapshot props dZFS] in *.
  destruct p as [mp cm mtd bfs lu lbk bds org [smp scm sbf slu slbk sbds]].
  unfold refreshChild, stringToProp in Hr. unfold sourceOf, nativeOf, getPropertyFromName.
  destruct name; try done; cbn in Hr, Hnv;
    rewrite ?bool_decide_eq_true_2 in Hr by done; cbn in Hr;
    try (rewrite Hnv in Hr; destruct (strconv.Atoi _) eqn:Ea; [|done]);
    try (rewrite (Hother ltac:(done)) in Hr);
    injection Hr as <- <- <- <-; cbn;
    (split; [done|]); (split; [done|]); (split; [eexists; split; [done|done]|]);
    repeat split; try done; intros;
    try (by destruct (String.eqb value "yes"));
    by rewrite ?prop_at_insert.
Qed.

(** ** [setProperty]: the dataset itself *)

Lemma setProperty_cases
    (SetProperty : libzfsDataset -> libzfsProp -> string -> libzfsDataset * option error)
    (SetUserProperty : libzfsDataset -> propName -> string -> libzfsDataset * option error)
    (d d' : Dataset) (name : propName) (value source : string) (err : option error) :
  setProperty SetProperty SetUserProperty d name value source = Returned (d', err) ->
  framed name d d'
  /\ ((err <> None /\ children d' = children d)
      \/ (err = None
          /\ exists old v',
               (name = MountPointProp -> old = Mountpoint (props d))
               /\ cascadeList name (cascade name old) value (children d)
                  = Returned (children d', v'))).
Proof.
  unfold setProperty.
  destruct (stringToProp d name) as [[[[np up] destV] destS]|] eqn:Hp; [|done].
  destruct (writeProperty _ _ _ _ _ _ _) as [z [e|]].
  { intros [= <- <-]. split; [|left; by destruct d].
    split; [by destruct d|]. intros name2 _ _. by destruct d, name2. }
  destruct d as [n snap p z0 cs].
  destruct p as [mp cm mtd bfs lu lbk bds org [smp scm sbf slu slbk sbds]].
  unfold stringToProp in Hp.
  destruct name; try done; destruct snap; cbn in Hp; injection Hp as <- <- <- <-;
    cbn;
    try (destruct (String.eqb value ""); cbn;
         (destruct (strconv.Atoi _);
          [|intros [= <- <-]; split;
            [split; [done|]; intros name2 _ _; by destruct name2|by left]]));
    (destruct (cascadeList _ _ _ _) as [[cs' v']|] eqn:Ecs; [|done]);
    intros [= <- <-];
    (split; [split; [unfold identity; cbn|intros name2 Hs Hne; by destruct name2]
            |right; split; [done|]; eexists _, v'; split; [|exact Ecs]; done]).
  all: try (f_equal; f_equal; f_equal).
  all: try (unfold framed in *; done).
  all: try by (apply (cascadeList_traced _ value) in Ecs as [Hlen _]; [|by left]; rewrite Hlen).
Qed.

Lemma setProperty_sent
    (SetProperty : libzfsDataset -> libzfsProp -> string -> libzfsDataset * option error)
    (SetUserProperty : libzfsDataset -> propName -> string -> libzfsDataset * option error)
    (d d' : Dataset) (name : propName) (value source : string) :
  setProperty SetProperty SetUserProperty d name value source = Returned (d', None) ->
  exists old,
    (name = MountPointProp -> old = Mountpoint (props d))
    /\ Forall2 (refreshedFrom name value old)
         (sentDown name (children d)) (sentDown name (children d')).
Proof.
  intros H. apply setProperty_cases in H as [_ [[? _]|(_ & old & v' & Hold & Hcs)]]; [done|].
  exists old. split; [done|].
  by apply (cascadeList_traced _ value) in Hcs as (_ & _ & ?); [|by left].
Qed.

(** X15: whatever it sets and whether or not it returns an error,
    [setProperty] keeps the tree as it is: every dataset keeps its place,
    its name, its kind, the number of its children, its origin and its
    mounted flag, and every property kept in another field than the one set
    reads as before, value and source. *)
Theorem setProperty_frame
    (SetProperty : libzfsDataset -> libzfsProp -> string -> libzfsDataset * option error)
    (SetUserProperty : libzfsDataset -> propName -> string -> libzfsDataset * option error)
    (d d' : Dataset) (name : propName) (value source : string) (err : option error) :
  setProperty SetProperty SetUserProperty d name value source = Returned (d', err) ->
  Forall2
    (fun x x' =>
       identity x' = identity x
       /\ forall name2 : propName,
            sourceOf x name2 <> None ->
            sourceOf x name2 <> sourceOf x name ->
            getPropertyFromName x' name2 = getPropertyFromName x name2)
    (subtree d) (subtree d').
Proof.
  intros H. apply setProperty_cases in H as [Hroot Hcs].
  rewrite !subtree_eq. constructor; [exact Hroot|].
  change (Forall2 (framed name) (concat (map subtree (children d)))
            (concat (map subtree (children d')))).
  destruct Hcs as [[_ ->]|(_ & old & v' & _ & Hcs)].
  - apply Forall2_same, framed_refl.
  - apply (cascadeList_traced _ value) in Hcs as (_ & Hsub & _); [|by left].
    by apply stepped_framed with value old.
Qed.

Lemma setProperty_frame_witness :
  Forall2
    (fun x x' =>
       identity x' = identity x
       /\ forall name2 : propName,
            sourceOf x name2 <> None ->
            sourceOf x name2 <> sourceOf x MountPointProp ->
            getPropertyFromName x' name2 = getPropertyFromName x name2)
    (subtree chainRoot) (subtree chainRootAfter).
Proof.
  apply (setProperty_frame writeOk writeOk chainRoot chainRootAfter MountPointProp
           "/new" "local" None).
  vm_compute. reflexivity.
Defined.

(** X16: after a successful [setProperty] of a property other than the
    mountpoint and lastUsed, the dataset reads the value with the source
    given, and every dataset that inherits the property from it, at any
    depth, reads the value with the source "inherited" (bootfs reads "yes"
    or "no"). They are the datasets that inherited it before, and for
    canmount their cache of native properties holds the value too. *)
Theorem setProperty_inheriting
    (SetProperty : libzfsDataset -> libzfsProp -> string -> libzfsDataset * option error)
    (SetUserProperty : libzfsDataset -> propName -> string -> libzfsDataset * option error)
    (d d' : Dataset) (name : propName) (value source : string) :
  name <> MountPointProp ->
  name <> LastUsedProp ->
  setProperty SetProperty SetUserProperty d name value source = Returned (d', None) ->
  getPropertyFromName d' name = Returned (shown name value, source)
  /\ Name <$> sentDown name (children d') = Name <$> sentDown name (children d)
  /\ Forall
       (fun x' =>
          getPropertyFromName x' name = Returned (shown name value, "inherited")
          /\ (nativeOf x' name <> PropZero ->
              Value (prop_at (Properties (dZFS x')) (nativeOf x' name)) = value))
       (sentDown name (children d')).
Proof.
  intros Hmp Hlu H. split.
  { destruct (setProperty_refreshed _ _ _ _ _ _ _ Hlu H) as [-> _].
    unfold shown. by destruct name. }
  destruct (setProperty_sent _ _ _ _ _ _ _ H) as (old & _ & Hsent).
  clear H. induction Hsent as [|x x' l l' Hx _ IH]; [by split|].
  destruct IH as [IHn IHf].
  destruct (refreshedFrom_written _ _ _ _ _ Hx) as (Hn & _ & _ & Hget & _ & _ & Hnat).
  split; [by rewrite !fmap_cons, Hn, IHn|].
  constructor; [|done]. split; [by apply Hget|].
  intros Hnp. by rewrite (Hnat Hnp).
Qed.

Lemma setProperty_inheriting_witness :
  let d' := after (setProperty writeOk writeOk canmountPool CanmountProp "noauto" "local")
              canmountPool in
  getPropertyFromName d' CanmountProp = Returned (shown CanmountProp "noauto", "local")
  /\ Name <$> sentDown CanmountProp (children d') = ["rpool/A"; "rpool/A/B"]
  /\ Forall
       (fun x' =>
          getPropertyFromName x' CanmountProp
          = Returned (shown CanmountProp "noauto", "inherited")
          /\ (nativeOf x' CanmountProp <> PropZero ->
              Value (prop_at (Properties (dZFS x')) (nativeOf x' CanmountProp)) = "noauto"))
       (sentDown CanmountProp (children d')).
Proof.
  exact (setProperty_inheriting writeOk writeOk canmountPool
           (after (setProperty writeOk writeOk canmountPool CanmountProp "noauto" "local")
              canmountPool)
           CanmountProp "noauto" "local"
           ltac:(discriminate) ltac:(discriminate) ltac:(vm_compute; reflexivity)).
Defined.

(** X17: after a successful [setProperty] of the mountpoint, the dataset has
    the new mountpoint, and every dataset that inherits the mountpoint from
    it, at any depth, has its own with the old mountpoint of the dataset
    trimmed off the front and the rest joined below the new one; its source
    is "inherited". Its cache of native properties holds the new mountpoint
    of the dataset itself, as given, with the source it had. *)
Theorem setProperty_mountpoint_rebased
    (SetProperty : libzfsDataset -> libzfsProp -> string -> libzfsDataset * option error)
    (SetUserProperty : libzfsDataset -> propName -> string -> libzfsDataset * option error)
    (d d' : Dataset) (value source : string) :
  setProperty SetProperty SetUserProperty d MountPointProp value source
  = Returned (d', None) ->
  Mountpoint (props d') = value
  /\ Forall2
       (fun x x' =>
          Name x' = Name x
          /\ Mountpoint (props x')
             = filepath.Join value
                 (strings.TrimPrefix (Mountpoint (props x)) (Mountpoint (props d)))
          /\ sources.Mountpoint (sources (props x')) = "inherited"
          /\ prop_at (Properties (dZFS x')) DatasetPropMountpoint
             = mkProperty value
                 (Source (prop_at (Properties (dZFS x)) DatasetPropMountpoint)))
       (sentDown MountPointProp (children d)) (sentDown MountPointProp (children d')).
Proof.
  intros H. split.
  { assert (Hne : MountPointProp <> LastUsedProp) by done.
    destruct (setProperty_refreshed _ _ _ _ _ _ _ Hne H) as [_ Hm]. by apply Hm. }
  destruct (setProperty_sent _ _ _ _ _ _ _ H) as (old & Hold & Hsent).
  rewrite <- (Hold eq_refl). eapply Forall2_impl; [exact Hsent|].
  intros x x' Hx.
  destruct (refreshedFrom_written _ _ _ _ _ Hx)
    as (Hn & Hsnap & (src & Hsrc & Hinh) & _ & Hmp & _ & Hnat).
  unfold sourceOf, nativeOf, stringToProp in Hsrc, Hnat. rewrite Hsnap in Hsrc, Hnat.
  cbn in Hsrc, Hnat. injection Hsrc as <-.
  split; [done|]. split; [by apply Hmp|]. split; [done|]. by apply Hnat.
Qed.

Lemma setProperty_mountpoint_rebased_witness :
  Mountpoint (props chainRootAfter) = "/new"
  /\ Forall2
       (fun x x' =>
          Name x' = Name x
          /\ Mountpoint (props x')
             = filepath.Join "/new"
                 (strings.TrimPrefix (Mountpoint (props x)) (Mountpoint (props chainRoot)))
          /\ sources.Mountpoint (sources (props x')) = "inherited"
          /\ prop_at (Properties (dZFS x')) DatasetPropMountpoint
             = mkProperty "/new"
                 (Source (prop_at (Properties (dZFS x)) DatasetPropMountpoint)))
       (sentDown MountPointProp (children chainRoot))
       (sentDown MountPointProp (children chainRootAfter)).
Proof.
  apply (setProperty_mountpoint_rebased writeOk writeOk chainRoot chainRootAfter
           "/new" "local").
  vm_compute. reflexivity.
Defined.

(** X18: after a successful [setProperty] of lastUsed, every dataset that
    inherits lastUsed from the dataset, at any depth, has the time that the
    value reads as (0 for the empty value), with the source "inherited". The
    dataset itself gets the source given, and, unless the value is empty,
    keeps the time it had. *)
Theorem setProperty_lastUsed_children
    (SetProperty : libzfsDataset -> libzfsProp -> string -> libzfsDataset * option error)
    (SetUserProperty : libzfsDataset -> propName -> string -> libzfsDataset * option error)
    (d d' : Dataset) (value source : string) :
  strconv.inRange (LastUsed (props d)) = true ->
  setProperty SetProperty SetUserProperty d LastUsedProp value source
  = Returned (d', None) ->
  sources.LastUsed (sources (props d')) = source
  /\ LastUsed (props d') = (if String.eqb value "" then 0 else LastUsed (props d))
  /\ Name <$> sentDown LastUsedProp (children d')
     = Name <$> sentDown LastUsedProp (children d)
  /\ Forall
       (fun x' =>
          strconv.Atoi (if String.eqb value "" then "0" else value)
          = Some (LastUsed (props x'))
          /\ sources.LastUsed (sources (props x')) = "inherited")
       (sentDown LastUsedProp (children d')).
Proof.
  intros Hr H.
  assert (Hroot : sources.LastUsed (sources (props d')) = source
                  /\ LastUsed (props d')
                     = (if String.eqb value "" then 0 else LastUsed (props d))).
  { revert H. unfold setProperty, stringToProp.
    destruct (writeProperty _ _ _ _ _ _ _) as [z [e|]]; [done|].
    destruct (String.eqb value "") eqn:Hv; cbn [store load fst snd].
    - change (strconv.Atoi "0") with (Some 0). cbv beta iota zeta.
      destruct (cascadeList _ _ _ _) as [[cs v]|]; [|done].
      intros [= <-]. by destruct d.
    - change (props (with_dZFS d z)) with (props d).
      rewrite (Atoi_Itoa _ Hr). cbv beta iota zeta.
      destruct (cascadeList _ _ _ _) as [[cs v]|]; [|done].
      intros [= <-]. by destruct d. }
  destruct Hroot as [Hs Hl]. split; [done|]. split; [done|].
  destruct (setProperty_sent _ _ _ _ _ _ _ H) as (old & _ & Hsent).
  clear H Hs Hl. induction Hsent as [|x x' l l' Hx _ IH]; [by split|].
  destruct IH as [IHn IHf].
  destruct (refreshedFrom_written _ _ _ _ _ Hx)
    as (Hn & Hsnap & (src & Hsrc & Hinh) & _ & _ & Hlu & _).
  split; [by rewrite !fmap_cons, Hn, IHn|].
  constructor; [|done]. split; [by apply Hlu|].
  unfold sourceOf, stringToProp in Hsrc. by injection Hsrc as <-.
Qed.

Lemma setProperty_lastUsed_children_witness :
  let d' := after (setProperty writeOk writeOk chainRoot LastUsedProp "42" "local")
              chainRoot in
  sources.LastUsed (sources (props d')) = "local"
  /\ LastUsed (props d') = 7
  /\ Name <$> sentDown LastUsedProp (children d')
     = Name <$> sentDown LastUsedProp (children chainRoot)
  /\ Forall
       (fun x' =>
          strconv.Atoi "42" = Some (LastUsed (props x'))
          /\ sources.LastUsed (sources (props x')) = "inherited")
       (sentDown LastUsedProp (children d')).
Proof.
  apply (setProperty_lastUsed_children writeOk writeOk chainRoot
           (after (setProperty writeOk writeOk chainRoot LastUsedProp "42" "local")
              chainRoot)
           "42" "local"); [done|].
  vm_compute. reflexivity.
Defined.

(** ** [setProperty]: panics *)

Lemma inheritsProperty_returns (c : Dataset) (name : propName) :
  recognized name = true -> exists b, inheritsProperty c name = Returned b.
Proof.
  intros Hn. unfold inheritsProperty, stringToProp.
  destruct name; try done; destruct (IsSnapshot c); cbn; eauto;
    destruct (_ && _); eauto.
Qed.

Lemma refreshChild_returns (name : propName) (old v : string) (c : Dataset) :
  recognized name = true ->
  (name = LastUsedProp -> is_Some (strconv.Atoi (normValue name v))) ->
  exists r, refreshChild name old v c = Returned r.
Proof.
  intros Hn Hlu. unfold refreshChild, stringToProp.
  destruct name; try done; destruct (IsSnapshot c); cbn; eauto.
  all: destruct (Hlu eq_refl) as [n Ha]; cbn in Ha; rewrite Ha; eauto.
Qed.

Lemma refreshChild_value (name : propName) (old v : string) (c c1 : Dataset) (v1 : string) :
  refreshChild name old v c = Returned (c1, v1) -> v1 = normValue name v.
Proof.
  unfold refreshChild, stringToProp.
  destruct name; try done; destruct (IsSnapshot c); cbn;
    try (destruct (strconv.Atoi _) eqn:Ea); intros [=]; by subst.
Qed.

Section Outcome.

Variable name : propName.
Variable value : string.
Hypothesis Hname : recognized name = true.

Lemma cascadeList_returns (old : string) (cs : list Dataset) :
  (name = LastUsedProp -> is_Some (strconv.Atoi (normValue name value))) ->
  Forall (fun c =>
    forall v0 : string,
      sameValue name value v0 ->
      exists r, cascade name old v0 c = Returned r) cs ->
  forall v0 : string,
    sameValue name value v0 ->
    exists r, cascadeList name (cascade name old) v0 cs = Returned r.
Proof.
  intros Hlu. induction 1 as [|c cs Hc _ IH]; intros v0 Hv0; [by eexists|].
  cbn [cascadeList].
  destruct (inheritsProperty_returns c name Hname) as [[] Hinh]; rewrite Hinh.
  - destruct (Hc v0 Hv0) as [[c1 v1] Hc1]. rewrite Hc1.
    destruct (cascade_trace name value old c _ _ _ Hc1 Hv0 Hinh) as [Hv1 _].
    destruct (IH v1 Hv1) as [[cs' v2] ->]. by eexists.
  - destruct (IH v0 Hv0) as [[cs' v2] ->]. by eexists.
Qed.

Lemma cascade_returns (old : string) (c : Dataset) :
  (name = LastUsedProp -> is_Some (strconv.Atoi (normValue name value))) ->
  forall v0 : string,
    sameValue name value v0 ->
    exists r, cascade name old v0 c = Returned r.
Proof.
  intros Hlu. induction c as [n snap p z cs IHcs] using Dataset_tree_ind.
  intros v0 Hv0. rewrite cascade_eq.
  destruct (refreshChild_returns name old v0 (mkDataset n snap p z cs) Hname)
    as [[c1 v1] Hr].
  { intros Hn. rewrite (normValue_same _ _ _ Hv0). by apply Hlu. }
  rewrite Hr. cbn [children].
  assert (Hv1 : sameValue name value v1).
  { right. rewrite (refreshChild_value _ _ _ _ _ _ Hr). by apply normValue_same. }
  destruct (cascadeList_returns old cs Hlu IHcs v1 Hv1) as [[cs' v2] ->]. by eexists.
Qed.

Lemma cascadeList_panics (old : string) (cs : list Dataset) (v0 : string) :
  name = LastUsedProp ->
  strconv.Atoi (normValue name value) = None ->
  sameValue name value v0 ->
  cascadeList name (cascade name old) v0 cs
  = match sentDown name cs with
    | [] => Returned (cs, v0)
    | _ :: _ => Panicked PanicLastUsedNotAnInt
    end.
Proof.
  intros Hn Ha Hv0. induction cs as [|c cs IH]; [done|].
  cbn [cascadeList sentDown].
  destruct (inheritsProperty_returns c name Hname) as [[] Hinh]; rewrite Hinh.
  - rewrite cascade_eq.
    assert (Hr : refreshChild name old v0 c = Panicked PanicLastUsedNotAnInt).
    { rewrite <- (normValue_same _ _ _ Hv0) in Ha. revert Ha. rewrite Hn.
      unfold refreshChild, stringToProp. cbn. by intros ->. }
    by rewrite Hr.
  - rewrite IH. by destruct (sentDown name cs).
Qed.

End Outcome.

Lemma writeProperty_user
    (SetProperty : libzfsDataset -> libzfsProp -> string -> libzfsDataset * option error)
    (SetUserProperty : libzfsDataset -> propName -> string -> libzfsDataset * option error)
    (d : Dataset) (up : propName) (value source : string) :
  writeProperty SetProperty SetUserProperty d PropZero up value source
  = SetUserProperty (dZFS d) up
      (if IsSnapshot d then value +:+ ":" +:+ source else value).
Proof.
  unfold writeProperty. rewrite bool_decide_eq_false_2; [done|]. intros H. by apply H.
Qed.



(** ** [RefreshProperties] and [getPropertyFromName] *)

(** X20: after a successful [RefreshProperties], [getPropertyFromName] gives
    for bootfs, last-booted-kernel and bootfs-datasets the value and the
    source that [getUserPropertyFromSys] reads through the handle (bootfs
    as "yes" or "no"); lastUsed is the number its text reads as, with, on a
    dataset that is not a snapshot, the source read. *)
Theorem RefreshProperties_user_properties (d d' : Dataset) (z : libzfsDataset) :
  snd (RefreshProperties d z) = (d', None) ->
  (forall name : propName,
     name = BootfsProp \/ name = LastBootedKernelProp \/ name = BootfsDatasetsProp ->
     getPropertyFromName d' name
     = Returned (shown name (readValue name z), readSource name z))
  /\ strconv.Atoi (lastUsedText d z) = Some (LastUsed (props d'))
  /\ sources.LastUsed (sources (props d'))
     = (if IsSnapshot d then "" else readSource LastUsedProp z).
Proof.
  intros H. unfold readValue, readSource, lastUsedText.
  refresh_steps H; try congruence; injection H as <-.
  all: split; [intros name [->|[->| ->]]; unfold getPropertyFromName; cbn|].
  all: repeat match goal with
              | E : snd (getUserPropertyFromSys _ _) = _ |- _ => rewrite ?E; clear E
              end.
  all: cbn [fst snd]; try done.
  all: match goal with
       | |- context [String.eqb ?s "yes"] => by destruct (String.eqb s "yes")
       end.
Qed.

Lemma RefreshProperties_user_properties_witness :
  let z := taggedHandle "rpool/ROOT/ubuntu" "42" in
  let d := freshDataset "rpool/ROOT/ubuntu" false z in
  let d' := fst (snd (RefreshProperties d z)) in
  (forall name : propName,
     name = BootfsProp \/ name = LastBootedKernelProp \/ name = BootfsDatasetsProp ->
     getPropertyFromName d' name
     = Returned (shown name (readValue name z), readSource name z))
  /\ strconv.Atoi (lastUsedText d z) = Some (LastUsed (props d'))
  /\ sources.LastUsed (sources (props d'))
     = (if IsSnapshot d then "" else readSource LastUsedProp z).
Proof.
  exact (RefreshProperties_user_properties
           (freshDataset "rpool/ROOT/ubuntu" false (taggedHandle "rpool/ROOT/ubuntu" "42"))
           _ (taggedHandle "rpool/ROOT/ubuntu" "42") eq_refl).
Defined.

(** ** [setProperty] on a snapshot and the read back *)

Lemma getUserPropertyFromSys_packed (prop : propName) (z : libzfsDataset)
    (value source : string) :
  libzfs_IsSnapshot z = true ->
  GetUserProperty z prop = (mkProperty (value +:+ ":" +:+ source) "local", None) ->
  strings.ContainsRune source ":" = false ->
  snd (getUserPropertyFromSys prop z) = (value, sanitizeSource source, None).
Proof.
  intros Hsnap Hget Hsep.
  unfold getUserPropertyFromSys. rewrite Hget, Hsnap. cbn [Value Source].
  cbn [String.eqb Ascii.eqb Bool.eqb orb andb negb].
  rewrite andb_false_r. cbn [andb].
  change (value +:+ ":" +:+ source) with (value +:+ String ":" source).
  rewrite (LastIndex_app ":" value source Hsep).
  destruct (_ <? 0) eqn:E; [apply Z.ltb_lt in E; lia|].
  rewrite Nat2Z.id, sliceTo_app.
  replace (Z.to_nat (Z.of_nat (String.length value) + 1))
    with (String.length (value +:+ ":")) by (rewrite length_append; simpl; lia).
  change (value +:+ String ":" source) with (value +:+ ":" +:+ source).
  by rewrite append_assoc, sliceFrom_app.
Qed.

Lemma setProperty_handle
    (SetProperty : libzfsDataset -> libzfsProp -> string -> libzfsDataset * option error)
    (SetUserProperty : libzfsDataset -> propName -> string -> libzfsDataset * option error)
    (d d' : Dataset) (name : propName) (value source : string) :
  setProperty SetProperty SetUserProperty d name value source = Returned (d', None) ->
  exists np up destV destS,
    stringToProp d name = Returned (np, up, destV, destS)
    /\ writeProperty SetProperty SetUserProperty d np up value source = (dZFS d', None).
Proof.
  unfold setProperty.
  destruct (stringToProp d name) as [[[[np up] destV] destS]|] eqn:Hp; [|done].
  destruct (writeProperty _ _ _ _ _ _ _) as [z [e|]] eqn:Hw; [done|].
  intros H. exists np, up, destV, destS. split; [done|]. rewrite Hw. f_equal.
  clear Hw. revert H.
  destruct d as [n snap p z0 cs].
  destruct p as [mp cm mtd bfs lu lbk bds org [smp scm sbf slu slbk sbds]].
  unfold stringToProp in Hp.
  destruct name; try done; destruct snap; cbn in Hp; injection Hp as <- <- <- <-;
    cbn;
    try (destruct (String.eqb value ""); cbn; (destruct (strconv.Atoi _); [|done]));
    (destruct (cascadeList _ _ _ _) as [[cs' v']|]; [|done]);
    by intros [= <-].
Qed.

(** X21: on a snapshot, [setProperty] writes the value and the source
    together, under the name the snapshot keeps the property under. When
    the system keeps what is written and the source holds no colon,
    [getUserPropertyFromSys] reads back from the handle the value as it was
    set, and the source as "local", "default" or else "inherited". The
    dataset itself reads the source as given, with, for every property but
    lastUsed, the value set (bootfs as "yes" when the value is "yes" and as
    "no" otherwise); for lastUsed it does not read the value set but the
    time it had before, or "0" when the value set is empty. *)
Theorem setProperty_snapshot_read_back
    (SetProperty : libzfsDataset -> libzfsProp -> string -> libzfsDataset * option error)
    (SetUserProperty : libzfsDataset -> propName -> string -> libzfsDataset * option error)
    (d d' : Dataset) (name : propName) (value source : string) :
  (forall z up v z',
     SetUserProperty z up v = (z', None) ->
     GetUserProperty z' up = (mkProperty v "local", None)
     /\ libzfs_IsSnapshot z' = libzfs_IsSnapshot z) ->
  IsSnapshot d = true ->
  libzfs_IsSnapshot (dZFS d) = true ->
  strings.ContainsRune source ":" = false ->
  setProperty SetProperty SetUserProperty d name value source = Returned (d', None) ->
  snd (getUserPropertyFromSys (snapshotPropName name) (dZFS d'))
  = (value, sanitizeSource source, None)
  /\ (name <> LastUsedProp ->
      getPropertyFromName d' name = Returned (shown name value, source))
  /\ (name = LastUsedProp ->
      strconv.inRange (LastUsed (props d)) = true ->
      getPropertyFromName d' name
      = Returned (if String.eqb value "" then "0"
                  else strconv.Itoa (LastUsed (props d)), source)).
Proof.
  intros Hkeep Hsnap Hz Hsep H. split; [|split].
  - destruct (setProperty_handle _ _ _ _ _ _ _ H) as (np & up & destV & destS & Hp & Hw).
    assert (Hup : np = PropZero /\ up = snapshotPropName name).
    { unfold stringToProp in Hp. rewrite Hsnap in Hp.
      by destruct name; try done; cbn in Hp; injection Hp as <- <- <- <-. }
    destruct Hup as [-> ->]. rewrite writeProperty_user, Hsnap in Hw.
    destruct (Hkeep _ _ _ _ Hw) as [Hget Hty].
    apply getUserPropertyFromSys_packed; [|done|done].
    by rewrite Hty.
  - intros Hlu. destruct (setProperty_refreshed _ _ _ _ _ _ _ Hlu H) as [-> _].
    unfold shown. by destruct name.
  - intros -> Hr. revert H. unfold setProperty, stringToProp.
    destruct (writeProperty _ _ _ _ _ _ _) as [z [e|]]; [done|].
    destruct (String.eqb value "") eqn:Hv; cbn [store load].
    + change (strconv.Atoi "0") with (Some 0). cbv beta iota zeta.
      destruct (cascadeList _ _ _ _) as [[cs v]|]; [|done].
      intros [= <-]. by destruct d as [? ? [? ? ? ? ? ? ? ? []] ? ?].
    + rewrite (Atoi_Itoa _ Hr). cbv beta iota zeta.
      destruct (cascadeList _ _ _ _) as [[cs v]|]; [|done].
      intros [= <-]. by destruct d as [? ? [? ? ? ? ? ? ? ? []] ? ?].
Qed.

Lemma setProperty_snapshot_read_back_witness :
  let d := snapshotOf "rpool/ROOT/ubuntu" "s1" in
  let d1 := after (setProperty writeOk keepUser d MountPointProp "/home" "local") d in
  let d2 := after (setProperty writeOk keepUser d LastUsedProp "42" "local") d in
  (snd (getUserPropertyFromSys SnapshotMountpointProp (dZFS d1)) = ("/home", "local", None)
   /\ getPropertyFromName d1 MountPointProp = Returned ("/home", "local"))
  /\ (snd (getUserPropertyFromSys LastUsedProp (dZFS d2)) = ("42", "local", None)
      /\ getPropertyFromName d2 LastUsedProp = Returned ("0", "local")).
Proof.
  assert (Hkeep : forall z up v z',
            keepUser z up v = (z', None) ->
            GetUserProperty z' up = (mkProperty v "local", None)
            /\ libzfs_IsSnapshot z' = libzfs_IsSnapshot z).
  { intros z up v z' [= <-]. cbn. split; [|done]. by destruct (decide (up = up)). }
  split.
  - destruct (setProperty_snapshot_read_back writeOk keepUser
                (snapshotOf "rpool/ROOT/ubuntu" "s1")
                (after (setProperty writeOk keepUser (snapshotOf "rpool/ROOT/ubuntu" "s1")
                          MountPointProp "/home" "local")
                   (snapshotOf "rpool/ROOT/ubuntu" "s1"))
                MountPointProp "/home" "local" Hkeep eq_refl eq_refl eq_refl)
      as (Hsys & Hset & _); [vm_compute; reflexivity|].
    split; [exact Hsys|]. apply Hset. discriminate.
  - destruct (setProperty_snapshot_read_back writeOk keepUser
                (snapshotOf "rpool/ROOT/ubuntu" "s1")
                (after (setProperty writeOk keepUser (snapshotOf "rpool/ROOT/ubuntu" "s1")
                          LastUsedProp "42" "local")
                   (snapshotOf "rpool/ROOT/ubuntu" "s1"))
                LastUsedProp "42" "local" Hkeep eq_refl eq_refl eq_refl)
      as (Hsys & _ & Hlu); [vm_compute; reflexivity|].
    split; [exact Hsys|]. exact (Hlu eq_refl eq_refl).
Defined.

(** ** PromotionTransaction *)

Import mem memspec.

Lemma findChildFrom_found (l1 l2 : list ptr) (s : ptr) (i j : Z) :
  s ∉ l1 -> findChildFrom i j (l1 ++ s :: l2) s = i + Z.of_nat (length l1).
Proof.
  revert i j. induction l1 as [|c l1 IH]; intros i j Hs.
  - cbn. rewrite Nat.eqb_refl. lia.
  - apply not_elem_of_cons in Hs as [Hne Hs]. cbn [app findChildFrom].
    destruct (Nat.eqb_spec c s) as [->|_]; [congruence|].
    rewrite IH by done. cbn [length]. lia.
Qed.

Lemma findChildFrom_absent (cs : list ptr) (s : ptr) (i j : Z) :
  s ∉ cs ->
  findChildFrom i j cs s
  = match cs with [] => j | _ :: _ => i + Z.of_nat (length cs) - 1 end.
Proof.
  revert i j. induction cs as [|c cs IH]; intros i j Hs; [done|].
  apply not_elem_of_cons in Hs as [Hne Hs]. cbn [findChildFrom].
  destruct (Nat.eqb_spec c s) as [->|_]; [congruence|].
  rewrite IH by done. destruct cs; cbn [length]; lia.
Qed.

Lemma removeChild_found (l1 l2 : list ptr) (s : ptr) :
  s ∉ l1 -> removeChild (l1 ++ s :: l2) s = Some (l1 ++ l2).
Proof.
  intros Hs. unfold removeChild, findChild. rewrite findChildFrom_found by done.
  destruct (_ <? 0) eqn:E; [apply Z.ltb_lt in E; lia|]. f_equal.
  replace (Z.to_nat (0 + Z.of_nat (length l1))) with (length l1) by lia.
  replace (Z.to_nat (0 + Z.of_nat (length l1) + 1)) with (S (length l1)) by lia.
  rewrite take_app_length. f_equal.
  change (l1 ++ s :: l2) with (l1 ++ [s] ++ l2). rewrite app_assoc.
  replace (S (length l1)) with (length (l1 ++ [s])) by (rewrite length_app; cbn; lia).
  by rewrite drop_app_length.
Qed.

Lemma removeChild_NoDup (cs : list ptr) (s : ptr) :
  NoDup cs -> s ∈ cs -> removeChild cs s = Some (filter (fun c => c ≠ s) cs).
Proof.
  intros Hnd Hin. apply list_elem_of_split in Hin as (l1 & l2 & ->).
  apply NoDup_app in Hnd as (_ & H1 & Hnd2).
  assert (Hs1 : s ∉ l1) by (intros H; apply (H1 s H); by left).
  apply NoDup_cons in Hnd2 as [Hs2 _].
  rewrite removeChild_found by done. f_equal.
  rewrite filter_app, filter_cons_False by (intros H; by apply H).
  assert (Hid : forall l : list ptr, s ∉ l -> filter (fun c => c ≠ s) l = l).
  { intros l Hl. induction l as [|c l IH]; [done|].
    apply not_elem_of_cons in Hl as [Hne Hl].
    rewrite filter_cons_True by done. by rewrite IH. }
  by rewrite !Hid.
Qed.

Lemma filter_not_in_nil (cs : list ptr) : filter (fun c => c ∉ []) cs = cs.
Proof.
  induction cs as [|c cs IH]; [done|].
  rewrite filter_cons_True by apply not_elem_of_nil. by rewrite IH.
Qed.

Lemma registryAfter_ext (old old' new new' : ptr -> string) (l : list ptr) :
  forall r : gmap string ptr,
    (forall s, s ∈ l -> old s = old' s /\ new s = new' s) ->
    registryAfter old new r l = registryAfter old' new' r l.
Proof.
  induction l as [|s l IH]; intros r H; [done|].
  unfold registryAfter. cbn [foldl].
  destruct (H s) as [-> ->]; [by left|].
  apply IH. intros s' Hs'. apply H. by right.
Qed.

Section Migration.

Variables oldOrig newOrig : ptr.
Hypothesis Hne : oldOrig ≠ newOrig.

Lemma migrateSnapshot_spec (z : Zfs) (s : ptr) (sd od nd : Dataset) :
  heap z !! s = Some sd ->
  heap z !! oldOrig = Some od ->
  heap z !! newOrig = Some nd ->
  s ≠ oldOrig -> s ≠ newOrig ->
  NoDup (children od) -> s ∈ children od ->
  migrateSnapshot oldOrig newOrig z s
  = Returned
      (mkZfs
         (<[oldOrig := with_children od (filter (fun c => c ≠ s) (children od))]>
            (<[newOrig := with_children nd (children nd ++ [s])]>
               (<[s := with_Name sd (migratedName nd sd)]> (heap z))))
         (delete (Name sd) (<[migratedName nd sd := s]> (allDatasets z))),
       None).
Proof.
  intros Hs Ho Hn Hso Hsn Hnd Hin. unfold migrateSnapshot, deref, update.
  cbn [heap allDatasets]. rewrite Hs, Hn.
  rewrite lookup_insert_ne, Hn by done.
  rewrite lookup_insert_ne, lookup_insert_ne, Ho by done.
  rewrite (removeChild_NoDup _ _ Hnd Hin).
  rewrite lookup_insert_ne, lookup_insert_ne, lookup_insert_eq by done.
  done.
Qed.

(** The migration loop over snapshots [l] of the old origin. *)
Lemma migrate_spec (l : list ptr) :
  forall (z : Zfs) (od nd : Dataset),
    heap z !! oldOrig = Some od ->
    heap z !! newOrig = Some nd ->
    NoDup (children od) -> NoDup l ->
    (forall s, s ∈ l ->
       s ∈ children od /\ s ≠ oldOrig /\ s ≠ newOrig /\ is_Some (heap z !! s)) ->
    exists z' : Zfs,
      migrate oldOrig newOrig z l = Returned (z', None)
      /\ heap z' !! oldOrig
         = Some (with_children od (filter (fun c => c ∉ l) (children od)))
      /\ heap z' !! newOrig = Some (with_children nd (children nd ++ l))
      /\ (forall s sd, s ∈ l -> heap z !! s = Some sd ->
            heap z' !! s = Some (with_Name sd (migratedName nd sd)))
      /\ (forall p, p ∉ l -> p ≠ oldOrig -> p ≠ newOrig -> heap z' !! p = heap z !! p)
      /\ allDatasets z'
         = registryAfter (nameIn z) (newNameIn z nd) (allDatasets z) l.
Proof.
  induction l as [|s l IH]; intros z od nd Ho Hn Hnd Hl Hall.
  - exists z. cbn [migrate]. split; [done|]. split.
    { rewrite Ho, filter_not_in_nil. by destruct od. }
    split; [by rewrite Hn, app_nil_r; destruct nd|].
    split. { intros s sd Hs. by apply elem_of_nil in Hs. }
    done.
  - apply NoDup_cons in Hl as [Hsl Hl].
    destruct (Hall s) as (Hin & Hso & Hsn & [sd Hs]); [by left|].
    cbn [migrate]. rewrite (migrateSnapshot_spec z s sd od nd) by done.
    set (z1 := mkZfs _ _).
    destruct (IH z1 (with_children od (filter (fun c => c ≠ s) (children od)))
                (with_children nd (children nd ++ [s])))
      as (z' & Hrun & Hold & Hnew & Hsel & Hrest & Hreg).
    + subst z1. cbn [heap]. by rewrite lookup_insert_eq.
    + subst z1. cbn [heap]. by rewrite lookup_insert_ne, lookup_insert_eq.
    + cbn [children with_children]. by apply NoDup_filter.
    + done.
    + intros s' Hs'. destruct (Hall s') as (Hin' & Hso' & Hsn' & Hv'); [by right|].
      assert (Hss : s' ≠ s) by (intros ->; done).
      split; [|split; [done|split; [done|]]].
      * cbn [children with_children]. by apply list_elem_of_filter.
      * subst z1. cbn [heap]. by rewrite !lookup_insert_ne.
    + exists z'. split; [done|]. split.
      { rewrite Hold. cbn [children with_children]. do 2 f_equal.
        rewrite list_filter_filter. apply list_filter_iff. intros c.
        rewrite not_elem_of_cons. tauto. }
      split.
      { rewrite Hnew. cbn [children with_children Name].
        by rewrite <- app_assoc. }
      split.
      { intros s' sd' [->|Hs']%elem_of_cons Hsd'.
        - rewrite Hrest by done. subst z1. cbn [heap].
          rewrite lookup_insert_ne, lookup_insert_ne, lookup_insert_eq by done.
          congruence.
        - destruct (Hall s') as (_ & Hso' & Hsn' & _); [by right|].
          assert (Hss : s' ≠ s) by (intros ->; done).
          apply (Hsel s' sd' Hs'). subst z1. cbn [heap].
          by rewrite !lookup_insert_ne. }
      split.
      { intros p [Hps Hp]%not_elem_of_cons Hpo Hpn. rewrite Hrest by done.
        subst z1. cbn [heap]. by rewrite !lookup_insert_ne. }
      rewrite Hreg.
      change (registryAfter (nameIn z) (newNameIn z nd) (allDatasets z) (s :: l))
        with (registryAfter (nameIn z) (newNameIn z nd)
                (delete (nameIn z s) (<[newNameIn z nd s := s]> (allDatasets z))) l).
      assert (Hn1 : nameIn z s = Name sd) by (unfold nameIn; by rewrite Hs).
      assert (Hn2 : newNameIn z nd s = migratedName nd sd)
        by (unfold newNameIn; by rewrite Hs).
      rewrite Hn1, Hn2.
      apply registryAfter_ext. intros s' Hs'.
      destruct (Hall s') as (_ & Hso' & Hsn' & _); [by right|].
      assert (Hss : s' ≠ s) by (intros ->; done).
      unfold nameIn, newNameIn. subst z1. cbn [heap].
      by rewrite !lookup_insert_ne.
Qed.

End Migration.

Lemma snapshotsToMigrate_filter (z : Zfs) (baseSnapshot : ptr) (bd : Dataset)
    (cs : list ptr) :
  heap z !! baseSnapshot = Some bd ->
  (forall c, c ∈ cs -> is_Some (heap z !! c)) ->
  snapshotsToMigrate z baseSnapshot cs
  = Returned (filter (fun c => migrates z bd c = true) cs).
Proof.
  intros Hb. induction cs as [|c cs IH]; intros Hall; [done|].
  destruct (Hall c) as [cd Hc]; [by left|].
  cbn [snapshotsToMigrate]. unfold deref at 1. rewrite Hc.
  rewrite IH by (intros c' Hc'; apply Hall; by right).
  assert (Hm : migrates z bd c
               = IsSnapshot cd && (LastUsed (props cd) <=? LastUsed (props bd)))
    by (unfold migrates; by rewrite Hc).
  destruct (IsSnapshot cd); cbn [negb andb] in *.
  - unfold deref. rewrite Hb. rewrite Z.gtb_ltb, Z.ltb_antisym.
    destruct (_ <=? _); cbn [negb].
    + by rewrite filter_cons_True.
    + rewrite filter_cons_False; [done|]. by rewrite Hm.
  - rewrite filter_cons_False; [done|]. by rewrite Hm.
Qed.

Section Registry.

Variables old new : ptr -> string.

Lemma registryAfter_cons (r : gmap string ptr) (s : ptr) (l : list ptr) :
  registryAfter old new r (s :: l)
  = registryAfter old new (delete (old s) (<[new s := s]> r)) l.
Proof. reflexivity. Qed.

Lemma registryAfter_other (l : list ptr) (k : string) :
  forall r : gmap string ptr,
    (forall s, s ∈ l -> old s ≠ k /\ new s ≠ k) ->
    registryAfter old new r l !! k = r !! k.
Proof.
  induction l as [|s l IH]; intros r H; [done|].
  rewrite registryAfter_cons.
  destruct (H s) as [Ho Hn]; [by left|].
  rewrite IH by (intros s' Hs'; apply H; by right).
  by rewrite lookup_delete_ne, lookup_insert_ne.
Qed.

Lemma registryAfter_gone (l : list ptr) (k : string) :
  forall r : gmap string ptr,
    (forall s, s ∈ l -> new s ≠ k) ->
    r !! k = None ->
    registryAfter old new r l !! k = None.
Proof.
  induction l as [|s l IH]; intros r H Hr; [done|].
  rewrite registryAfter_cons.
  apply IH; [intros s' Hs'; apply H; by right|].
  destruct (decide (old s = k)) as [->|Hne]; [by rewrite lookup_delete_eq|].
  rewrite lookup_delete_ne, lookup_insert_ne; [done| |done].
  apply H. by left.
Qed.

Lemma registryAfter_new (l : list ptr) (c : ptr) :
  forall r : gmap string ptr,
    c ∈ l -> NoDup (new <$> l) ->
    (forall a b, a ∈ l -> b ∈ l -> old a ≠ new b) ->
    registryAfter old new r l !! new c = Some c.
Proof.
  induction l as [|s l IH]; intros r Hc Hnd Hon; [by apply elem_of_nil in Hc|].
  rewrite fmap_cons in Hnd. apply NoDup_cons in Hnd as [Hs Hnd].
  rewrite registryAfter_cons.
  destruct (decide (c ∈ l)) as [Hin|Hnin].
  - apply IH; [done|done|]. intros a b Ha Hb. apply Hon; by right.
  - apply elem_of_cons in Hc as [->|?]; [|done].
    rewrite registryAfter_other.
    + rewrite lookup_delete_ne, lookup_insert_eq; [done|].
      apply Hon; by left.
    + intros s' Hs'. split; [apply Hon; [by right|by left]|].
      intros E. apply Hs. rewrite <- E. apply list_elem_of_fmap. eauto.
Qed.

Lemma registryAfter_old (l : list ptr) (c : ptr) :
  forall r : gmap string ptr,
    c ∈ l ->
    (forall a b, a ∈ l -> b ∈ l -> old a ≠ new b) ->
    registryAfter old new r l !! old c = None.
Proof.
  induction l as [|s l IH]; intros r Hc Hon; [by apply elem_of_nil in Hc|].
  rewrite registryAfter_cons.
  destruct (decide (c ∈ l)) as [Hin|Hnin].
  - apply IH; [done|]. intros a b Ha Hb. apply Hon; by right.
  - apply elem_of_cons in Hc as [->|?]; [|done].
    apply registryAfter_gone; [|by rewrite lookup_delete_eq].
    intros s' Hs' E. by apply (Hon s s'); [left|right|].
Qed.

End Registry.

Lemma append_inj_l (a x y : string) : a +:+ x = a +:+ y -> x = y.
Proof.
  induction a as [|c a IH]; [done|]. rewrite !append_cons. intros [= H]. auto.
Qed.

Lemma filter_ext_in (P Q : ptr -> Prop) `{!forall x, Decision (P x)}
    `{!forall x, Decision (Q x)} (l : list ptr) :
  (forall x, x ∈ l -> P x <-> Q x) -> filter P l = filter Q l.
Proof.
  induction l as [|c l IH]; intros Hext; [done|].
  assert (Hc : P c <-> Q c) by (apply Hext; by left).
  assert (Hl : filter P l = filter Q l)
    by (apply IH; intros x Hx; apply Hext; by right).
  destruct (decide (P c)) as [Hp|Hp].
  - rewrite !filter_cons_True by tauto. by rewrite Hl.
  - rewrite !filter_cons_False by tauto. done.
Qed.

(** C1: [inverseOrigin], for a dataset [oldOrigin] and a clone [newOrigin]
    whose origin the registry resolves to the base snapshot, in a
    well-formed tree (the two are distinct datasets with distinct names and
    not snapshots; the children of [oldOrigin] are distinct objects with
    distinct names, its snapshots being named [oldOrigin@leaf]):
    - the snapshot children of [oldOrigin] with lastUsed at most that of the
      base snapshot (equal included) are exactly the children that move:
      they are appended, in order, to the children of [newOrigin], and the
      other children stay, in order, below [oldOrigin];
    - each of them is renamed to [newOrigin@leaf], is entered in the
      registry under that name and is no longer in the registry under its
      old name;
    - afterwards the origin of [oldOrigin] is the name the base snapshot now
      has, and the origin of [newOrigin] is empty. *)
Theorem inverseOrigin_migrates
    (z : Zfs) (oldOrig newOrig base : ptr) (od nd bd : Dataset) :
  heap z !! oldOrig = Some od ->
  heap z !! newOrig = Some nd ->
  allDatasets z !! Origin (props nd) = Some base ->
  heap z !! base = Some bd ->
  oldOrig ≠ newOrig ->
  IsSnapshot od = false -> IsSnapshot nd = false -> Name od ≠ Name nd ->
  NoDup (children od) ->
  (forall c, c ∈ children od ->
     exists cd, heap z !! c = Some cd
       /\ (IsSnapshot cd = true ->
           exists leaf, Name cd = Name od +:+ "@" +:+ leaf
                        /\ strings.ContainsRune leaf "@" = false)) ->
  (forall c c' cd cd',
     c ∈ children od -> c' ∈ children od ->
     heap z !! c = Some cd -> heap z !! c' = Some cd' ->
     Name cd = Name cd' -> c = c') ->
  exists (z' : Zfs) (od' nd' bd' : Dataset),
    inverseOrigin z oldOrig newOrig = Returned (z', None)
    /\ heap z' !! oldOrig = Some od'
    /\ heap z' !! newOrig = Some nd'
    /\ heap z' !! base = Some bd'
    /\ children od' = filter (fun c => migrates z bd c = false) (children od)
    /\ children nd' = children nd ++ filter (fun c => migrates z bd c = true) (children od)
    /\ (forall c cd leaf,
          c ∈ children od -> heap z !! c = Some cd ->
          IsSnapshot cd = true ->
          LastUsed (props cd) <= LastUsed (props bd) ->
          Name cd = Name od +:+ "@" +:+ leaf ->
          strings.ContainsRune leaf "@" = false ->
          heap z' !! c = Some (with_Name cd (Name nd +:+ "@" +:+ leaf))
          /\ (c ∈ children nd') /\ (c ∉ children od')
          /\ allDatasets z' !! (Name nd +:+ "@" +:+ leaf) = Some c
          /\ allDatasets z' !! Name cd = None)
    /\ Origin (props od') = Name bd'
    /\ Origin (props nd') = "".
Proof.
  intros Ho Hn Hreg Hb Hne Hosnap Hnsnap Hnames Hnd Hkids Huniq.
  set (S := filter (fun c => migrates z bd c = true) (children od)).
  assert (HS : forall c, c ∈ S -> c ∈ children od /\ exists cd leaf,
              heap z !! c = Some cd /\ IsSnapshot cd = true
              /\ Name cd = Name od +:+ "@" +:+ leaf
              /\ strings.ContainsRune leaf "@" = false
              /\ nameIn z c = Name od +:+ "@" +:+ leaf
              /\ newNameIn z nd c = Name nd +:+ "@" +:+ leaf).
  { intros c [Hm Hin]%list_elem_of_filter. split; [done|].
    destruct (Hkids c Hin) as (cd & Hc & Hleaf). unfold migrates in Hm.
    rewrite Hc in Hm. apply andb_true_iff in Hm as [Hsnap _].
    destruct (Hleaf Hsnap) as (leaf & Hname & Hat).
    exists cd, leaf. unfold nameIn, newNameIn, migratedName. rewrite Hc, Hname.
    by rewrite splitSnapshotName_app. }
  assert (Hon : forall a b, a ∈ S -> b ∈ S -> nameIn z a ≠ newNameIn z nd b).
  { intros a b (_ & ca & la & _ & _ & _ & Hla & -> & _)%HS
               (_ & cb & lb & _ & _ & _ & Hlb & _ & ->)%HS E.
    apply (f_equal splitSnapshotName) in E.
    rewrite !splitSnapshotName_app in E by done. by injection E. }
  assert (HSnd : NoDup S) by by apply NoDup_filter.
  assert (Hnew : NoDup (newNameIn z nd <$> S)).
  { apply NoDup_fmap_2_strong; [|done].
    intros a b Ha Hb' E.
    destruct (HS a Ha) as (Hia & ca & la & Hca & _ & Hna & _ & _ & Ea).
    destruct (HS b Hb') as (Hib & cb & lb & Hcb & _ & Hnb & _ & _ & Eb).
    rewrite Ea, Eb in E. apply append_inj_l, append_inj_l in E. subst lb.
    apply (Huniq a b ca cb); congruence. }
  assert (Hsel : forall s, s ∈ S ->
            s ∈ children od /\ s ≠ oldOrig /\ s ≠ newOrig /\ is_Some (heap z !! s)).
  { intros s Hs. destruct (HS s Hs) as (Hin & cd & leaf & Hc & Hsnap & _).
    split; [done|]. split; [intros ->; congruence|]. split; [intros ->; congruence|].
    by exists cd. }
  destruct (migrate_spec oldOrig newOrig Hne S z od nd Ho Hn Hnd HSnd Hsel)
    as (z1 & Hrun & Hold1 & Hnew1 & Hsel1 & Hrest1 & Hreg1).
  assert (Hb1 : exists b1, heap z1 !! base = Some b1).
  { destruct (decide (base ∈ S)) as [Hin|Hnin]; [by erewrite Hsel1; eauto|].
    destruct (decide (base = oldOrig)) as [->|?]; [eauto|].
    destruct (decide (base = newOrig)) as [->|?]; [eauto|].
    rewrite Hrest1 by done. eauto. }
  destruct Hb1 as [b1 Hb1].
  set (od1 := with_children od (filter (fun c => c ∉ S) (children od))) in *.
  set (nd1 := with_children nd (children nd ++ S)) in *.
  set (z' := update (update z1 oldOrig (with_Origin od1 (Name b1)))
               newOrig (with_Origin nd1 "")).
  assert (Hbase : exists bd', heap z' !! base = Some bd' /\ Name bd' = Name b1).
  { subst z'. cbn [update heap].
    destruct (decide (base = newOrig)) as [->|?].
    - rewrite lookup_insert_eq. eexists. split; [done|].
      rewrite Hnew1 in Hb1. by injection Hb1 as <-.
    - rewrite lookup_insert_ne by done. destruct (decide (base = oldOrig)) as [->|?].
      + rewrite lookup_insert_eq. eexists. split; [done|].
        rewrite Hold1 in Hb1. by injection Hb1 as <-.
      + rewrite lookup_insert_ne by done. eauto. }
  destruct Hbase as (bd' & Hbd' & Hbname).
  exists z', (with_Origin od1 (Name b1)), (with_Origin nd1 ""), bd'.
  split.
  { unfold inverseOrigin, deref, findDatasetByName. rewrite Hn, Hreg, Ho.
    rewrite (snapshotsToMigrate_filter z base bd) by
      (try done; intros c Hc; destruct (Hkids c Hc) as (cd & -> & _); eauto).
    fold S. rewrite Hrun, Hb1, Hold1. cbn [update heap].
    by rewrite lookup_insert_ne, Hnew1. }
  split; [subst z'; cbn [update heap]; by rewrite lookup_insert_ne, lookup_insert_eq|].
  split; [subst z'; cbn [update heap]; by rewrite lookup_insert_eq|].
  split; [done|].
  assert (Hkept : filter (fun c => c ∉ S) (children od)
                  = filter (fun c => migrates z bd c = false) (children od)).
  { apply filter_ext_in. intros c Hc. subst S.
    rewrite list_elem_of_filter. destruct (migrates z bd c); intuition congruence. }
  split; [by rewrite <- Hkept|]. split; [done|].
  split; [|by rewrite Hbname].
  intros c cd leaf Hin Hc Hsnap Hlu Hname Hat.
  assert (HcS : c ∈ S).
  { apply list_elem_of_filter. split; [|done]. unfold migrates. rewrite Hc, Hsnap.
    cbn [andb]. by apply Z.leb_le. }
  destruct (Hsel c HcS) as (_ & Hco & Hcn & _).
  assert (Hmn : migratedName nd cd = Name nd +:+ "@" +:+ leaf).
  { unfold migratedName. by rewrite Hname, splitSnapshotName_app. }
  split.
  { subst z'. cbn [update heap]. rewrite !lookup_insert_ne by done.
    by rewrite (Hsel1 c cd HcS Hc), Hmn. }
  split. { cbn [with_Origin children nd1 with_children]. apply elem_of_app. by right. }
  split.
  { cbn [with_Origin children od1 with_children]. rewrite list_elem_of_filter.
    by intros [Hc' _]. }
  subst z'. cbn [update allDatasets]. rewrite Hreg1.
  assert (Hn1 : nameIn z c = Name cd) by (unfold nameIn; by rewrite Hc).
  assert (Hn2 : newNameIn z nd c = Name nd +:+ "@" +:+ leaf)
    by (unfold newNameIn; by rewrite Hc).
  split.
  - rewrite <- Hn2. by apply registryAfter_new.
  - rewrite <- Hn1. by apply registryAfter_old.
Qed.

Lemma inverseOrigin_migrates_witness :
  exists (z' : Zfs) (od' nd' bd' : Dataset),
    inverseOrigin promotion.before 0%nat 1%nat = Returned (z', None)
    /\ heap z' !! 0%nat = Some od'
    /\ heap z' !! 1%nat = Some nd'
    /\ heap z' !! 3%nat = Some bd'
    /\ children od' = [4%nat]
    /\ children nd' = [2%nat; 3%nat]
    /\ Name bd' = "clone@2"
    /\ allDatasets z' !! "clone@1" = Some 2%nat
    /\ allDatasets z' !! "clone@2" = Some 3%nat
    /\ allDatasets z' !! "base@1" = None
    /\ allDatasets z' !! "base@2" = None
    /\ Origin (props od') = "clone@2"
    /\ Origin (props nd') = "".
Proof.
  destruct (inverseOrigin_migrates promotion.before 0%nat 1%nat 3%nat
              (mkDataset "base" false (promotion.cloneProp "") [2; 3; 4]%nat)
              (mkDataset "clone" false (promotion.cloneProp "base@2") [])
              (mkDataset "base@2" true (promotion.snapshotProp 30) []))
    as (z' & od' & nd' & bd' & Hrun & Ho & Hn & Hb & Hkept & Hmoved & Heach & Hoo & Hno).
  - reflexivity.
  - reflexivity.
  - reflexivity.
  - reflexivity.
  - discriminate.
  - reflexivity.
  - reflexivity.
  - discriminate.
  - cbn [children].
    repeat (apply NoDup_cons_2;
            [rewrite ?elem_of_cons, elem_of_nil; intuition lia|]).
    apply NoDup_nil_2.
  - cbn [children Name]. intros c Hc.
    repeat (apply elem_of_cons in Hc as [->|Hc]); [| | |by apply elem_of_nil in Hc].
    + eexists. split; [reflexivity|]. intros _. by exists "1".
    + eexists. split; [reflexivity|]. intros _. by exists "2".
    + eexists. split; [reflexivity|]. intros _. by exists "3".
  - cbn [children]. intros c c' cd cd' Hc Hc' Hcd Hcd' Hname.
    repeat (apply elem_of_cons in Hc as [->|Hc]); [| | |by apply elem_of_nil in Hc];
      repeat (apply elem_of_cons in Hc' as [->|Hc']); try (by apply elem_of_nil in Hc');
      try done; vm_compute in Hcd, Hcd'; injection Hcd as <-; injection Hcd' as <-;
      discriminate.
  - destruct (Heach 2%nat (mkDataset "base@1" true (promotion.snapshotProp 10) []) "1")
      as (_ & _ & _ & H1new & H1old);
      [cbn [children]; rewrite !elem_of_cons; tauto
      |reflexivity|reflexivity|cbn; lia|reflexivity|reflexivity|].
    destruct (Heach 3%nat (mkDataset "base@2" true (promotion.snapshotProp 30) []) "2")
      as (H2 & _ & _ & H2new & H2old);
      [cbn [children]; rewrite !elem_of_cons; tauto
      |reflexivity|reflexivity|cbn; lia|reflexivity|reflexivity|].
    exists z', od', nd', bd'.
    rewrite Hb in H2. injection H2 as ->.
    repeat split; try done.
Defined.

(** ** [inverseOrigin]: the search for the snapshot to remove *)

(** The search for a snapshot that is not among the children ends with [j]
    on the last child: [j < 0] holds only when there is no child at all. *)
Lemma removeChild_absent (front : list ptr) (last s : ptr) :
  s ∉ front ++ [last] ->
  removeChild [] s = None
  /\ removeChild (front ++ [last]) s = Some front.
Proof.
  intros Hs. split; [done|]. unfold removeChild, findChild.
  rewrite findChildFrom_absent by done.
  destruct (front ++ [last]) as [|c l] eqn:E; [by destruct front|].
  rewrite <- E. rewrite length_app. cbn [length].
  destruct (_ <? 0) eqn:Elt; [apply Z.ltb_lt in Elt; lia|]. f_equal.
  replace (Z.to_nat (0 + Z.of_nat (length front + 1) - 1)) with (length front) by lia.
  replace (Z.to_nat (0 + Z.of_nat (length front + 1) - 1 + 1))
    with (length (front ++ [last])) by (rewrite length_app; cbn; lia).
  by rewrite take_app_length, drop_all, app_nil_r.
Qed.

Lemma snapshotsToMigrate_sound (z : Zfs) (baseSnapshot : ptr) (cs l : list ptr) :
  snapshotsToMigrate z baseSnapshot cs = Returned l ->
  forall s, s ∈ l ->
    s ∈ cs /\ exists sd, heap z !! s = Some sd /\ IsSnapshot sd = true.
Proof.
  revert l. induction cs as [|c cs IH]; intros l.
  - intros [= <-] s Hs. by apply elem_of_nil in Hs.
  - cbn [snapshotsToMigrate]. unfold deref.
    destruct (heap z !! c) as [cd|] eqn:Hc; [|done].
    destruct (IsSnapshot cd) eqn:Hsnap; cbn [negb].
    2:{ intros H s Hs. destruct (IH _ H s Hs) as [? ?]. split; [by right|done]. }
    destruct (heap z !! baseSnapshot) as [b|]; [|done].
    destruct (_ >? _).
    { intros H s Hs. destruct (IH _ H s Hs) as [? ?]. split; [by right|done]. }
    destruct (snapshotsToMigrate z baseSnapshot cs) as [l'|]; [|done].
    intros [= <-] s [->|Hs]%elem_of_cons.
    + split; [by left|]. by exists cd.
    + destruct (IH _ eq_refl s Hs) as [? ?]. split; [by right|done].
Qed.

Lemma snapshotsToMigrate_sublist (z : Zfs) (baseSnapshot : ptr) (cs l : list ptr) :
  snapshotsToMigrate z baseSnapshot cs = Returned l -> sublist l cs.
Proof.
  revert l. induction cs as [|c cs IH]; intros l.
  - by intros [= <-].
  - cbn [snapshotsToMigrate]. unfold deref.
    destruct (heap z !! c) as [cd|]; [|done].
    destruct (IsSnapshot cd); cbn [negb].
    2:{ intros H. apply sublist_cons. by apply IH. }
    destruct (heap z !! baseSnapshot) as [b|]; [|done].
    destruct (_ >? _).
    { intros H. apply sublist_cons. by apply IH. }
    destruct (snapshotsToMigrate z baseSnapshot cs) as [l'|]; [|done].
    intros [= <-]. apply sublist_skip. by apply IH.
Qed.

(** One round of the loop for a snapshot that is among the children of the
    old origin: the search finds its first occurrence, which is the child
    removed, and the round returns no error. When the two datasets are one
    object the snapshot has been appended to the children before the
    search. *)
Lemma migrateSnapshot_finds (o n : ptr) (z z2 : Zfs) (s : ptr)
    (e2 : option error) (od : Dataset) :
  migrateSnapshot o n z s = Returned (z2, e2) ->
  heap z !! o = Some od ->
  s ∈ children od ->
  e2 = None
  /\ exists (l1 l2 : list ptr) (od2 : Dataset),
       children od ++ (if decide (o = n) then [s] else []) = l1 ++ s :: l2
       /\ (s ∉ l1)
       /\ heap z2 !! o = Some od2
       /\ children od2 = l1 ++ l2.
Proof.
  intros Hm Ho Hin. unfold migrateSnapshot, deref, update in Hm.
  cbn [heap allDatasets] in Hm.
  destruct (heap z !! s) as [sd|] eqn:Hsd; [|done].
  destruct (heap z !! n) as [nd|] eqn:Hn; [|done].
  destruct (<[s:=with_Name sd (Name nd +:+ "@" +:+ snd (splitSnapshotName (Name sd)))]>
              (heap z) !! n) as [nd1|] eqn:Hn1; [|done].
  destruct (<[n:=with_children nd1 (children nd1 ++ [s])]>
              (<[s:=with_Name sd (Name nd +:+ "@" +:+ snd (splitSnapshotName (Name sd)))]>
                 (heap z)) !! o) as [od2|] eqn:Ho2; [|done].
  assert (Hs1 : forall p d1,
            <[s:=with_Name sd (Name nd +:+ "@" +:+ snd (splitSnapshotName (Name sd)))]>
              (heap z) !! p = Some d1 ->
            exists d, heap z !! p = Some d /\ children d1 = children d).
  { intros p d1. destruct (decide (p = s)) as [->|Hne].
    - rewrite lookup_insert_eq. intros [= <-]. by exists sd.
    - rewrite lookup_insert_ne by done. intros H. by exists d1. }
  assert (Hch : children od2
                = children od ++ (if decide (o = n) then [s] else [])).
  { destruct (decide (o = n)) as [->|Hne].
    - rewrite lookup_insert_eq in Ho2. injection Ho2 as <-.
      destruct (Hs1 _ _ Hn1) as (d & Hd & Hc). cbn [children with_children].
      rewrite Hc. congruence.
    - rewrite lookup_insert_ne in Ho2 by done.
      destruct (Hs1 _ _ Ho2) as (d & Hd & Hc). rewrite app_nil_r, Hc. congruence. }
  assert (Hin2 : s ∈ children od2).
  { rewrite Hch. apply elem_of_app. by left. }
  apply list_elem_of_split_l in Hin2 as (l1 & l2 & Hsplit & Hl1).
  rewrite Hsplit, removeChild_found in Hm by done.
  destruct (_ !! s) as [sd2|] in Hm; [|done].
  injection Hm as <- <-. split; [done|].
  exists l1, l2, (with_children od2 (l1 ++ l2)). cbn [heap].
  rewrite lookup_insert_eq, <- Hch. done.
Qed.

(** The migration loop over snapshots [l] that are among the children of
    the old origin, counted as often as they are in [l]: no round fails;
    every snapshot is among the children when its round starts; and the
    children afterwards are the children before without the snapshots of
    [l], in the order they had. *)
Lemma migrate_finds (o n : ptr) (l : list ptr) :
  forall (z z' : Zfs) (err : option error) (od : Dataset),
    migrate o n z l = Returned (z', err) ->
    heap z !! o = Some od ->
    l ⊆+ children od ->
    err = None
    /\ (forall done s todo,
          l = done ++ s :: todo ->
          exists (z1 : Zfs) (od1 : Dataset),
            migrate o n z done = Returned (z1, None)
            /\ heap z1 !! o = Some od1
            /\ s ∈ children od1)
    /\ exists od' : Dataset,
         heap z' !! o = Some od'
         /\ (o ≠ n ->
             children od' ++ l ≡ₚ children od
             /\ sublist (children od') (children od))
         /\ (o = n -> children od' ≡ₚ children od).
Proof.
  induction l as [|s l IH]; intros z z' err od Hm Ho Hl.
  - cbn in Hm. injection Hm as <- <-. split; [done|]. split.
    { intros [|? ?] ? ? ?; done. }
    exists od. rewrite app_nil_r. done.
  - cbn [migrate] in Hm.
    destruct (migrateSnapshot o n z s) as [[z2 e2]|] eqn:Hs; [|done].
    assert (Hin : s ∈ children od).
    { apply (elem_of_submseteq (s :: l)); [by left|done]. }
    destruct (migrateSnapshot_finds _ _ _ _ _ _ _ Hs Ho Hin)
      as (-> & l1 & l2 & od2 & Hsplit & Hl1 & Ho2 & Hch2).
    assert (Hl' : l ⊆+ children od2).
    { rewrite Hch2. apply (submseteq_app_inv_l _ _ [s]). cbn [app].
      rewrite Permutation_middle, <- Hsplit.
      etrans; [exact Hl|]. by apply submseteq_inserts_r. }
    destruct (IH z2 z' err od2 Hm Ho2 Hl') as (-> & Hpre & od' & Ho' & Hne & Heq).
    split; [done|]. split.
    { intros [|s0 done'] s' todo.
      - intros [= <- _]. by exists z, od.
      - intros [= <- ->]. cbn [migrate]. rewrite Hs. by apply (Hpre done' s' todo). }
    exists od'. split; [done|]. split.
    + intros Hon. destruct (Hne Hon) as [Hperm Hsub].
      destruct (decide (o = n)) as [|_]; [done|]. rewrite app_nil_r in Hsplit.
      rewrite Hsplit. rewrite Hch2 in Hperm, Hsub. split.
      * by rewrite <- !Permutation_middle, Hperm.
      * etrans; [exact Hsub|]. apply sublist_app; [done|]. by apply sublist_cons.
    + intros Hon. specialize (Heq Hon). rewrite Hch2 in Heq.
      destruct (decide (o = n)) as [_|]; [|done].
      apply (Permutation_cons_inv (a := s)).
      rewrite Heq, Permutation_middle, <- Hsplit. symmetry. apply Permutation_cons_append.
Qed.



(** ** [inverseOrigin]: what it leaves alone *)

Import memframe.

Section Frame.

Variables o n : ptr.
Variable movers : list ptr.

Lemma carried_refl (z : Zfs) : carried o n movers z z.
Proof.
  split; [done|]. split; [|by left]. intros p d Hp. by exists d.
Qed.

Lemma carried_trans (z z1 z2 : Zfs) :
  carried o n movers z z1 -> carried o n movers z1 z2 -> carried o n movers z z2.
Proof.
  intros (N1 & H1 & R1) (N2 & H2 & R2). split; [by auto|]. split.
  - intros p d Hp.
    destruct (H1 p d Hp) as (d1 & Hp1 & Hs1 & Hpr1 & Hn1 & Hc1).
    destruct (H2 p d1 Hp1) as (d2 & Hp2 & Hs2 & Hpr2 & Hn2 & Hc2).
    exists d2. split; [done|]. split; [congruence|]. split; [congruence|].
    split.
    + intros Hm. rewrite Hn2, Hn1; done.
    + intros Ho Hn. rewrite Hc2, Hc1; done.
  - intros k p Hk. destruct (R2 k p Hk) as [Hk1|?]; [|by right]. by apply R1.
Qed.

Lemma carried_update (z : Zfs) (p : ptr) (d d' : Dataset) :
  heap z !! p = Some d ->
  IsSnapshot d' = IsSnapshot d ->
  props d' = props d ->
  (p ∉ movers -> Name d' = Name d) ->
  (p ≠ o -> p ≠ n -> children d' = children d) ->
  carried o n movers z (update z p d').
Proof.
  intros Hp Hs Hpr Hn Hc. unfold update. split; [|split]; cbn [heap allDatasets].
  - intros q Hq. rewrite lookup_insert_ne; [done|]. intros ->. congruence.
  - intros q dq Hq. destruct (decide (q = p)) as [->|Hne].
    + rewrite lookup_insert_eq. exists d'.
      assert (dq = d) as -> by congruence. done.
    + rewrite lookup_insert_ne by done. by exists dq.
  - intros k q Hk. by left.
Qed.

Lemma carried_registry (z : Zfs) (s : ptr) (k k' : string) :
  s ∈ movers ->
  carried o n movers z (mkZfs (heap z) (delete k (<[k' := s]> (allDatasets z)))).
Proof.
  intros Hs. split; [done|]. split; cbn [heap allDatasets].
  - intros p d Hp. by exists d.
  - intros key p Hk. destruct (decide (key = k)) as [->|Hne].
    { by rewrite lookup_delete_eq in Hk. }
    rewrite lookup_delete_ne in Hk by done.
    destruct (decide (key = k')) as [->|Hne'].
    + rewrite lookup_insert_eq in Hk. injection Hk as <-. by right.
    + rewrite lookup_insert_ne in Hk by done. by left.
Qed.

Lemma migrateSnapshot_carried (z z1 : Zfs) (s : ptr) (err : option error) :
  s ∈ movers ->
  migrateSnapshot o n z s = Returned (z1, err) ->
  carried o n movers z z1.
Proof.
  intros Hs. unfold migrateSnapshot, deref.
  destruct (heap z !! s) as [sd|] eqn:Hsd; [|done].
  destruct (heap z !! n) as [nd|] eqn:Hnd; [|done].
  set (za := update z s _).
  assert (Ha : carried o n movers z za).
  { by apply carried_update with sd. }
  destruct (heap za !! n) as [nd'|] eqn:Hnd'; [|done].
  set (zb := update za n _).
  assert (Hb : carried o n movers za zb).
  { by apply carried_update with nd'. }
  destruct (heap zb !! o) as [od|] eqn:Hod; [|done].
  destruct (removeChild (children od) s) as [cs|].
  2:{ intros [= <- <-]. by apply carried_trans with za. }
  set (zc := update zb o _).
  assert (Hc : carried o n movers zb zc).
  { by apply carried_update with od. }
  destruct (heap zc !! s) as [sd'|] eqn:Hsd'; [|done].
  intros [= <- <-].
  apply carried_trans with zc; [|by apply (carried_registry zc)].
  apply carried_trans with zb; [|done]. by apply carried_trans with za.
Qed.

Lemma migrate_carried (l : list ptr) :
  (forall s, s ∈ l -> s ∈ movers) ->
  forall (z z1 : Zfs) (err : option error),
    migrate o n z l = Returned (z1, err) ->
    carried o n movers z z1.
Proof.
  induction l as [|s l IH]; intros Hl z z1 err.
  - intros [= <- <-]. apply carried_refl.
  - cbn [migrate].
    destruct (migrateSnapshot o n z s) as [[za [e|]]|] eqn:Hm; [| |done].
    + intros [= <- <-]. apply (migrateSnapshot_carried _ _ _ _ ltac:(apply Hl; by left) Hm).
    + intros Hrun. apply carried_trans with za.
      * apply (migrateSnapshot_carried _ _ _ _ ltac:(apply Hl; by left) Hm).
      * apply (IH ltac:(intros; apply Hl; by right) _ _ _ Hrun).
Qed.

End Frame.

(** X22: whether or not it returns an error, [inverseOrigin] makes no
    dataset and drops none, and changes of a dataset only this: the
    children and the origin of the two datasets it is called on, and the
    name of snapshots that were children of the old origin. Every dataset
    keeps its kind and all its other properties. The registry gets no entry
    but for children of the old origin. *)
Theorem inverseOrigin_frame (z z' : Zfs) (o n : ptr) (err : option error) :
  inverseOrigin z o n = Returned (z', err) ->
  (forall p, heap z !! p = None -> heap z' !! p = None)
  /\ (forall p d, heap z !! p = Some d ->
        exists d', heap z' !! p = Some d'
          /\ IsSnapshot d' = IsSnapshot d
          /\ set_Origin "" (props d') = set_Origin "" (props d)
          /\ (p ≠ o -> p ≠ n -> children d' = children d /\ props d' = props d)
          /\ (Name d' ≠ Name d ->
              IsSnapshot d = true
              /\ exists od, heap z !! o = Some od /\ p ∈ children od))
  /\ (forall k p, allDatasets z' !! k = Some p ->
        allDatasets z !! k = Some p
        \/ exists od, heap z !! o = Some od /\ p ∈ children od).
Proof.
  unfold inverseOrigin, deref.
  destruct (heap z !! n) as [nd|] eqn:Hn; [|done].
  destruct (findDatasetByName z (Origin (props nd))) as [base|e].
  2:{ intros [= <- <-]. split; [done|]. split; [|by left].
      intros p d Hp. exists d. done. }
  destruct (heap z !! o) as [od|] eqn:Ho; [|done].
  destruct (snapshotsToMigrate z base (children od)) as [l|] eqn:Hl; [|done].
  pose proof (snapshotsToMigrate_sound _ _ _ _ Hl) as Hsound.
  destruct (migrate o n z l) as [[z1 e]|] eqn:Hm; [|done].
  pose proof (migrate_carried o n l l ltac:(done) _ _ _ Hm) as (N1 & H1 & R1).
  assert (Hname : forall p d d1, heap z !! p = Some d -> heap z1 !! p = Some d1 ->
            Name d1 ≠ Name d ->
            IsSnapshot d = true /\ exists od0, Some od = Some od0 /\ p ∈ children od0).
  { intros p d d1 Hp Hp1 Hne.
    destruct (H1 p d Hp) as (d1' & Hp1' & _ & _ & Hnm & _).
    assert (d1' = d1) as -> by congruence.
    destruct (decide (p ∈ l)) as [Hin|Hout]; [|by specialize (Hnm Hout)].
    destruct (Hsound p Hin) as (Hc & sd & Hsd & Hsnap).
    assert (sd = d) as -> by congruence. split; [done|]. by exists od. }
  assert (Hreg : forall k p, allDatasets z1 !! k = Some p ->
            allDatasets z !! k = Some p
            \/ exists od0, Some od = Some od0 /\ p ∈ children od0).
  { intros k p Hk. destruct (R1 k p Hk) as [?|Hin]; [by left|]. right.
    exists od. split; [done|]. by apply Hsound. }
  destruct e as [e|].
  { intros [= <- <-]. split; [done|]. split; [|done].
    intros p d Hp. destruct (H1 p d Hp) as (d1 & Hp1 & Hs & Hpr & Hnm & Hch).
    exists d1. split; [done|]. split; [done|]. split; [by rewrite Hpr|].
    split; [by auto|]. by apply Hname. }
  destruct (heap z1 !! base) as [b|] eqn:Hb; [|done].
  destruct (heap z1 !! o) as [od1|] eqn:Ho1; [|done].
  unfold update at 1. cbn [heap allDatasets].
  destruct (<[o:=with_Origin od1 (Name b)]> (heap z1) !! n) as [nd1|] eqn:Hn1; [|done].
  intros [= <- <-]. unfold update. cbn [heap allDatasets].
  split.
  { intros p Hp. rewrite !lookup_insert_ne; [by apply N1| |]; intros ->; congruence. }
  split; [|done].
  intros p d Hp. destruct (H1 p d Hp) as (d1 & Hp1 & Hs & Hpr & Hnm & Hch).
  destruct (decide (p = n)) as [->|Hpn].
  { rewrite lookup_insert_eq. eexists. split; [done|].
    destruct (decide (n = o)) as [->|Hno].
    - rewrite lookup_insert_eq in Hn1. injection Hn1 as <-.
      assert (d1 = od1) as -> by congruence.
      cbn [with_Origin IsSnapshot props Name children]. split; [done|].
      split; [by rewrite <- Hpr; destruct (props od1)|]. split; [done|].
      by apply Hname.
    - rewrite lookup_insert_ne in Hn1 by done.
      assert (d1 = nd1) as -> by congruence.
      cbn [with_Origin IsSnapshot props Name children]. split; [done|].
      split; [by rewrite <- Hpr; destruct (props nd1)|]. split; [done|].
      by apply Hname. }
  rewrite lookup_insert_ne by done.
  destruct (decide (p = o)) as [->|Hpo].
  { rewrite lookup_insert_eq. eexists. split; [done|].
    assert (d1 = od1) as -> by congruence.
    cbn [with_Origin IsSnapshot props Name children]. split; [done|].
    split; [by rewrite <- Hpr; destruct (props od1)|]. split; [done|].
    by apply Hname. }
  rewrite lookup_insert_ne by done.
  exists d1. split; [done|]. split; [done|]. split; [by rewrite Hpr|].
  split; [by auto|]. by apply Hname.
Qed.

Lemma inverseOrigin_frame_witness :
  let z' := match inverseOrigin promotion.before 0%nat 1%nat with
            | Returned (z', _) => z'
            | Panicked _ => promotion.before
            end in
  (forall p, heap promotion.before !! p = None -> heap z' !! p = None)
  /\ (forall p d, heap promotion.before !! p = Some d ->
        exists d', heap z' !! p = Some d'
          /\ IsSnapshot d' = IsSnapshot d
          /\ set_Origin "" (props d') = set_Origin "" (props d)
          /\ (p ≠ 0%nat -> p ≠ 1%nat -> children d' = children d /\ props d' = props d)
          /\ (Name d' ≠ Name d ->
              IsSnapshot d = true
              /\ exists od, heap promotion.before !! 0%nat = Some od /\ p ∈ children od))
  /\ (forall k p, allDatasets z' !! k = Some p ->
        allDatasets promotion.before !! k = Some p
        \/ exists od, heap promotion.before !! 0%nat = Some od /\ p ∈ children od).
Proof.
  apply (inverseOrigin_frame promotion.before
           (match inverseOrigin promotion.before 0%nat 1%nat with
            | Returned (z', _) => z'
            | Panicked _ => promotion.before
            end) 0%nat 1%nat None).
  vm_compute. reflexivity.
Defined.
